(** * Picuki CLI handler ([src/main.py]): shallow embedding and properties

    The Python module [main.py] is embedded function by function.  The
    library calls it makes (hashlib, os.path, os, pathlib, aiohttp) are
    modelled in the modules [MD5], [PosixPath] and [Os]; the scraper
    [lib.Picuki], which is not part of [main.py], is a record of oracles. *)

From Stdlib Require Import ZArith List String Ascii Bool Lia DecimalString.
From Stdlib Require Import Permutation.
Import ListNotations.
Local Open Scope string_scope.
Local Open Scope list_scope.

(** ** hashlib.md5 *)

Module MD5.
Local Open Scope Z_scope.

Definition mask32 : Z := 4294967295.
Definition w32 (x : Z) : Z := Z.land x mask32.
Definition not32 (x : Z) : Z := Z.lxor (w32 x) mask32.
Definition rotl32 (x c : Z) : Z :=
  w32 (Z.lor (Z.shiftl x c) (Z.shiftr (w32 x) (32 - c))).

Definition shifts : list Z :=
  [7; 12; 17; 22; 7; 12; 17; 22; 7; 12; 17; 22; 7; 12; 17; 22;
   5; 9; 14; 20; 5; 9; 14; 20; 5; 9; 14; 20; 5; 9; 14; 20;
   4; 11; 16; 23; 4; 11; 16; 23; 4; 11; 16; 23; 4; 11; 16; 23;
   6; 10; 15; 21; 6; 10; 15; 21; 6; 10; 15; 21; 6; 10; 15; 21].

(** [floor (2^32 * abs (sin (i + 1)))] for [i = 0 .. 63]. *)
Definition sines : list Z :=
  [3614090360; 3905402710; 606105819; 3250441966;
   4118548399; 1200080426; 2821735955; 4249261313;
   1770035416; 2336552879; 4294925233; 2304563134;
   1804603682; 4254626195; 2792965006; 1236535329;
   4129170786; 3225465664; 643717713; 3921069994;
   3593408605; 38016083; 3634488961; 3889429448;
   568446438; 3275163606; 4107603335; 1163531501;
   2850285829; 4243563512; 1735328473; 2368359562;
   4294588738; 2272392833; 1839030562; 4259657740;
   2763975236; 1272893353; 4139469664; 3200236656;
   681279174; 3936430074; 3572445317; 76029189;
   3654602809; 3873151461; 530742520; 3299628645;
   4096336452; 1126891415; 2878612391; 4237533241;
   1700485571; 2399980690; 4293915773; 2240044497;
   1873313359; 4264355552; 2734768916; 1309151649;
   4149444226; 3174756917; 718787259; 3951481745].

Record state := mkState { sa : Z; sb : Z; sc : Z; sd : Z }.

Definition init : state :=
  mkState 1732584193 4023233417 2562383102 271733878.

Definition bytes_of_string (s : string) : list Z :=
  map (fun c => Z.of_nat (nat_of_ascii c)) (list_ascii_of_string s).

(** Little-endian encoding of [x] on [n] bytes. *)
Fixpoint le_bytes (n : nat) (x : Z) : list Z :=
  match n with
  | O => []
  | S n' => Z.land x 255 :: le_bytes n' (Z.shiftr x 8)
  end.

Fixpoint le_word (bs : list Z) : Z :=
  match bs with
  | [] => 0
  | b :: bs' => Z.lor b (Z.shiftl (le_word bs') 8)
  end.

Definition pad (msg : list Z) : list Z :=
  let len := Z.of_nat (List.length msg) in
  let zeros := Z.to_nat ((55 - len) mod 64) in
  msg ++ [128] ++ repeat 0 zeros ++ le_bytes 8 (Z.land (8 * len) (2 ^ 64 - 1)).

(** The sixteen 32-bit words of a 64-byte block. *)
Fixpoint words (n : nat) (block : list Z) : list Z :=
  match n with
  | O => []
  | S n' => le_word (firstn 4 block) :: words n' (skipn 4 block)
  end.

Definition round (m : list Z) (i : Z) (st : state) : state :=
  let '(mkState a b c d) := st in
  let '(f, g) :=
    if i <? 16 then (Z.lor (Z.land b c) (Z.land (not32 b) d), i)
    else if i <? 32 then (Z.lor (Z.land d b) (Z.land (not32 d) c), (5 * i + 1) mod 16)
    else if i <? 48 then (Z.lxor (Z.lxor b c) d, (3 * i + 5) mod 16)
    else (Z.lxor c (Z.lor b (not32 d)), (7 * i) mod 16) in
  let f' := w32 (f + a + nth (Z.to_nat i) sines 0 + nth (Z.to_nat g) m 0) in
  mkState d (w32 (b + rotl32 f' (nth (Z.to_nat i) shifts 0))) b c.

Definition block (blk : list Z) (st : state) : state :=
  let m := words 16 blk in
  let st' := fold_left (fun s i => round m (Z.of_nat i) s) (seq 0 64) st in
  mkState (w32 (sa st + sa st')) (w32 (sb st + sb st'))
          (w32 (sc st + sc st')) (w32 (sd st + sd st')).

Fixpoint blocks (n : nat) (bytes : list Z) (st : state) : state :=
  match n with
  | O => st
  | S n' => blocks n' (skipn 64 bytes) (block (firstn 64 bytes) st)
  end.

Definition digest (msg : list Z) : list Z :=
  let p := pad msg in
  let st := blocks (List.length p / 64) p init in
  le_bytes 4 (sa st) ++ le_bytes 4 (sb st) ++ le_bytes 4 (sc st) ++ le_bytes 4 (sd st).

Definition hex_digit (x : Z) : ascii :=
  if x <? 10 then ascii_of_nat (Z.to_nat (48 + x))
  else ascii_of_nat (Z.to_nat (87 + x)).

Fixpoint hex (bs : list Z) : string :=
  match bs with
  | [] => EmptyString
  | b :: bs' => String (hex_digit (Z.shiftr b 4)) (String (hex_digit (Z.land b 15)) (hex bs'))
  end.

(** [hashlib.md5(s.encode()).hexdigest()]: a string is its UTF-8 bytes. *)
Definition hexdigest (s : string) : string := hex (digest (bytes_of_string s)).
End MD5.

(** ** posixpath

    [os.path.join], [str.split('/')] and [os.path.realpath].  The modelled
    file system has no symbolic links, so [realpath p] is
    [normpath (join (getcwd ()) p)] with a single leading slash; the working
    directory is an absolute path. *)

Module PosixPath.
Definition is_sep (c : ascii) : bool := Ascii.eqb c "/".

Definition startswith_sep (s : string) : bool :=
  match s with
  | String c _ => is_sep c
  | EmptyString => false
  end.

Fixpoint endswith_sep (s : string) : bool :=
  match s with
  | EmptyString => false
  | String c EmptyString => is_sep c
  | String _ r => endswith_sep r
  end.

(** One iteration of the loop of [posixpath.join]. *)
Definition join2 (path b : string) : string :=
  if startswith_sep b then b
  else if (path =? "")%string || endswith_sep path then (path ++ b)%string
  else (path ++ "/" ++ b)%string.

Definition join (a : string) (p : list string) : string := fold_left join2 p a.

(** [s.split('/')] *)
Fixpoint split (s : string) : list string :=
  match s with
  | EmptyString => [""]
  | String c r =>
      if is_sep c then "" :: split r
      else match split r with
           | h :: t => String c h :: t
           | [] => [String c ""]
           end
  end.

(** The loop body of [posixpath.normpath] on an absolute path;
    [new_comps] is kept last component first. *)
Definition norm_step (new_comps : list string) (comp : string) : list string :=
  if (comp =? "")%string || (comp =? ".")%string then new_comps
  else if (comp =? "..")%string then tl new_comps
  else comp :: new_comps.

(** Components of the absolute, normalised form of [p]. *)
Definition components (cwd p : string) : list string :=
  rev (fold_left norm_step (split (join2 cwd p)) []).

Definition render (comps : list string) : string :=
  ("/" ++ String.concat "/" comps)%string.

Definition realpath (cwd p : string) : string := render (components cwd p).
End PosixPath.

(** ** Exceptions *)

Inductive cls :=
| BaseException | Exception | AssertionError | ValueError | LookupError | KeyError
| AttributeError | OSError | PermissionError | NotADirectoryError | IsADirectoryError
| FileExistsError | FileNotFoundError | ConnectionError | ConnectionResetError
| TimeoutError            (* asyncio.TimeoutError *)
| SSLError | SSLWantReadError
| CancelledError          (* asyncio.exceptions.CancelledError *)
| HTTPError | RequestError | TransportError | TimeoutException
| ReadTimeout | ConnectTimeout | NetworkError | ReadError | ConnectError. (* httpx *)

Definition cls_eqb (c d : cls) : bool :=
  match c, d with
  | BaseException, BaseException | Exception, Exception
  | AssertionError, AssertionError | ValueError, ValueError
  | LookupError, LookupError | KeyError, KeyError
  | AttributeError, AttributeError | OSError, OSError
  | PermissionError, PermissionError | NotADirectoryError, NotADirectoryError
  | IsADirectoryError, IsADirectoryError | FileExistsError, FileExistsError
  | FileNotFoundError, FileNotFoundError | ConnectionError, ConnectionError
  | ConnectionResetError, ConnectionResetError | TimeoutError, TimeoutError
  | SSLError, SSLError | SSLWantReadError, SSLWantReadError
  | CancelledError, CancelledError | HTTPError, HTTPError
  | RequestError, RequestError
  | TransportError, TransportError | TimeoutException, TimeoutException
  | ReadTimeout, ReadTimeout | ConnectTimeout, ConnectTimeout
  | NetworkError, NetworkError | ReadError, ReadError
  | ConnectError, ConnectError => true
  | _, _ => false
  end.

(** The base class of each class ([None] for the root). *)
Definition base (c : cls) : option cls :=
  match c with
  | BaseException => None
  | Exception | CancelledError => Some BaseException
  | AssertionError | ValueError | LookupError | AttributeError | OSError | HTTPError =>
      Some Exception
  | KeyError => Some LookupError
  | PermissionError | NotADirectoryError | IsADirectoryError | FileExistsError
  | FileNotFoundError | ConnectionError | TimeoutError | SSLError => Some OSError
  | ConnectionResetError => Some ConnectionError
  | SSLWantReadError => Some SSLError
  | RequestError => Some HTTPError
  | TransportError => Some RequestError
  | TimeoutException | NetworkError => Some TransportError
  | ReadTimeout | ConnectTimeout => Some TimeoutException
  | ReadError | ConnectError => Some NetworkError
  end.

Fixpoint issubclass_fuel (fuel : nat) (c d : cls) : bool :=
  cls_eqb c d ||
  match fuel with
  | O => false
  | S fuel' => match base c with
               | Some b => issubclass_fuel fuel' b d
               | None => false
               end
  end.

(** No chain of base classes is longer than six. *)
Definition issubclass (c d : cls) : bool := issubclass_fuel 6 c d.

Record exn := mkExn { exn_class : cls; exn_str : string }.

(** [isinstance(e, (c1, ..., cn))] *)
Definition isinstance (e : exn) (classes : list cls) : bool :=
  existsb (issubclass (exn_class e)) classes.

Inductive result (A : Type) :=
| Ok (a : A)
| Raise (e : exn).
Arguments Ok {A} a.
Arguments Raise {A} e.

(** ** The file system, the console and the log

    A directory is the list of its entries in the order a scan of it returns
    them; the only permission modelled is the write permission of a
    directory.  There are no symbolic links. *)

#[warnings="-register-all"] Inductive node :=
| File (data : string)
| Dir (writable : bool) (entries : list (string * node)).

Inductive level := INFO | WARNING.

Inductive cell :=
| CStr (s : string)
| CInt (n : Z).

Definition table := list (string * cell).

(** What the program does to the outside world; [line] is the line of
    [main.py] of the call. *)
Inductive event :=
| Log (line : nat) (lvl : level) (msg : string)           (* logger.info, logger.warning *)
| Print (line : nat) (msg : string)                       (* Console().print *)
| ShowTable (line : nat) (title : string) (data : table)  (* show_table *)
| Sleep (line : nat) (secs : nat)                         (* time.sleep *)
| HttpGet (line : nat) (url : string)                     (* session.get *)
| Progress (line : nat) (advance : nat)                   (* progress.update *)
| SetLevelDebug (line : nat)                              (* getLogger().setLevel *)
| PrintHelp (line : nat)                                  (* parser.print_help *)
| Scrape (line : nat) (method arg : string).              (* a call into lib.Picuki *)

Record world := mkWorld {
  root : node;            (* the directory [/] *)
  cwd : string;           (* os.getcwd() *)
  trace : list event      (* oldest first *)
}.

(** Computations that read and change the world and may raise. *)
Definition M (A : Type) : Type := world -> result A * world.

Definition ret {A} (a : A) : M A := fun w => (Ok a, w).

Definition bind {A B} (m : M A) (f : A -> M B) : M B :=
  fun w => match m w with
           | (Ok a, w') => f a w'
           | (Raise e, w') => (Raise e, w')
           end.

Definition raise {A} (e : exn) : M A := fun w => (Raise e, w).

Definition emit (ev : event) : M unit :=
  fun w => (Ok tt, mkWorld (root w) (cwd w) (trace w ++ [ev])).

Definition getcwd : M string := fun w => (Ok (cwd w), w).

Notation "x <- m ;; k" := (bind m (fun x => k))
  (at level 61, m at next level, right associativity).
Notation "m ;; k" := (bind m (fun _ => k))
  (at level 61, right associativity).

(** [try: m  except cs1 as e: h1 e  except cs2 as e: h2 e ...]: the index
    of the first clause whose classes the exception is an instance of. *)
Fixpoint select_clause (clauses : list (list cls)) (e : exn) : option nat :=
  match clauses with
  | [] => None
  | cs :: rest =>
      if isinstance e cs then Some O
      else option_map S (select_clause rest e)
  end.

Definition try_except {A} (m : M A) (clauses : list (list cls * (exn -> M A))) : M A :=
  fun w => match m w with
           | (Ok a, w') => (Ok a, w')
           | (Raise e, w') =>
               match select_clause (map fst clauses) e with
               | Some i => match nth_error clauses i with
                           | Some (_, h) => h e w'
                           | None => (Raise e, w')
                           end
               | None => (Raise e, w')
               end
           end.

Module Os.
Fixpoint assoc {A} (k : string) (l : list (string * A)) : option A :=
  match l with
  | [] => None
  | (k', v) :: l' => if (k =? k')%string then Some v else assoc k l'
  end.

Fixpoint replace {A} (k : string) (v : A) (l : list (string * A)) : list (string * A) :=
  match l with
  | [] => []
  | (k', v') :: l' => if (k =? k')%string then (k, v) :: l' else (k', v') :: replace k v l'
  end.

(** The node reached from [n] along [comps]. *)
Fixpoint lookup (n : node) (comps : list string) : option node :=
  match comps with
  | [] => Some n
  | c :: rest =>
      match n with
      | File _ => None
      | Dir _ es => match assoc c es with
                    | Some n' => lookup n' rest
                    | None => None
                    end
      end
  end.

Definition stat (w : world) (p : string) : option node :=
  if (p =? "")%string then None
  else lookup (root w) (PosixPath.components (cwd w) p).

(** [os.path.exists] *)
Definition exists_ (p : string) : M bool :=
  fun w => (Ok (match stat w p with Some _ => true | None => false end), w).

(** [os.mkdir] of every missing directory along [comps], top down; a
    new directory is empty and writable. *)
Fixpoint mkdirs (n : node) (comps : list string) : result node :=
  match comps with
  | [] => match n with
          | Dir _ _ => Ok n
          | File _ => Raise (mkExn FileExistsError "File exists")
          end
  | c :: rest =>
      match n with
      | File _ => Raise (mkExn NotADirectoryError "Not a directory")
      | Dir wr es =>
          match assoc c es with
          | Some n' =>
              match mkdirs n' rest with
              | Ok n'' => Ok (Dir wr (replace c n'' es))
              | Raise e => Raise e
              end
          | None =>
              if wr then
                match mkdirs (Dir true []) rest with
                | Ok n'' => Ok (Dir wr (es ++ [(c, n'')]))
                | Raise e => Raise e
                end
              else Raise (mkExn PermissionError "Permission denied")
          end
      end
  end.

(** [os.makedirs(p, exist_ok=True)] *)
Definition makedirs (p : string) : M unit :=
  fun w => match mkdirs (root w) (PosixPath.components (cwd w) p) with
           | Ok r => (Ok tt, mkWorld r (cwd w) (trace w))
           | Raise e => (Raise e, w)
           end.

(** [open(p, "wb")] then [write] of each chunk: [change] maps the old
    content ([None] when the file is created) to the new. *)
Fixpoint store (n : node) (comps : list string) (change : option string -> string)
  : result node :=
  match n, comps with
  | File _, _ :: _ => Raise (mkExn NotADirectoryError "Not a directory")
  | _, [] => Raise (mkExn IsADirectoryError "Is a directory")
  | Dir wr es, [c] =>
      match assoc c es with
      | Some (File d) => Ok (Dir wr (replace c (File (change (Some d))) es))
      | Some (Dir _ _) => Raise (mkExn IsADirectoryError "Is a directory")
      | None => if wr then Ok (Dir wr (es ++ [(c, File (change None))]))
                else Raise (mkExn PermissionError "Permission denied")
      end
  | Dir wr es, c :: rest =>
      match assoc c es with
      | Some n' => match store n' rest change with
                   | Ok n'' => Ok (Dir wr (replace c n'' es))
                   | Raise e => Raise e
                   end
      | None => Raise (mkExn FileNotFoundError "No such file or directory")
      end
  end.

Definition open_wb (p : string) : M unit :=
  fun w => match store (root w) (PosixPath.components (cwd w) p) (fun _ => "") with
           | Ok r => (Ok tt, mkWorld r (cwd w) (trace w))
           | Raise e => (Raise e, w)
           end.

Definition write (p chunk : string) : M unit :=
  fun w => match store (root w) (PosixPath.components (cwd w) p)
                       (fun old => match old with
                                   | Some d => (d ++ chunk)%string
                                   | None => chunk
                                   end) with
           | Ok r => (Ok tt, mkWorld r (cwd w) (trace w))
           | Raise e => (Raise e, w)
           end.

(** [st_size]: the length of a file; a directory takes one block. *)
Definition st_size (n : node) : Z :=
  match n with
  | File d => Z.of_nat (String.length d)
  | Dir _ _ => 4096
  end.
End Os.

(** ** main.py *)

Definition lift {A} (r : result A) : M A := fun w => (r, w).

Definition str_nat (n : nat) : string := NilZero.string_of_uint (Nat.to_uint n).

(** [for index, x in enumerate(l, start): f index x] *)
Fixpoint for_each {A} (f : nat -> A -> M unit) (start : nat) (l : list A) : M unit :=
  match l with
  | [] => ret tt
  | x :: l' => f start x ;; for_each f (S start) l'
  end.

Definition In_b (x : string) (l : list string) : bool := existsb (String.eqb x) l.

(** [_download_media], lines 47-70.  The call of [_download_file_async] at
    line 68 is a comment in the source: it is not part of the function. *)
Definition _download_media (url : option string) (username media_type output : string)
  : M unit :=
  match url with
  | None => raise (mkExn AssertionError "Stopped, no URL to download.")
  | Some url =>
      here <- getcwd ;;
      let output_folder :=
        PosixPath.join (PosixPath.realpath here output) [username; media_type] in
      let filename := PosixPath.join output_folder [MD5.hexdigest url] in
      present <- Os.exists_ output_folder ;;
      go_on <- (if negb present then
                  try_except (Os.makedirs output_folder ;; ret true)
                    [([PermissionError],
                      fun _ => emit (Log 63 WARNING
                                 ("Directory output: " ++ output_folder
                                  ++ " is not writeable!")%string) ;;
                               ret false)]
                else ret true) ;;
      if go_on : bool then
        found <- Os.exists_ filename ;;
        if negb found then
          emit (Print 67 ("[green] " ++ filename ++ " [green] file exists!")%string)
        else
          emit (Print 70 ("[green] Skipping.. [blue]" ++ filename
                          ++ " [green] file exists!")%string)
      else ret tt
  end.

(** What [session.get] answers: the two headers the function reads, the
    chunks of the body, and the exception that ends the stream if any.
    [content_length] is [int(headers.get('content-length', 0))]. *)
Record response := mkResponse {
  content_type : option string;
  content_length : Z;
  chunks : list string;
  body_error : option exn
}.

Definition network := string -> result response.

Fixpoint write_chunks (filename : string) (cs : list string) : M unit :=
  match cs with
  | [] => ret tt
  | content :: cs' =>
      Os.write filename content ;;
      emit (Progress 101 (String.length content)) ;;
      write_chunks filename cs'
  end.

(** [_download_file_async], lines 72-107. *)
Definition _download_file_async (net : network) (url filename : string) : M unit :=
  try_except
    (emit (HttpGet 77 url) ;;
     response <- lift (net url) ;;
     match content_type response with
     | None => raise (mkExn ValueError ("Cannot get mimetype of content: " ++ url)%string)
     | Some extension =>
         if (extension =? "")%string then
           raise (mkExn ValueError ("Cannot get mimetype of content: " ++ url)%string)
         else
           let filename :=
             (filename ++ "." ++ last (PosixPath.split extension) "")%string in
           Os.open_wb filename ;;
           write_chunks filename (chunks response) ;;
           match body_error response with
           | Some e => raise e
           | None => ret tt
           end ;;
           emit (Print 104 ("[green] Completed.. saved as: [blue]" ++ filename)%string)
     end)
    [([TimeoutError], fun _ => emit (Print 107 "[red]Download timed out."))].

Definition dict := list (string * Z).

(** [d[k] += v] *)
Definition dict_add (d : dict) (k : string) (v : Z) : result dict :=
  match Os.assoc k d with
  | Some old => Ok (Os.replace k (old + v)%Z d)
  | None => Raise (mkExn KeyError ("'" ++ k ++ "'")%string)
  end.

(** The inner loop of [calculate_total_size], lines 122-126. *)
Fixpoint add_files (media_type : string) (files : list (string * node)) (total_size : dict)
  : result dict :=
  match files with
  | [] => Ok total_size
  | (_, filename) :: files' =>
      let file_size := Os.st_size filename in
      match dict_add total_size media_type file_size with
      | Raise e => Raise e
      | Ok d1 =>
          match dict_add d1 "total" file_size with
          | Raise e => Raise e
          | Ok d2 => add_files media_type files' d2
          end
      end
  end.

(** The outer loop, lines 121-126; [iterdir] of a file raises. *)
Fixpoint scan (globs : list (string * node)) (total_size : dict) : result dict :=
  match globs with
  | [] => Ok total_size
  | (name, glob) :: globs' =>
      match glob with
      | File _ => Raise (mkExn NotADirectoryError "Not a directory")
      | Dir _ files =>
          match add_files name files total_size with
          | Raise e => Raise e
          | Ok d => scan globs' d
          end
      end
  end.

(** [PosixPath(fullpath).glob("*")]: nothing unless [fullpath] is a directory. *)
Definition glob_star (w : world) (fullpath : string) : list (string * node) :=
  match Os.stat w fullpath with
  | Some (Dir _ es) => es
  | _ => []
  end.

(** [calculate_total_size], lines 109-128. *)
Definition calculate_total_size (w : world) (username : string) : result dict :=
  let total_size := [("total", 0%Z); ("images", 0%Z); ("videos", 0%Z); ("thumbnails", 0%Z)] in
  let fullpath := PosixPath.realpath (cwd w) username in
  scan (glob_star w fullpath) total_size.

(** [calculate_result_and_show_table], lines 142-147. *)
Definition calculate_result_and_show_table (username : string) : M unit :=
  fun w => match calculate_total_size w username with
           | Raise e => (Raise e, w)
           | Ok total_size =>
               emit (ShowTable 147 ("Total Size for " ++ username)%string
                       (map (fun kv => (fst kv, CInt (snd kv))) total_size)) w
           end.

(** The records [lib.Picuki] hands to [_main]. *)
Record video := mkVideo {
  v_url : option string;         (* vids.get('url') *)
  v_thumbnail : option string    (* vids.get('thumbnail') *)
}.

Record media_payload := mkMedia {
  m_images : list (option string);   (* _media.get('images'), [[]] when absent *)
  m_videos : list video              (* _media.get('videos'), [[]] when absent *)
}.

Record content := mkContent {
  c_info : table;                (* the record without its 'media' key *)
  c_media : media_payload
}.

(** [lib.Picuki.Picuki]: the answers of the remote site, one per call.
    A falsy profile or content is [None]; [get_media_id] gives the value of
    [module.media_id] after the call. *)
Record Picuki := mkPicuki {
  clear_username : option string -> string;
  get_profile : string -> result (option (string * table));
  get_media_id : string -> result (list string);
  get_media_content : string -> result (option content)
}.

Definition call {A} (line : nat) (method arg : string) (r : result A) : M A :=
  emit (Scrape line method arg) ;; lift r.

(** [vars(args)] *)
Record args := mkArgs {
  arg_username : option string;
  arg_images : bool;
  arg_videos : bool;
  arg_thumbnails : bool;
  arg_all : bool;
  arg_verbose : bool
}.

Definition kwargs_get (kw : args) (key : string) : bool :=
  if (key =? "images")%string then arg_images kw
  else if (key =? "videos")%string then arg_videos kw
  else if (key =? "thumbnails")%string then arg_thumbnails kw
  else false.

(** Lines 158-161. *)
Definition selection (kw : args) : list string :=
  let selected := ["images"; "videos"; "thumbnails"] in
  if negb (arg_all kw) then filter (kwargs_get kw) selected else selected.

(** ['[' + ', '.join(repr(x)) + ']'] *)
Definition repr_list (l : list string) : string :=
  ("[" ++ String.concat ", " (map (fun x => "'" ++ x ++ "'") l) ++ "]")%string.

(** The [try] block of the loop over the media, lines 184-231. *)
Definition item_body (module : Picuki) (username : string) (selected : list string)
  (media : string) : M unit :=
  content <- call 184 "get_media_content" media (get_media_content module media) ;;
  match content with
  | Some content =>
      let _media := c_media content in
      emit (ShowTable 187 "information" (c_info content)) ;;
      (if In_b "images" selected then
         let images := m_images _media in
         match images with
         | _ :: _ =>
             emit (Log 192 INFO
                     ("Total images collected: " ++ str_nat (List.length images))%string) ;;
             for_each (fun img_index img =>
               emit (Log 194 INFO
                       ("Downloading images (" ++ str_nat img_index ++ " of "
                        ++ str_nat (List.length images) ++ ")")%string) ;;
               _download_media img username "images" "images") 1 images
         | [] => emit (Log 202 WARNING "There are no images to download!")
         end
       else ret tt) ;;
      (if In_b "videos" selected || In_b "thumbnails" selected then
         let videos := m_videos _media in
         match videos with
         | _ :: _ =>
             emit (Log 207 INFO
                     ("Total videos/thumbnails Collected: "
                      ++ str_nat (List.length videos))%string) ;;
             for_each (fun vid_index vids =>
               (if In_b "thumbnails" selected then
                  emit (Log 210 INFO
                          ("Downloading thumbnails (" ++ str_nat vid_index ++ " of "
                           ++ str_nat (List.length videos) ++ ")")%string) ;;
                  _download_media (v_thumbnail vids) username "thumbnails" "thumbnails"
                else ret tt) ;;
               (if In_b "videos" selected then
                  emit (Log 219 INFO
                          ("Downloading videos (" ++ str_nat vid_index ++ " of "
                           ++ str_nat (List.length videos) ++ ")")%string) ;;
                  _download_media (v_url vids) username "videos" "videos"
                else ret tt)) 1 videos
         | [] => emit (Log 227 WARNING "There are no videos or thumbnails to download..")
         end
       else ret tt) ;;
      emit (Sleep 229 1)
  | None => emit (Log 231 WARNING ("Cannot get content from media ID: " ++ media)%string)
  end.

(** The two [except] clauses of the loop, lines 232-239. *)
Definition item_handlers (media : string) : list (list cls * (exn -> M unit)) :=
  [([ReadTimeout; CancelledError; SSLWantReadError],
    fun e => emit (Log 233 WARNING
                     ("Exception: " ++ exn_str e ++ ", in media ID: " ++ media)%string) ;;
             emit (Sleep 234 1));
   ([CancelledError; SSLWantReadError],
    fun e => emit (Log 237 WARNING
                     ("Exception: " ++ exn_str e ++ ", in media ID: " ++ media)%string) ;;
             emit (Sleep 238 1))].

(** Line 182. *)
Definition announce (total index : nat) (media : string) : M unit :=
  emit (Log 182 INFO ("Getting content from: " ++ media ++ " [" ++ str_nat index
                      ++ " of " ++ str_nat total ++ "]")%string).

(** One iteration of the loop, lines 181-239. *)
Definition item (module : Picuki) (username : string) (selected : list string)
  (total : nat) (index : nat) (media : string) : M unit :=
  announce total index media ;;
  try_except (item_body module username selected media) (item_handlers media).

(** The rest of [_main] once the profile is known, lines 172-241. *)
Definition download_phase (module : Picuki) (username : string) (selected : list string)
  (page : string) : M unit :=
  media_id <- call 172 "get_media_id" page (get_media_id module page) ;;
  match media_id with
  | [] =>
      (* line 175: [profile] is the pair unpacked at line 169, and a
         tuple has no attribute [get] *)
      raise (mkExn AttributeError "'tuple' object has no attribute 'get'")
  | _ :: _ =>
      emit (Log 178 INFO
              ("Total Media Collected: " ++ str_nat (List.length media_id))%string) ;;
      emit (Log 179 INFO
              ("Selected media: " ++ repr_list selected ++ ", starting download..")%string) ;;
      for_each (item module username selected (List.length media_id)) 1 media_id ;;
      calculate_result_and_show_table username
  end.

(** [_main], lines 150-241. *)
Definition _main (module : Picuki) (kwargs : args) : M unit :=
  (if arg_verbose kwargs then emit (SetLevelDebug 154) else ret tt) ;;
  let username := clear_username module (arg_username kwargs) in
  let selected := selection kwargs in
  profile <- call 163 "get_profile" username (get_profile module username) ;;
  match profile with
  | None =>
      emit (Log 166 WARNING
              ("Cannot find user: @" ++ username ++ ", check the username")%string)
  | Some (page, result) =>
      emit (ShowTable 170 "information" result) ;;
      download_phase module username selected page
  end.

Definition truthy (s : option string) : bool :=
  match s with
  | Some s => negb (s =? "")%string
  | None => false
  end.

(** The [except] clause of the script, lines 261-262. *)
Definition cli_handlers : list (list cls * (exn -> M unit)) :=
  [([CancelledError; SSLWantReadError],
    fun e => emit (Log 262 WARNING ("Exception: " ++ exn_str e)%string))].

(** The script, lines 258-264, after [parse_args]. *)
Definition cli (module : Picuki) (a : args) : M unit :=
  if truthy (arg_username a)
     && (arg_images a || arg_videos a || arg_thumbnails a || arg_all a || arg_verbose a)
  then try_except (_main module a) cli_handlers
  else emit (PrintHelp 264).

(** ** Vocabulary of the properties *)

Definition is_http (ev : event) : bool :=
  match ev with
  | HttpGet _ _ => true
  | _ => false
  end.

(** The line of [main.py] an event comes from. *)
Definition line_of (ev : event) : nat :=
  match ev with
  | Log l _ _ | Print l _ | ShowTable l _ _ | Sleep l _ | HttpGet l _
  | Progress l _ | SetLevelDebug l | PrintHelp l | Scrape l _ _ => l
  end.

(** The regular files of two trees are the same, with the same content. *)
Definition same_files (r r' : node) : Prop :=
  forall comps d, Os.lookup r' comps = Some (File d) <-> Os.lookup r comps = Some (File d).

(** From [w] to [w']: the working directory and the regular files are
    kept, and every event added satisfies [P]. *)
Definition extends (P : event -> Prop) (w w' : world) : Prop :=
  cwd w' = cwd w /\ same_files (root w) (root w') /\
  exists evs, trace w' = trace w ++ evs /\ Forall P evs.

Definition keeps (P : event -> Prop) {A} (m : M A) : Prop :=
  forall w, extends P w (snd (m w)).

Definition no_fetch (ev : event) : Prop := is_http ev = false.

Definition not_second_except (ev : event) : Prop := line_of ev <> 237 /\ line_of ev <> 238.

Definition not_help (ev : event) : Prop := line_of ev <> 264.

(** Neither a fetch, nor an event of the second [except] clause, nor the help. *)
Definition ordinary (ev : event) : Prop :=
  no_fetch ev /\ not_second_except ev /\ not_help ev.

Definition is_print (ev : event) : bool :=
  match ev with
  | Print _ _ => true
  | _ => false
  end.

(** The classes of the two [except] clauses of the loop, lines 232 and 236. *)
Definition first_except : list cls := [ReadTimeout; CancelledError; SSLWantReadError].
Definition second_except : list cls := [CancelledError; SSLWantReadError].


(** The folder and the path [_download_media] computes at lines 53-57. *)
Definition output_folder_of (w : world) (username media_type output : string) : string :=
  PosixPath.join (PosixPath.realpath (cwd w) output) [username; media_type].

Definition filename_of (w : world) (url username media_type output : string) : string :=
  PosixPath.join (output_folder_of w username media_type output) [MD5.hexdigest url].

(** [s] contains no slash. *)
Fixpoint no_sep (s : string) : bool :=
  match s with
  | EmptyString => true
  | String c r => negb (PosixPath.is_sep c) && no_sep r
  end.

(** The content of the regular file at [p], if there is one. *)
Definition read_file (w : world) (p : string) : option string :=
  match Os.stat w p with
  | Some (File d) => Some d
  | _ => None
  end.

(** The chunks of a body, one after the other. *)
Definition body_of (cs : list string) : string := fold_right String.append "" cs.

(** The name [_download_file_async] saves a response of subtype [subtype] under. *)
Definition saved_as (filename subtype : string) : string :=
  (filename ++ "." ++ subtype)%string.

Definition dict_get (d : dict) (k : string) : Z :=
  match Os.assoc k d with
  | Some v => v
  | None => 0%Z
  end.

Definition is_dir (n : node) : bool :=
  match n with
  | Dir _ _ => true
  | File _ => false
  end.

Definition is_empty_dir (n : node) : bool :=
  match n with
  | Dir _ [] => true
  | _ => false
  end.

Definition media_keys : list string := ["images"; "videos"; "thumbnails"].
Definition all_keys : list string := "total" :: media_keys.

(** The dictionary [total_size] with its four keys. *)
Definition sizes (t i v th : Z) : dict :=
  [("total", t); ("images", i); ("videos", v); ("thumbnails", th)].

(** The entries [calculate_total_size] scans for [username]. *)
Definition top_level (w : world) (username : string) : list (string * node) :=
  glob_star w (PosixPath.realpath (cwd w) username).

(** ** A small site and a small disk, for the examples *)

Definition home : world :=
  mkWorld (Dir true [("home", Dir true [("u", Dir true [])])]) "/home/u" [].

Definition p1_jpg : string := "https://cdn.example/p1.jpg".
Definition v1_mp4 : string := "https://cdn.example/v1.mp4".
Definition t1_jpg : string := "https://cdn.example/t1.jpg".

(** The profile [alice] with two posts: [p1] holds one image, [p2] one video. *)
Definition site : Picuki :=
  mkPicuki
    (fun u => match u with Some s => s | None => "" end)
    (fun u => if (u =? "alice")%string
              then Ok (Some ("page0", [("username", CStr "alice")]))
              else Ok None)
    (fun _ => Ok ["p1"; "p2"])
    (fun m => if (m =? "p1")%string
              then Ok (Some (mkContent [] (mkMedia [Some p1_jpg] [])))
              else Ok (Some (mkContent [] (mkMedia [] [mkVideo (Some v1_mp4) (Some t1_jpg)])))).

(** The same site when the connection is reset while [p1] is resolved. *)
Definition site_reset : Picuki :=
  mkPicuki (clear_username site) (get_profile site) (get_media_id site)
    (fun m => if (m =? "p1")%string
              then Raise (mkExn ConnectionResetError "Connection reset by peer")
              else get_media_content site m).

(** The same site when the read of [p1] times out. *)
Definition site_timeout : Picuki :=
  mkPicuki (clear_username site) (get_profile site) (get_media_id site)
    (fun m => if (m =? "p1")%string
              then Raise (mkExn ReadTimeout "The read operation timed out")
              else get_media_content site m).

(** A disk on which the image of [p1] is stored under the name a download
    gives it: the hash of the URL, a dot, the subtype. *)
Definition home_with_image : world :=
  mkWorld
    (Dir true
       [("home", Dir true
           [("u", Dir true
               [("images", Dir true
                   [("alice", Dir true
                       [("images", Dir true
                           [("2d31c4d947459b15bb41cb69944e2073.jpeg", File "JFIF!")])])])])])])
    "/home/u" [].

(** Disks for the size summary: [alice] holds a directory [total] with
    one file, or an empty directory [misc], or a well-formed tree. *)
Definition home_total_dir : world :=
  mkWorld
    (Dir true [("home", Dir true [("u", Dir true
       [("alice", Dir true [("total", Dir true [("x", File "abcd")])])])])])
    "/home/u" [].

Definition home_empty_misc : world :=
  mkWorld
    (Dir true [("home", Dir true [("u", Dir true
       [("alice", Dir true [("misc", Dir true [])])])])])
    "/home/u" [].

Definition home_misc : world :=
  mkWorld
    (Dir true [("home", Dir true [("u", Dir true
       [("alice", Dir true [("misc", Dir true [("x", File "abcd")])])])])])
    "/home/u" [].

Definition home_stray_file : world :=
  mkWorld
    (Dir true [("home", Dir true [("u", Dir true
       [("alice", Dir true [("notes.txt", File "abcd")])])])])
    "/home/u" [].

Definition home_media : world :=
  mkWorld
    (Dir true [("home", Dir true [("u", Dir true
       [("alice", Dir true
          [("images", Dir true [("a.jpeg", File "abcd"); ("b.jpeg", File "ab")]);
           ("videos", Dir true [("c.mp4", File "abcdefgh")])])])])])
    "/home/u" [].

Definition jpeg_response : response :=
  mkResponse (Some "image/jpeg") 5 ["JF"; "IF!"] None.

Definition no_type_response : response :=
  mkResponse None 5 ["JF"; "IF!"] None.

Definition home_with_folder : world :=
  mkWorld
    (Dir true [("home", Dir true [("u", Dir true [("dl", Dir true [])])])])
    "/home/u" [].

Definition only_images : args := mkArgs (Some "alice") true false false false false.
Definition everything : args := mkArgs (Some "alice") false false false true false.
Definition only_verbose : args := mkArgs (Some "alice") false false false false true.
Definition only_username : args := mkArgs (Some "alice") false false false false false.

Definition set_verbose (b : bool) (a : args) : args :=
  mkArgs (arg_username a) (arg_images a) (arg_videos a) (arg_thumbnails a) (arg_all a) b.

(** The world with an empty trace: what a second run of the program starts from. *)
Definition fresh_run (w : world) : world := mkWorld (root w) (cwd w) [].

(** ** Further vocabulary *)

(** A name that stands for itself in a path: not empty, no slash, neither
    [.] nor [..]. *)
Definition plain_name (s : string) : bool :=
  no_sep s && negb (s =? "")%string && negb (s =? ".")%string && negb (s =? "..")%string.

Definition is_hex (c : ascii) : bool :=
  existsb (Ascii.eqb c) (list_ascii_of_string "0123456789abcdef").

Fixpoint all_hex (s : string) : bool :=
  match s with
  | EmptyString => true
  | String c r => is_hex c && all_hex r
  end.

(** A computation respects a relation between the world before and the
    world after. *)
Definition respects (R : world -> world -> Prop) {A} (m : M A) : Prop :=
  forall w, R w (snd (m w)).

(** Nothing is lost from [r] to [r']: what was there is there, a
    directory still a directory, a file still a file. *)
Definition grows (r r' : node) : Prop :=
  forall comps n, Os.lookup r comps = Some n ->
                  exists n', Os.lookup r' comps = Some n' /\ is_dir n' = is_dir n.

(** The events added from [w] to [w'] all satisfy [F]. *)
Definition adds (F : event -> Prop) (w w' : world) : Prop :=
  exists evs, trace w' = trace w ++ evs /\ Forall F evs.

(** The lines of [main.py] each part of the program reports from. *)
Definition download_lines : list nat := [63; 67; 70].
Definition body_lines : list nat := [184; 187; 192; 194; 202; 207; 210; 219; 227; 229; 231].
Definition handler_lines : list nat := [233; 234].
Definition loop_lines : list nat := 182 :: handler_lines.
Definition main_lines : list nat := [147; 154; 163; 166; 170; 172; 178; 179].

(** The message of line 182 for the item [media], number [index] of [total]. *)
Definition announcement (total : nat) (im : nat * string) : event :=
  Log 182 INFO ("Getting content from: " ++ snd im ++ " [" ++ str_nat (fst im)
                ++ " of " ++ str_nat total ++ "]")%string.

Definition is_announcement (ev : event) : bool := Nat.eqb (line_of ev) 182.

(** The items of [ids] with their numbers, counted from [start]. *)
Definition numbered (start : nat) (ids : list string) : list (nat * string) :=
  combine (seq start (List.length ids)) ids.

(** From [w] to [w'], in a working directory [/c1/../cn]: the working
    directory is kept and so is all there is at [/c1/../cn/name]. *)
Definition leaves_alone (cs : list string) (name : string) (w w' : world) : Prop :=
  cwd w = PosixPath.render cs ->
  cwd w' = cwd w
  /\ Os.lookup (root w') (cs ++ [name]) = Os.lookup (root w) (cs ++ [name]).

(** The message of lines 66-70, on the disk [r]. *)
Definition report (r : node) (here filename : string) : event :=
  match Os.stat (mkWorld r here []) filename with
  | Some _ => Print 70 ("[green] Skipping.. [blue]" ++ filename ++ " [green] file exists!")%string
  | None => Print 67 ("[green] " ++ filename ++ " [green] file exists!")%string
  end.

(** A post with a caption and no media, and a post whose video has no
    thumbnail, for the examples. *)
Definition caption_only : content :=
  mkContent [("caption", CStr "hello")] (mkMedia [] []).

Definition no_thumbnail : content :=
  mkContent [] (mkMedia [] [mkVideo (Some v1_mp4) None]).

Definition site_of (c : content) : Picuki :=
  mkPicuki (clear_username site) (get_profile site) (get_media_id site)
    (fun _ => Ok (Some c)).

(** The same site when the profile has no post, and when it is not found. *)
Definition site_no_post : Picuki :=
  mkPicuki (clear_username site) (get_profile site) (fun _ => Ok [])
    (get_media_content site).

Definition site_cancelled : Picuki :=
  mkPicuki (clear_username site)
    (fun _ => Raise (mkExn CancelledError "")) (get_media_id site)
    (get_media_content site).

(** The messages of lines 202 and 227, when the selection asks for them. *)
Definition nothing_to_download (selected : list string) : list event :=
  (if In_b "images" selected
   then [Log 202 WARNING "There are no images to download!"] else [])
  ++ (if In_b "videos" selected || In_b "thumbnails" selected
      then [Log 227 WARNING "There are no videos or thumbnails to download.."] else []).

(** What line 154 adds to the trace. *)
Definition level_events (kwargs : args) : list event :=
  if arg_verbose kwargs then [SetLevelDebug 154] else [].

(** The gate of line 258. *)
Definition gate (a : args) : bool :=
  truthy (arg_username a)
  && (arg_images a || arg_videos a || arg_thumbnails a || arg_all a || arg_verbose a).

(** The path [_download_file_async] writes to, when the answer names a
    content type (line 82). *)
Definition target_of (net : network) (url filename : string) : option string :=
  match net url with
  | Ok response =>
      match content_type response with
      | Some extension =>
          if (extension =? "")%string then None
          else Some (filename ++ "." ++ last (PosixPath.split extension) "")%string
      | None => None
      end
  | Raise _ => None
  end.

(** What follows the request in [_download_file_async], lines 78-104. *)
Definition after_request (net : network) (url filename : string) : M unit :=
  response <- lift (net url) ;;
  match content_type response with
  | None => raise (mkExn ValueError ("Cannot get mimetype of content: " ++ url)%string)
  | Some extension =>
      if (extension =? "")%string then
        raise (mkExn ValueError ("Cannot get mimetype of content: " ++ url)%string)
      else
        let filename :=
          (filename ++ "." ++ last (PosixPath.split extension) "")%string in
        Os.open_wb filename ;;
        write_chunks filename (chunks response) ;;
        match body_error response with
        | Some e => raise e
        | None => ret tt
        end ;;
        emit (Print 104 ("[green] Completed.. saved as: [blue]" ++ filename)%string)
  end.

(** The [except] clause of [_download_file_async], lines 105-107. *)
Definition timeout_handlers : list (list cls * (exn -> M unit)) :=
  [([TimeoutError], fun _ => emit (Print 107 "[red]Download timed out."))].

(** From [w] to [w'], in the working directory [here]: the working
    directory is kept, and so is every regular file but the one at [target]. *)
Definition changes_only (here : string) (target : option (list string)) (w w' : world)
  : Prop :=
  cwd w = here ->
  cwd w' = here
  /\ forall p d, Some p <> target ->
                 (Os.lookup (root w') p = Some (File d) <-> Os.lookup (root w) p = Some (File d)).

(** The bytes a progress event advances by. *)
Definition advance_of (ev : event) : nat :=
  match ev with
  | Progress _ n => n
  | _ => 0
  end.

Definition progress_of (cs : list string) : list event :=
  map (fun content => Progress 101 (String.length content)) cs.

(** The sizes of the entries of a directory, added up; and those of the
    top-level directories called [name]. *)
Definition dir_bytes (files : list (string * node)) : Z :=
  fold_right (fun f acc => (Os.st_size (snd f) + acc)%Z) 0%Z files.

Fixpoint bytes_under (name : string) (tops : list (string * node)) : Z :=
  match tops with
  | [] => 0%Z
  | (n, g) :: rest =>
      ((if (n =? name)%string
        then match g with
             | Dir _ files => dir_bytes files
             | File _ => 0
             end
        else 0) + bytes_under name rest)%Z
  end.

(** ** [re.search] for the pattern of line 37

    A backtracking matcher, first alternative first as in [re]: a greedy
    quantifier tries one more character before it tries the rest, a lazy
    one tries the rest first.  [Mark] records where a group starts and
    ends. *)

Inductive atom :=
| AChar (c : ascii)     (* the character itself *)
| ANot (c : ascii)      (* [^c] *)
| AAny.                 (* a dot: anything but a newline *)

Inductive piece :=
| One (a : atom)
| Opt (a : atom)        (* a? *)
| Plus (a : atom)       (* a+ *)
| LazyStar (a : atom)   (* a*? *)
| Mark.

Definition newline : ascii := ascii_of_nat 10.
Definition dquote : ascii := ascii_of_nat 34.

Definition accepts (a : atom) (c : ascii) : bool :=
  match a with
  | AChar x => Ascii.eqb c x
  | ANot x => negb (Ascii.eqb c x)
  | AAny => negb (Ascii.eqb c newline)
  end.

Fixpoint greedy_star {R} (a : atom) (k : string -> option R) (s : string) : option R :=
  match s with
  | String c s' =>
      if accepts a c then
        match greedy_star a k s' with
        | Some r => Some r
        | None => k s
        end
      else k s
  | EmptyString => k s
  end.

Fixpoint lazy_star {R} (a : atom) (k : string -> option R) (s : string) : option R :=
  match k s with
  | Some r => Some r
  | None =>
      match s with
      | String c s' => if accepts a c then lazy_star a k s' else None
      | EmptyString => None
      end
  end.

(** [exec ps k marks s]: match [ps] at the start of [s], then go on with
    [k]; [marks] are the rests of the string at the marks passed, last
    first. *)
Fixpoint exec {R} (ps : list piece) (k : list string -> string -> option R)
  (marks : list string) (s : string) : option R :=
  match ps with
  | [] => k marks s
  | One a :: ps' =>
      match s with
      | String c s' => if accepts a c then exec ps' k marks s' else None
      | EmptyString => None
      end
  | Opt a :: ps' =>
      match s with
      | String c s' =>
          if accepts a c then
            match exec ps' k marks s' with
            | Some r => Some r
            | None => exec ps' k marks s
            end
          else exec ps' k marks s
      | EmptyString => exec ps' k marks s
      end
  | Plus a :: ps' =>
      match s with
      | String c s' => if accepts a c then greedy_star a (exec ps' k marks) s' else None
      | EmptyString => None
      end
  | LazyStar a :: ps' => lazy_star a (exec ps' k marks) s
  | Mark :: ps' => exec ps' k (s :: marks) s
  end.

Definition literal (s : string) : list piece :=
  map (fun c => One (AChar c)) (list_ascii_of_string s).

(** The pattern of line 37: [http], an optional [s], [://], one or more
    characters that are not [<], [/q/], then the group [filename] (a
    character that is not a double quote, then as few characters as
    possible), then two bars. *)
Definition before_name : list piece :=
  literal "http" ++ [Opt (AChar "s")] ++ literal "://" ++ [Plus (ANot "<")] ++ literal "/q/".
Definition name_group : list piece := [One (ANot dquote); LazyStar AAny].
Definition after_name : list piece := literal "||".

Definition url_pattern : list piece :=
  before_name ++ [Mark] ++ name_group ++ [Mark] ++ after_name.

(** The text between the two marks. *)
Definition between (marks : list string) : option string :=
  match marks with
  | [finish; start] =>
      Some (substring 0 (String.length start - String.length finish) start)
  | _ => None
  end.

(** [re.search(pattern, url)] and the group [filename] of the match; the
    pattern is anchored, so the only start tried is the start of [url]. *)
Definition search_filename (url : string) : option string :=
  exec url_pattern (fun marks _ => between marks) [] url.

(** [get_valid_filename], lines 33-45; [shuffle] is the permutation
    [random.shuffle] draws.  The characters of a string are its bytes: the
    slice of line 38 is modelled for URLs written in ASCII. *)
Definition get_valid_filename (shuffle : list ascii -> list ascii) (url : string)
  : M string :=
  match search_filename url with
  | Some filename =>
      let basename := list_ascii_of_string (substring 0 25 filename) in
      let basename := shuffle basename in
      let basename := string_of_list_ascii basename in
      ret basename
  | None =>
      emit (Log 42 WARNING ("Cannot find spesific name from url: " ++ url)%string) ;;
      raise (mkExn ValueError "invalid url")
  end.

Fixpoint all_accept (a : atom) (s : string) : bool :=
  match s with
  | EmptyString => true
  | String c r => accepts a c && all_accept a r
  end.

Definition is_mark (p : piece) : bool :=
  match p with
  | Mark => true
  | _ => false
  end.

(** [Takes ps s]: the pieces [ps], one after the other, can take exactly [s]. *)
Inductive Takes : list piece -> string -> Prop :=
| Takes_nil : Takes [] ""
| Takes_one a c ps s :
    accepts a c = true -> Takes ps s -> Takes (One a :: ps) (String c s)
| Takes_opt_skip a ps s : Takes ps s -> Takes (Opt a :: ps) s
| Takes_opt a c ps s :
    accepts a c = true -> Takes ps s -> Takes (Opt a :: ps) (String c s)
| Takes_plus a c m ps s :
    accepts a c = true -> all_accept a m = true -> Takes ps s ->
    Takes (Plus a :: ps) (String c (m ++ s))
| Takes_lazy a m ps s :
    all_accept a m = true -> Takes ps s -> Takes (LazyStar a :: ps) (m ++ s)
| Takes_mark ps s : Takes ps s -> Takes (Mark :: ps) s.

(** [url] is [http] or [https], [://], a host part without [<], [/q/],
    the name, two bars and a rest; the name starts with a character that is
    not a double quote and holds no newline after it. *)
Definition url_form (url name : string) : Prop :=
  exists (s host post : string) (c : ascii) (t : string),
    (s = "" \/ s = "s")
    /\ host <> "" /\ all_accept (ANot "<") host = true
    /\ name = String c t /\ c <> dquote /\ all_accept AAny t = true
    /\ url = ("http" ++ s ++ "://" ++ host ++ "/q/" ++ name ++ "||" ++ post)%string.

Example md5_empty : MD5.hexdigest "" = "d41d8cd98f00b204e9800998ecf8427e".
Proof. vm_compute. reflexivity. Qed.

Example md5_abc : MD5.hexdigest "abc" = "900150983cd24fb0d6963f7d28e17f72".
Proof. vm_compute. reflexivity. Qed.

Example md5_two_blocks :
  MD5.hexdigest "aaaaaaaaaaaaaaaaaaaaaaaaaaaaaaaaaaaaaaaaaaaaaaaaaaaaaaaaaaaaaaaaaaaaaa"
  = "0f5c6c4e740bfcc08c3c26ccb2673d46".
Proof. vm_compute. reflexivity. Qed.

(** ** Association lists and trees *)

Section Assoc.
Context {A : Type}.

Lemma assoc_replace_same (k : string) (v : A) (l : list (string * A)) :
  Os.assoc k l <> None -> Os.assoc k (Os.replace k v l) = Some v.
Proof.
  induction l as [|[k' v'] l IH]; simpl; [congruence|].
  destruct (k =? k')%string eqn:E; simpl.
  - now rewrite String.eqb_refl.
  - rewrite E. exact IH.
Qed.

Lemma assoc_replace_other (k k0 : string) (v : A) (l : list (string * A)) :
  k0 <> k -> Os.assoc k0 (Os.replace k v l) = Os.assoc k0 l.
Proof.
  intros Hne. induction l as [|[k' v'] l IH]; simpl; [reflexivity|].
  destruct (k =? k')%string eqn:E; simpl.
  - apply String.eqb_eq in E. subst k'.
    destruct (k0 =? k)%string eqn:E0; [|reflexivity].
    apply String.eqb_eq in E0. contradiction.
  - now rewrite IH.
Qed.

Lemma assoc_app (k : string) (l l' : list (string * A)) :
  Os.assoc k (l ++ l') =
  match Os.assoc k l with
  | Some v => Some v
  | None => Os.assoc k l'
  end.
Proof.
  induction l as [|[k' v'] l IH]; simpl; [reflexivity|].
  now destruct (k =? k')%string.
Qed.
End Assoc.

Lemma lookup_file_nil (wr : bool) (comps : list string) (d : string) :
  Os.lookup (Dir wr []) comps <> Some (File d).
Proof. destruct comps; simpl; congruence. Qed.

(** [mkdirs] adds directories only. *)
Lemma mkdirs_same_files (comps : list string) :
  forall n n', Os.mkdirs n comps = Ok n' -> same_files n n'.
Proof.
  induction comps as [|c rest IH]; intros n n' H; simpl in H.
  - destruct n; inversion H; subst. now intros p d.
  - destruct n as [|wr es]; [discriminate|].
    destruct (Os.assoc c es) as [sub|] eqn:Ec.
    + destruct (Os.mkdirs sub rest) as [sub'|] eqn:Em; inversion H; subst; clear H.
      specialize (IH _ _ Em).
      intros [|c0 p] d; simpl; [split; discriminate|].
      destruct (String.eqb_spec c0 c) as [->|Hne].
      * rewrite assoc_replace_same, Ec by congruence. apply IH.
      * now rewrite assoc_replace_other.
    + destruct wr; [|discriminate].
      destruct (Os.mkdirs (Dir true []) rest) as [sub'|] eqn:Em; inversion H; subst; clear H.
      specialize (IH _ _ Em).
      intros [|c0 p] d; simpl; [split; discriminate|].
      rewrite assoc_app. simpl.
      destruct (Os.assoc c0 es) as [x|] eqn:E0; [reflexivity|].
      destruct (c0 =? c)%string; [|reflexivity].
      split; [|discriminate].
      intros Hl. apply IH in Hl. now apply lookup_file_nil in Hl.
Qed.

(** ** Computations that keep the files *)

Section Keeps.
Variable P : event -> Prop.

Lemma extends_refl (w : world) : extends P w w.
Proof.
  repeat split; try tauto.
  exists []. now rewrite app_nil_r.
Qed.

Lemma extends_trans (w1 w2 w3 : world) :
  extends P w1 w2 -> extends P w2 w3 -> extends P w1 w3.
Proof.
  intros (Hc & Hf & evs & Ht & Hp) (Hc' & Hf' & evs' & Ht' & Hp').
  split; [congruence|]. split.
  - intros p d. rewrite (Hf' p d). apply Hf.
  - exists (evs ++ evs'). rewrite Ht', Ht, app_assoc. split; [reflexivity|].
    apply Forall_app. now split.
Qed.

Lemma keeps_ret {A} (a : A) : keeps P (ret a).
Proof. intros w. apply extends_refl. Qed.

Lemma keeps_raise {A} (e : exn) : keeps P (@raise A e).
Proof. intros w. apply extends_refl. Qed.

Lemma keeps_lift {A} (r : result A) : keeps P (lift r).
Proof. intros w. apply extends_refl. Qed.

Lemma keeps_getcwd : keeps P getcwd.
Proof. intros w. apply extends_refl. Qed.

Lemma keeps_exists (p : string) : keeps P (Os.exists_ p).
Proof. intros w. apply extends_refl. Qed.

Lemma keeps_emit (ev : event) : P ev -> keeps P (emit ev).
Proof.
  intros H w. simpl. repeat split; try tauto.
  exists [ev]. split; [reflexivity|]. now constructor.
Qed.

Lemma keeps_bind {A B} (m : M A) (f : A -> M B) :
  keeps P m -> (forall a, keeps P (f a)) -> keeps P (bind m f).
Proof.
  intros Hm Hf w. unfold bind. specialize (Hm w).
  destruct (m w) as [[a|e] w']; simpl in *; [|exact Hm].
  eapply extends_trans; [exact Hm|apply Hf].
Qed.

(** Only the handler the exception selects has to keep the files. *)
Lemma keeps_try {A} (m : M A) (clauses : list (list cls * (exn -> M A))) :
  keeps P m ->
  (forall e i cs h, select_clause (map fst clauses) e = Some i ->
                    nth_error clauses i = Some (cs, h) -> keeps P (h e)) ->
  keeps P (try_except m clauses).
Proof.
  intros Hm Hh w. unfold try_except. specialize (Hm w).
  destruct (m w) as [[a|e] w']; simpl in *; [exact Hm|].
  destruct (select_clause (map fst clauses) e) as [i|] eqn:Es; [|exact Hm].
  destruct (nth_error clauses i) as [[cs h]|] eqn:En; [|exact Hm].
  eapply extends_trans; [exact Hm|]. eapply Hh; eassumption.
Qed.

Lemma keeps_makedirs (p : string) : keeps P (Os.makedirs p).
Proof.
  intros w. unfold Os.makedirs.
  destruct (Os.mkdirs (root w) (PosixPath.components (cwd w) p)) as [r|e] eqn:E;
    simpl; [|apply extends_refl].
  repeat split; try tauto.
  - apply (mkdirs_same_files _ _ _ E).
  - apply (mkdirs_same_files _ _ _ E).
  - exists []. now rewrite app_nil_r.
Qed.

Lemma keeps_for_each {A} (f : nat -> A -> M unit) (l : list A) :
  (forall i x, keeps P (f i x)) -> forall start, keeps P (for_each f start l).
Proof.
  intros Hf. induction l as [|x l IH]; intros start; simpl.
  - apply keeps_ret.
  - apply keeps_bind; [apply Hf|]. intros _. apply IH.
Qed.

Lemma keeps_if {A} (b : bool) (m1 m2 : M A) :
  keeps P m1 -> keeps P m2 -> keeps P (if b then m1 else m2).
Proof. now destruct b. Qed.
End Keeps.

(** ** Every event of the program but [session.get] and the second
    [except] clause is ordinary *)

Lemma keeps_weaken (P Q : event -> Prop) {A} (m : M A) :
  (forall ev, P ev -> Q ev) -> keeps P m -> keeps Q m.
Proof.
  intros HPQ Hm w. destruct (Hm w) as (Hc & Hf & evs & Ht & Hp).
  repeat split; try apply Hf; try assumption.
  exists evs. split; [assumption|].
  eapply Forall_impl; [exact HPQ|exact Hp].
Qed.

Ltac ordinary_event :=
  unfold ordinary, no_fetch, not_second_except, not_help; simpl; repeat split; lia.

Ltac keeps_step :=
  first
    [ apply keeps_ret | apply keeps_raise | apply keeps_lift | apply keeps_getcwd
    | apply keeps_exists | apply keeps_makedirs
    | apply keeps_emit; ordinary_event
    | apply keeps_bind; [|intros ?]
    | apply keeps_for_each; intros ? ?
    | match goal with
      | |- keeps _ (if ?b then _ else _) => destruct b
      | |- keeps _ (match ?x with _ => _ end) => destruct x
      end ].

Lemma download_media_ordinary url username media_type output :
  keeps ordinary (_download_media url username media_type output).
Proof.
  unfold _download_media. destruct url as [url|]; [|apply keeps_raise].
  cbv zeta. apply keeps_bind; [apply keeps_getcwd|]. intros here.
  apply keeps_bind; [apply keeps_exists|]. intros present.
  apply keeps_bind.
  - destruct present; simpl; [apply keeps_ret|].
    apply keeps_try; [repeat keeps_step|].
    intros e i cs h _ Hn.
    destruct i as [|[|i]]; simpl in Hn; inversion Hn; subst.
    repeat keeps_step.
  - intros go_on. repeat keeps_step.
Qed.

Lemma isinstance_incl (e : exn) (cs cs' : list cls) :
  incl cs cs' -> isinstance e cs = true -> isinstance e cs' = true.
Proof.
  unfold isinstance. intros Hi H.
  apply existsb_exists in H. destruct H as (c & Hc & Hs).
  apply existsb_exists. exists c. split; [apply Hi, Hc|exact Hs].
Qed.

Lemma second_in_first : incl second_except first_except.
Proof. intros c [<-|[<-|[]]]; simpl; auto. Qed.

(** No exception reaches the second [except] clause of the loop. *)
Lemma second_clause_dead (media : string) (e : exn) :
  select_clause (map fst (item_handlers media)) e <> Some 1.
Proof.
  cbn [item_handlers map fst select_clause].
  fold first_except second_except.
  destruct (isinstance e first_except) eqn:E1; [discriminate|].
  destruct (isinstance e second_except) eqn:E2; [|discriminate].
  apply (isinstance_incl _ _ _ second_in_first) in E2. congruence.
Qed.

Lemma item_body_ordinary module username selected media :
  keeps ordinary (item_body module username selected media).
Proof.
  unfold item_body, call.
  apply keeps_bind; [repeat keeps_step|]. intros [content|]; [|repeat keeps_step].
  cbv zeta.
  apply keeps_bind; [repeat keeps_step|]. intros _.
  apply keeps_bind.
  - destruct (In_b "images" selected); [|apply keeps_ret].
    destruct (m_images (c_media content)); [repeat keeps_step|].
    apply keeps_bind; [repeat keeps_step|]. intros _.
    apply keeps_for_each. intros i x.
    apply keeps_bind; [repeat keeps_step|]. intros _.
    apply download_media_ordinary.
  - intros _. apply keeps_bind; [|intros _; repeat keeps_step].
    destruct (In_b "videos" selected || In_b "thumbnails" selected); [|apply keeps_ret].
    destruct (m_videos (c_media content)); [repeat keeps_step|].
    apply keeps_bind; [repeat keeps_step|]. intros _.
    apply keeps_for_each. intros i x.
    apply keeps_bind; [|intros _].
    + destruct (In_b "thumbnails" selected); [|apply keeps_ret].
      apply keeps_bind; [repeat keeps_step|]. intros _.
      apply download_media_ordinary.
    + destruct (In_b "videos" selected); [|apply keeps_ret].
      apply keeps_bind; [repeat keeps_step|]. intros _.
      apply download_media_ordinary.
Qed.

Lemma item_ordinary module username selected total index media :
  keeps ordinary (item module username selected total index media).
Proof.
  unfold item, announce. apply keeps_bind; [repeat keeps_step|]. intros _.
  apply keeps_try; [apply item_body_ordinary|].
  intros e i cs h Hs Hn.
  destruct i as [|[|i]]; simpl in Hn.
  - inversion Hn; subst. repeat keeps_step.
  - now apply second_clause_dead in Hs.
  - destruct i; discriminate.
Qed.

Lemma summary_ordinary username :
  keeps ordinary (calculate_result_and_show_table username).
Proof.
  intros w. unfold calculate_result_and_show_table.
  destruct (calculate_total_size w username); [|apply extends_refl].
  apply keeps_emit. ordinary_event.
Qed.

Lemma download_phase_ordinary module username selected page :
  keeps ordinary (download_phase module username selected page).
Proof.
  unfold download_phase, call.
  apply keeps_bind; [repeat keeps_step|]. intros [|m ms]; [apply keeps_raise|].
  apply keeps_bind; [repeat keeps_step|]. intros _.
  apply keeps_bind; [repeat keeps_step|]. intros _.
  apply keeps_bind; [|intros _; apply summary_ordinary].
  apply keeps_for_each. intros i x. apply item_ordinary.
Qed.

Lemma main_ordinary module kwargs : keeps ordinary (_main module kwargs).
Proof.
  unfold _main, call. cbv zeta.
  apply keeps_bind; [repeat keeps_step|]. intros _.
  apply keeps_bind; [repeat keeps_step|]. intros [[page result]|]; [|repeat keeps_step].
  apply keeps_bind; [repeat keeps_step|]. intros _.
  apply download_phase_ordinary.
Qed.

Lemma run_ordinary module a : keeps ordinary (try_except (_main module a) cli_handlers).
Proof.
  apply keeps_try; [apply main_ordinary|].
  intros e i cs h _ Hn.
  destruct i as [|[|i]]; simpl in Hn; inversion Hn; subst.
  repeat keeps_step.
Qed.

Lemma cli_keeps (P : event -> Prop) module a :
  (forall ev, ordinary ev -> P ev) -> P (PrintHelp 264) -> keeps P (cli module a).
Proof.
  intros HP Hh. unfold cli.
  destruct (truthy (arg_username a) && _).
  - apply (keeps_weaken ordinary); [exact HP|apply run_ordinary].
  - now apply keeps_emit.
Qed.

(** What a call of [_download_media] on a URL comes to: the folder is
    there or is created and one of the two messages is printed, or the
    creation fails. *)
Lemma download_media_outcome (u username media_type output : string) (w : world) :
  let res := _download_media (Some u) username media_type output w in
  let folder := output_folder_of w username media_type output in
  let made := Os.mkdirs (root w) (PosixPath.components (cwd w) folder) in
  (exists line msg r,
      (line = 67 \/ line = 70) /\
      (r = root w \/ made = Ok r) /\
      res = (Ok tt, mkWorld r (cwd w) (trace w ++ [Print line msg])))
  \/ (exists e, made = Raise e /\
        ((exn_class e = PermissionError /\
          exists msg, res = (Ok tt, mkWorld (root w) (cwd w) (trace w ++ [Log 63 WARNING msg])))
         \/ (exn_class e <> PermissionError /\ res = (Raise e, w)))).
Proof.
  cbv zeta.
  unfold _download_media, output_folder_of, bind, getcwd, Os.exists_, try_except, Os.makedirs.
  cbv zeta.
  set (folder := PosixPath.join _ [username; media_type]).
  set (filename := PosixPath.join folder _).
  destruct (Os.stat w folder) as [n|] eqn:Ef; cbn [negb].
  - left. unfold ret at 1.
    destruct (Os.stat w filename); cbn [negb]; unfold emit; cbn [root cwd trace];
      eexists _, _, (root w); repeat split; auto.
  - destruct (Os.mkdirs (root w) (PosixPath.components (cwd w) folder)) as [r|e] eqn:Em.
    + left. unfold ret at 1.
      match goal with |- context [Os.stat ?w' filename] => destruct (Os.stat w' filename) end;
        cbn [negb]; unfold emit; cbn [root cwd trace];
        eexists _, _, r; repeat split; auto.
    + right. exists e. split; [reflexivity|].
      cbn [map fst select_clause].
      destruct e as [c msg]. destruct c;
        try (right; split; [discriminate|reflexivity]).
      left. split; [reflexivity|]. eexists. reflexivity.
Qed.

Lemma mkdirs_raises (comps : list string) :
  forall n e, Os.mkdirs n comps = Raise e ->
    exn_class e = FileExistsError \/ exn_class e = NotADirectoryError
    \/ exn_class e = PermissionError.
Proof.
  induction comps as [|c rest IH]; intros n e H; simpl in H.
  - destruct n; inversion H; subst; simpl; auto.
  - destruct n as [|wr es]; [inversion H; subst; simpl; auto|].
    destruct (Os.assoc c es) as [sub|].
    + destruct (Os.mkdirs sub rest) eqn:Em; inversion H; subst. eapply IH, Em.
    + destruct wr; [|inversion H; subst; simpl; auto].
      destruct (Os.mkdirs (Dir true []) rest) eqn:Em; inversion H; subst. eapply IH, Em.
Qed.

(** C1 (the code at the failing input): the image of [p1] is on the disk
    as [<md5 of the URL>.jpeg] in the destination folder, and
    [_download_media] for that URL does not take the skipping branch of
    line 70: it looks for the bare hash, finds nothing, and prints the
    message of line 67, where the download was. *)
Theorem stored_image_is_not_skipped :
  MD5.hexdigest p1_jpg = "2d31c4d947459b15bb41cb69944e2073"
  /\ read_file home_with_image
       "/home/u/images/alice/images/2d31c4d947459b15bb41cb69944e2073.jpeg" = Some "JFIF!"
  /\ _download_media (Some p1_jpg) "alice" "images" "images" home_with_image
     = (Ok tt,
        mkWorld (root home_with_image) "/home/u"
          [Print 67 "[green] /home/u/images/alice/images/2d31c4d947459b15bb41cb69944e2073 [green] file exists!"]).
Proof. repeat split; vm_compute; reflexivity. Qed.

(** C2: a call of [_download_media] on a URL whose folder is there or can
    be created without a permission error fetches nothing and leaves the
    regular files as they are; when it returns, it has printed exactly one
    message, that of line 67 or that of line 70.  So does every run of
    [_main] and of the script: no fetch, no file written. *)
Theorem download_media_fetches_and_writes_nothing :
  (forall url username media_type output w,
      url <> None ->
      (forall e, Os.mkdirs (root w)
                   (PosixPath.components (cwd w)
                      (output_folder_of w username media_type output)) = Raise e ->
                 exn_class e <> PermissionError) ->
      let res := _download_media url username media_type output w in
      extends no_fetch w (snd res)
      /\ (fst res = Ok tt ->
          exists line msg, (line = 67 \/ line = 70)
                           /\ trace (snd res) = trace w ++ [Print line msg]))
  /\ (forall module kwargs w, extends no_fetch w (snd (_main module kwargs w)))
  /\ (forall module a w, extends no_fetch w (snd (cli module a w))).
Proof.
  split; [|split].
  - intros [u|] username media_type output w Hu Hperm; [clear Hu|congruence].
    cbv zeta. split.
    + apply (keeps_weaken ordinary); [now intros ev [H _]|apply download_media_ordinary].
    + destruct (download_media_outcome u username media_type output w)
        as [(line & msg & r & Hl & _ & Hres)|(e & He & [(Hc & _)|(_ & Hres)])].
      * rewrite Hres. intros _. exists line, msg. split; [exact Hl|reflexivity].
      * now apply Hperm in He.
      * rewrite Hres. discriminate.
  - intros module kwargs w.
    apply (keeps_weaken ordinary); [now intros ev [H _]|apply main_ordinary].
  - intros module a w. apply cli_keeps; [now intros ev [H _]|reflexivity].
Qed.

Lemma download_media_fetches_and_writes_nothing_witness :
  let res := _download_media (Some p1_jpg) "alice" "images" "images" home in
  extends no_fetch home (snd res)
  /\ (fst res = Ok tt ->
      exists line msg, (line = 67 \/ line = 70)
                       /\ trace (snd res) = trace home ++ [Print line msg]).
Proof.
  apply (proj1 download_media_fetches_and_writes_nothing).
  - discriminate.
  - intros e H. vm_compute in H. discriminate.
Defined.

(** C3 (the code at the failing input): the script is run twice with
    [--all] on the profile [alice]; the second run leaves the disk as the
    first left it and fetches nothing, but none of its three tasks takes
    the skipping branch: each prints the message of line 67. *)
Theorem second_run_skips_nothing :
  let w1 := snd (cli site everything home) in
  let w2 := snd (cli site everything (fresh_run w1)) in
  root w2 = root w1
  /\ filter is_http (trace w2) = []
  /\ filter is_print (trace w2)
     = [Print 67 "[green] /home/u/images/alice/images/2d31c4d947459b15bb41cb69944e2073 [green] file exists!";
        Print 67 "[green] /home/u/thumbnails/alice/thumbnails/61c50d42c9e71100383619c7363d9afb [green] file exists!";
        Print 67 "[green] /home/u/videos/alice/videos/1b5dd8f29f4c01245be9c35c8593f54a [green] file exists!"].
Proof. repeat split; vm_compute; reflexivity. Qed.

(** C4 (the code at the failing input): for the user [alice] in
    [/home/u], the image of [p1] is looked for under
    [/home/u/images/alice/images], the category coming before the user
    name, while the summary scans [/home/u/alice]: after a run with
    [--images] the first folder is there and the second is not, and an
    image stored in the first is not counted. *)
Theorem downloads_land_outside_the_scanned_tree :
  let w1 := snd (cli site only_images home) in
  filename_of home p1_jpg "alice" "images" "images"
  = "/home/u/images/alice/images/2d31c4d947459b15bb41cb69944e2073"
  /\ PosixPath.realpath (cwd home) "alice" = "/home/u/alice"
  /\ Os.stat w1 "/home/u/images/alice/images" = Some (Dir true [])
  /\ Os.stat w1 "/home/u/alice" = None
  /\ calculate_total_size home_with_image "alice"
     = Ok [("total", 0%Z); ("images", 0%Z); ("videos", 0%Z); ("thumbnails", 0%Z)].
Proof. repeat split; vm_compute; reflexivity. Qed.

(** C9 (counterexample): the empty URL is not rejected; the folder is
    created and the path of the hash of the empty string is reported. *)
Lemma empty_url_is_processed :
  _download_media (Some "") "alice" "images" "images" home
  = (Ok tt,
     mkWorld
       (Dir true [("home", Dir true [("u", Dir true
          [("images", Dir true [("alice", Dir true [("images", Dir true [])])])])])])
       "/home/u"
       [Print 67 "[green] /home/u/images/alice/images/d41d8cd98f00b204e9800998ecf8427e [green] file exists!"]).
Proof. vm_compute. reflexivity. Qed.

(** C9 (amended): with an absent URL ([None]) the call raises
    [AssertionError] at once, the world untouched: no directory, no check,
    no event.  The empty string passes the guard: the call never raises
    [AssertionError] for it and goes on as for any URL, to the folder and to
    one of the two messages, or to the failure of the creation. *)
Theorem absent_url_fails_fast :
  (forall username media_type output w,
      _download_media None username media_type output w
      = (Raise (mkExn AssertionError "Stopped, no URL to download."), w))
  /\ (forall username media_type output w,
        let res := _download_media (Some "") username media_type output w in
        match fst res with
        | Raise e => exn_class e = FileExistsError \/ exn_class e = NotADirectoryError
        | Ok _ => exists evs, trace (snd res) = trace w ++ evs /\ evs <> []
        end).
Proof.
  split; [reflexivity|].
  intros username media_type output w. cbv zeta.
  destruct (download_media_outcome "" username media_type output w)
    as [(line & msg & r & _ & _ & Hres)|(e & He & [(Hc & msg & Hres)|(Hc & Hres)])];
    rewrite Hres; simpl.
  - eexists. split; [reflexivity|discriminate].
  - eexists. split; [reflexivity|discriminate].
  - apply mkdirs_raises in He. tauto.
Qed.

(** C7: whatever the second [except] clause of the loop names, the first
    names too, so the first clause takes every exception the second would
    take: no exception selects the second clause, and no run of [_main] or
    of the script emits an event of lines 237-238. *)
Theorem second_except_clause_is_dead :
  (forall media, map fst (item_handlers media) = [first_except; second_except])
  /\ (forall e, implb (isinstance e second_except) (isinstance e first_except) = true)
  /\ (forall media e, select_clause (map fst (item_handlers media)) e <> Some 1)
  /\ (forall module kwargs w,
        extends not_second_except w (snd (_main module kwargs w)))
  /\ (forall module a w, extends not_second_except w (snd (cli module a w))).
Proof.
  split; [reflexivity|]. split; [|split; [|split]].
  - intros e. destruct (isinstance e second_except) eqn:E; [|reflexivity].
    simpl. apply (isinstance_incl _ _ _ second_in_first), E.
  - apply second_clause_dead.
  - intros module kwargs w.
    apply (keeps_weaken ordinary); [now intros ev (_ & H & _)|apply main_ordinary].
  - intros module a w. apply cli_keeps; [now intros ev (_ & H & _)|].
    unfold not_second_except. simpl. lia.
Qed.

(** With [--verbose], [_main] is [_main] without it after the change of level. *)
Lemma main_verbose (module : Picuki) (a : args) (w : world) :
  _main module (set_verbose true a) w
  = (emit (SetLevelDebug 154) ;; _main module (set_verbose false a)) w.
Proof. reflexivity. Qed.

(** C5 (counterexample): [--username alice --verbose] with none of the
    four selection flags does not print the help; the pipeline runs, with
    nothing selected. *)
Lemma verbose_alone_opens_the_gate :
  truthy (arg_username only_verbose) = true
  /\ arg_images only_verbose || arg_videos only_verbose
     || arg_thumbnails only_verbose || arg_all only_verbose = false
  /\ cli site only_verbose home
     = (Ok tt,
        mkWorld (root home) "/home/u"
          [SetLevelDebug 154; Scrape 163 "get_profile" "alice";
           ShowTable 170 "information" [("username", CStr "alice")];
           Scrape 172 "get_media_id" "page0";
           Log 178 INFO "Total Media Collected: 2";
           Log 179 INFO "Selected media: [], starting download..";
           Log 182 INFO "Getting content from: p1 [1 of 2]";
           Scrape 184 "get_media_content" "p1";
           ShowTable 187 "information" []; Sleep 229 1;
           Log 182 INFO "Getting content from: p2 [2 of 2]";
           Scrape 184 "get_media_content" "p2";
           ShowTable 187 "information" []; Sleep 229 1;
           ShowTable 147 "Total Size for alice"
             [("total", CInt 0); ("images", CInt 0); ("videos", CInt 0);
              ("thumbnails", CInt 0)]]).
Proof. repeat split; vm_compute; reflexivity. Qed.

(** C5 (amended): when [--username] is given and none of [--images],
    [--videos], [--thumbnails], [--all] is set, the script prints the help
    and does nothing else if [--verbose] is not set either; with
    [--verbose] the gate opens and [_main] runs with an empty selection:
    the level is raised, the profile is asked for, and the help is not
    printed.  Past the gate [--verbose] only raises the level: [_main] with
    it is [_main] without it after the change of level. *)
Theorem gate_counts_verbose :
  (forall module a w,
      truthy (arg_username a) = true ->
      arg_images a || arg_videos a || arg_thumbnails a || arg_all a = false ->
      cli module (set_verbose false a) w
      = (Ok tt, mkWorld (root w) (cwd w) (trace w ++ [PrintHelp 264]))
      /\ cli module (set_verbose true a) w
         = try_except (_main module (set_verbose true a)) cli_handlers w
      /\ selection (set_verbose true a) = []
      /\ exists evs,
           trace (snd (cli module (set_verbose true a) w))
           = trace w ++ SetLevelDebug 154
               :: Scrape 163 "get_profile" (clear_username module (arg_username a)) :: evs
           /\ Forall not_help evs)
  /\ (forall module a w,
        _main module (set_verbose true a) w
        = (emit (SetLevelDebug 154) ;; _main module (set_verbose false a)) w).
Proof.
  split; [|exact main_verbose].
  intros module a w Hu Hsel.
  assert (Hopen : cli module (set_verbose true a) w
                  = try_except (_main module (set_verbose true a)) cli_handlers w).
  { unfold cli. cbn [set_verbose arg_username arg_images arg_videos arg_thumbnails
                       arg_all arg_verbose].
    now rewrite Hu, Hsel. }
  split; [|split; [exact Hopen|split]].
  - unfold cli. cbn [set_verbose arg_username arg_images arg_videos arg_thumbnails
                       arg_all arg_verbose].
    now rewrite Hu, Hsel.
  - apply orb_false_elim in Hsel. destruct Hsel as [Hsel Hall].
    apply orb_false_elim in Hsel. destruct Hsel as [Hsel Ht].
    apply orb_false_elim in Hsel. destruct Hsel as [Hi Hv].
    unfold selection, kwargs_get.
    cbn [set_verbose arg_images arg_videos arg_thumbnails arg_all].
    rewrite Hall. simpl. now rewrite Hi, Hv, Ht.
  - rewrite Hopen.
    set (w2 := mkWorld (root w) (cwd w)
                 ((trace w ++ [SetLevelDebug 154])
                  ++ [Scrape 163 "get_profile" (clear_username module (arg_username a))])).
    unfold _main. cbv zeta.
    cbn [set_verbose arg_username arg_verbose].
    match goal with
    | |- context [bind (call 163 ?m ?u ?r) ?K] =>
        assert (HK : keeps ordinary (try_except (bind (lift r) K) cli_handlers));
        [|assert (Hrun : try_except (emit (SetLevelDebug 154) ;; bind (call 163 m u r) K)
                           cli_handlers w
                         = try_except (bind (lift r) K) cli_handlers w2)
            by (destruct r; reflexivity)]
    end.
    { apply keeps_try.
      - apply keeps_bind; [apply keeps_lift|].
        intros [[page result]|]; [|repeat keeps_step].
        apply keeps_bind; [repeat keeps_step|]. intros _.
        apply download_phase_ordinary.
      - intros e i cs h _ Hn.
        destruct i as [|[|i]]; simpl in Hn; inversion Hn; subst.
        repeat keeps_step. }
    rewrite Hrun.
    destruct (HK w2) as (_ & _ & evs & Ht & HP).
    exists evs. rewrite Ht. unfold w2. cbn [trace].
    rewrite <- !app_assoc. split; [reflexivity|].
    eapply Forall_impl; [|exact HP]. now intros ev (_ & _ & H).
Qed.

Lemma gate_counts_verbose_witness :
  cli site (set_verbose false only_username) home
  = (Ok tt, mkWorld (root home) (cwd home) (trace home ++ [PrintHelp 264]))
  /\ cli site (set_verbose true only_username) home
     = try_except (_main site (set_verbose true only_username)) cli_handlers home
  /\ selection (set_verbose true only_username) = []
  /\ exists evs,
       trace (snd (cli site (set_verbose true only_username) home))
       = trace home ++ SetLevelDebug 154
           :: Scrape 163 "get_profile" (clear_username site (arg_username only_username))
           :: evs
       /\ Forall not_help evs.
Proof.
  apply (proj1 gate_counts_verbose); reflexivity.
Defined.

Lemma first_only (e : exn) (media : string) :
  isinstance e first_except = false ->
  select_clause (map fst (item_handlers media)) e = None.
Proof.
  intros H1. cbn [item_handlers map fst select_clause].
  fold first_except second_except. rewrite H1.
  destruct (isinstance e second_except) eqn:H2; [|reflexivity].
  apply (isinstance_incl _ _ _ second_in_first) in H2. congruence.
Qed.

(** C6 (counterexample): the connection is reset while [p1] is resolved;
    the exception is none of the three the loop catches, the run ends
    there: [p2] is not looked at and no summary is shown. *)
Lemma connection_reset_ends_the_run :
  get_media_content site_reset "p1"
  = Raise (mkExn ConnectionResetError "Connection reset by peer")
  /\ cli site_reset only_images home
     = (Raise (mkExn ConnectionResetError "Connection reset by peer"),
        mkWorld (root home) "/home/u"
          [Scrape 163 "get_profile" "alice";
           ShowTable 170 "information" [("username", CStr "alice")];
           Scrape 172 "get_media_id" "page0";
           Log 178 INFO "Total Media Collected: 2";
           Log 179 INFO "Selected media: ['images'], starting download..";
           Log 182 INFO "Getting content from: p1 [1 of 2]";
           Scrape 184 "get_media_content" "p1"]).
Proof. split; vm_compute; reflexivity. Qed.

(** C6 (amended): in the loop over the media, an item whose content is
    falsy is logged (line 231) and the loop goes on with the next item; an
    item whose [try] block raises an instance of [httpx.ReadTimeout],
    [CancelledError] or [SSLWantReadError] is logged (line 233) and the
    loop goes on with the next item; an item whose [try] block raises
    anything else ends the loop with that exception, the remaining items
    untouched. *)
Theorem item_failure_is_local_for_three_classes :
  forall module username selected total index media rest w,
    let w1 := snd (announce total index media w) in
    let body := item_body module username selected media w1 in
    let step := item module username selected total index media w in
    let loop := for_each (item module username selected total) in
    (get_media_content module media = Ok None ->
       step = (Ok tt,
               mkWorld (root w1) (cwd w1)
                 (trace w1 ++ [Scrape 184 "get_media_content" media;
                               Log 231 WARNING
                                 ("Cannot get content from media ID: " ++ media)%string]))
       /\ loop index (media :: rest) w = loop (S index) rest (snd step))
    /\ (forall e, fst body = Raise e -> isinstance e first_except = true ->
          step = (Ok tt,
                  mkWorld (root (snd body)) (cwd (snd body))
                    (trace (snd body)
                     ++ [Log 233 WARNING
                           ("Exception: " ++ exn_str e ++ ", in media ID: " ++ media)%string;
                         Sleep 234 1]))
          /\ loop index (media :: rest) w = loop (S index) rest (snd step))
    /\ (forall e, fst body = Raise e -> isinstance e first_except = false ->
          loop index (media :: rest) w = (Raise e, snd body)).
Proof.
  intros module username selected total index media rest w. cbv zeta.
  set (w1 := snd (announce total index media w)).
  assert (Hitem : item module username selected total index media w
                  = try_except (item_body module username selected media)
                      (item_handlers media) w1) by reflexivity.
  assert (Hloop : forall w',
             item module username selected total index media w = (Ok tt, w') ->
             for_each (item module username selected total) index (media :: rest) w
             = for_each (item module username selected total) (S index) rest w').
  { intros w' H. cbn [for_each]. unfold bind at 1. now rewrite H. }
  split; [|split].
  - intros Hnone.
    assert (Hbody : item_body module username selected media w1
                    = (Ok tt,
                       mkWorld (root w1) (cwd w1)
                         (trace w1 ++ [Scrape 184 "get_media_content" media;
                                       Log 231 WARNING
                                         ("Cannot get content from media ID: " ++ media)%string]))).
    { unfold item_body, call, bind, lift, emit. rewrite Hnone. cbn [root cwd trace].
      now rewrite <- app_assoc. }
    assert (Hstep : item module username selected total index media w
                    = (Ok tt,
                       mkWorld (root w1) (cwd w1)
                         (trace w1 ++ [Scrape 184 "get_media_content" media;
                                       Log 231 WARNING
                                         ("Cannot get content from media ID: " ++ media)%string]))).
    { rewrite Hitem. unfold try_except. now rewrite Hbody. }
    split; [exact Hstep|]. rewrite Hstep. now apply Hloop.
  - intros e He H1.
    assert (Hstep : item module username selected total index media w
                    = (Ok tt,
                       mkWorld (root (snd (item_body module username selected media w1)))
                         (cwd (snd (item_body module username selected media w1)))
                         (trace (snd (item_body module username selected media w1))
                          ++ [Log 233 WARNING
                                ("Exception: " ++ exn_str e ++ ", in media ID: " ++ media)%string;
                              Sleep 234 1]))).
    { rewrite Hitem. unfold try_except.
      destruct (item_body module username selected media w1) as [r w2].
      simpl in He. subst r.
      cbn [item_handlers map fst select_clause]. fold first_except. rewrite H1.
      cbn [nth_error item_handlers]. unfold bind, emit. cbn [root cwd trace].
      now rewrite <- app_assoc. }
    split; [exact Hstep|]. rewrite Hstep. now apply Hloop.
  - intros e He H1.
    cbn [for_each]. unfold bind at 1. rewrite Hitem. unfold try_except.
    destruct (item_body module username selected media w1) as [r w2].
    simpl in He. subst r.
    now rewrite (first_only e media H1).
Qed.

Lemma item_failure_is_local_for_three_classes_witness :
  let e := mkExn ReadTimeout "The read operation timed out" in
  let w1 := snd (announce 2 1 "p1" home) in
  let body := item_body site_timeout "alice" ["images"] "p1" w1 in
  let step := item site_timeout "alice" ["images"] 2 1 "p1" home in
  let loop := for_each (item site_timeout "alice" ["images"] 2) in
  (fst body = Raise e /\ isinstance e first_except = true)
  /\ step = (Ok tt,
             mkWorld (root (snd body)) (cwd (snd body))
               (trace (snd body)
                ++ [Log 233 WARNING
                      ("Exception: " ++ exn_str e ++ ", in media ID: " ++ "p1")%string;
                    Sleep 234 1]))
  /\ loop 1 ["p1"; "p2"] home = loop 2 ["p2"] (snd step).
Proof.
  split; [split; reflexivity|].
  apply (proj1 (proj2 (item_failure_is_local_for_three_classes
                         site_timeout "alice" ["images"] 2 1 "p1" ["p2"] home))
           (mkExn ReadTimeout "The read operation timed out")); reflexivity.
Defined.

(** ** Strings and stored files *)

Lemma append_empty_r (s : string) : (s ++ "")%string = s.
Proof. induction s as [|c s IH]; simpl; [reflexivity|now rewrite IH]. Qed.

Lemma append_assoc_str (a b c : string) : ((a ++ b) ++ c = a ++ (b ++ c))%string.
Proof. induction a as [|x a IH]; simpl; [reflexivity|now rewrite IH]. Qed.

Lemma split_no_sep (s : string) : no_sep s = true -> PosixPath.split s = [s].
Proof.
  induction s as [|c s IH]; simpl; [reflexivity|].
  intros H. apply andb_prop in H. destruct H as [Hc Hs].
  apply negb_true_iff in Hc. rewrite Hc, (IH Hs). reflexivity.
Qed.

(** The last piece of [type/subtype] is [subtype]. *)
Lemma last_split_subtype (type subtype : string) :
  no_sep subtype = true ->
  last (PosixPath.split (type ++ "/" ++ subtype)) "" = subtype.
Proof.
  intros Hs.
  change (type ++ "/" ++ subtype)%string with (type ++ String "/" subtype)%string.
  assert (H : exists h tl, PosixPath.split (type ++ String "/" subtype) = h :: tl
                           /\ tl <> [] /\ last tl "" = subtype).
  { induction type as [|c t IH].
    - exists "", [subtype]. cbn. rewrite (split_no_sep _ Hs).
      repeat split; congruence.
    - destruct IH as (h & tl & E & Hne & Hl).
      cbn [String.append PosixPath.split].
      destruct (PosixPath.is_sep c).
      + exists "", (h :: tl). rewrite E. repeat split; [congruence|].
        destruct tl; [congruence|exact Hl].
      + rewrite E. exists (String c h), tl. repeat split; assumption. }
  destruct H as (h & tl & E & Hne & Hl). rewrite E.
  destruct tl; [congruence|exact Hl].
Qed.

Lemma store_cons (wr : bool) (es : list (string * node)) (c c' : string)
  (rest : list string) (change : option string -> string) :
  Os.store (Dir wr es) (c :: c' :: rest) change
  = match Os.assoc c es with
    | Some n' => match Os.store n' (c' :: rest) change with
                 | Ok n'' => Ok (Dir wr (Os.replace c n'' es))
                 | Raise e => Raise e
                 end
    | None => Raise (mkExn FileNotFoundError "No such file or directory")
    end.
Proof. reflexivity. Qed.

(** Writing to a file that is there changes its content and nothing else
    on the way to it. *)
Lemma store_existing (comps : list string) (change : option string -> string) :
  forall n d, comps <> [] -> Os.lookup n comps = Some (File d) ->
    exists n', Os.store n comps change = Ok n'
               /\ Os.lookup n' comps = Some (File (change (Some d))).
Proof.
  induction comps as [|c rest IH]; intros n d Hne Hl; [congruence|].
  destruct n as [|wr es]; [discriminate|].
  simpl in Hl. destruct (Os.assoc c es) as [sub|] eqn:Ec; [|discriminate].
  destruct rest as [|c' rest'].
  - simpl in Hl. inversion Hl; subst sub. simpl. rewrite Ec.
    eexists. split; [reflexivity|]. simpl.
    rewrite assoc_replace_same by congruence. reflexivity.
  - destruct (IH sub d) as (sub' & Es & El); [congruence|exact Hl|].
    rewrite store_cons, Ec, Es.
    eexists. split; [reflexivity|].
    cbn [Os.lookup]. rewrite assoc_replace_same by congruence. exact El.
Qed.

(** A file that has been opened for writing is there, with the content
    the opening gives it. *)
Lemma store_opened (comps : list string) (change : option string -> string) :
  forall n n', Os.store n comps change = Ok n' ->
    comps <> [] /\ exists d, Os.lookup n' comps = Some (File d).
Proof.
  induction comps as [|c rest IH]; intros n n' H.
  - destruct n; discriminate.
  - split; [congruence|].
    destruct n as [|wr es]; [discriminate|].
    destruct rest as [|c' rest'].
    + simpl in H. destruct (Os.assoc c es) as [[d|wr' es']|] eqn:Ec.
      * inversion H; subst. eexists. simpl.
        rewrite assoc_replace_same by congruence. reflexivity.
      * discriminate.
      * destruct wr; inversion H; subst. eexists. simpl.
        rewrite assoc_app, Ec. simpl. rewrite String.eqb_refl. reflexivity.
    + rewrite store_cons in H. destruct (Os.assoc c es) as [sub|] eqn:Ec; [|discriminate].
      destruct (Os.store sub (c' :: rest') change) as [sub'|] eqn:Es; inversion H; subst.
      destruct (IH _ _ Es) as (_ & d & El).
      exists d. cbn [Os.lookup]. rewrite assoc_replace_same by congruence. exact El.
Qed.

Lemma store_truncates (comps : list string) :
  forall n n', Os.store n comps (fun _ => "") = Ok n' ->
    Os.lookup n' comps = Some (File "").
Proof.
  induction comps as [|c rest IH]; intros n n' H.
  - destruct n; discriminate.
  - destruct n as [|wr es]; [discriminate|].
    destruct rest as [|c' rest'].
    + simpl in H. destruct (Os.assoc c es) as [[d|wr' es']|] eqn:Ec.
      * inversion H; subst. simpl.
        rewrite assoc_replace_same by congruence. reflexivity.
      * discriminate.
      * destruct wr; inversion H; subst. simpl.
        rewrite assoc_app, Ec. simpl. rewrite String.eqb_refl. reflexivity.
    + rewrite store_cons in H. destruct (Os.assoc c es) as [sub|] eqn:Ec; [|discriminate].
      destruct (Os.store sub (c' :: rest') (fun _ => "")) as [sub'|] eqn:Es;
        inversion H; subst.
      cbn [Os.lookup]. rewrite assoc_replace_same by congruence. eapply IH, Es.
Qed.

(** The loop of lines 99-101 appends the chunks to the file. *)
Lemma write_chunks_appends (filename : string) (cs : list string) :
  forall w d,
    PosixPath.components (cwd w) filename <> [] ->
    Os.lookup (root w) (PosixPath.components (cwd w) filename) = Some (File d) ->
    exists r evs,
      write_chunks filename cs w = (Ok tt, mkWorld r (cwd w) (trace w ++ evs))
      /\ Os.lookup r (PosixPath.components (cwd w) filename)
         = Some (File (d ++ body_of cs)).
Proof.
  induction cs as [|c cs IH]; intros w d Hne Hl.
  - exists (root w), []. simpl. rewrite app_nil_r, append_empty_r.
    split; [now destruct w|exact Hl].
  - destruct (store_existing _ (fun old => match old with
                                           | Some d0 => (d0 ++ c)%string
                                           | None => c
                                           end) _ _ Hne Hl) as (r1 & Es & El).
    destruct (IH (mkWorld r1 (cwd w) (trace w ++ [Progress 101 (String.length c)]))
                (d ++ c)%string Hne El) as (r & evs & Hw & Hr).
    cbn [root cwd trace] in Hw, Hr.
    exists r, (Progress 101 (String.length c) :: evs).
    split.
    + cbn [write_chunks]. unfold bind, Os.write, emit. rewrite Es.
      cbn [root cwd trace]. rewrite Hw.
      now rewrite <- app_assoc.
    + rewrite Hr. cbn [body_of fold_right]. now rewrite append_assoc_str.
Qed.

Lemma saved_as_not_empty (filename subtype : string) :
  (saved_as filename subtype =? "")%string = false.
Proof. unfold saved_as. now destruct filename. Qed.

Lemma type_subtype_not_empty (type subtype : string) :
  (type ++ "/" ++ subtype =? "")%string = false.
Proof. now destruct type. Qed.

(** C8: when the response has no Content-Type (or an empty one),
    [_download_file_async] raises [ValueError] after the request and
    before any file is opened: the disk is as it was, no file is named
    after an absent type.  When the Content-Type is [type/subtype] and the
    file [filename.subtype] can be opened for writing, that file holds the
    body after the call; if the stream ends without an exception the call
    returns and its last message names [filename.subtype]. *)
Theorem content_type_gives_the_extension :
  (forall net url filename w response,
      net url = Ok response ->
      content_type response = None \/ content_type response = Some "" ->
      _download_file_async net url filename w
      = (Raise (mkExn ValueError ("Cannot get mimetype of content: " ++ url)%string),
         mkWorld (root w) (cwd w) (trace w ++ [HttpGet 77 url])))
  /\ (forall net url filename w response type subtype r,
        net url = Ok response ->
        content_type response = Some (type ++ "/" ++ subtype)%string ->
        no_sep subtype = true ->
        Os.store (root w) (PosixPath.components (cwd w) (saved_as filename subtype))
          (fun _ => "") = Ok r ->
        let res := _download_file_async net url filename w in
        read_file (snd res) (saved_as filename subtype) = Some (body_of (chunks response))
        /\ (body_error response = None ->
            fst res = Ok tt
            /\ exists evs,
                 trace (snd res)
                 = trace w ++ HttpGet 77 url :: evs
                     ++ [Print 104 ("[green] Completed.. saved as: [blue]"
                                    ++ saved_as filename subtype)%string])).
Proof.
  split.
  - intros net url filename w response Hnet Hct.
    unfold _download_file_async, try_except, bind, emit, lift.
    rewrite Hnet. destruct Hct as [-> | ->]; reflexivity.
  - intros net url filename w response type subtype r Hnet Hct Hsub Hopen. cbv zeta.
    destruct (store_opened _ _ _ _ Hopen) as (Hne & _).
    pose proof (store_truncates _ _ _ Hopen) as Hl.
    destruct (write_chunks_appends (saved_as filename subtype) (chunks response)
                (mkWorld r (cwd w) (trace w ++ [HttpGet 77 url])) ""
                Hne Hl) as (r3 & evs & Hw & Hr).
    cbn [root cwd trace String.append] in Hw, Hr.
    assert (Hread : forall t, read_file (mkWorld r3 (cwd w) t) (saved_as filename subtype)
                              = Some (body_of (chunks response))).
    { intros t. unfold read_file, Os.stat. rewrite saved_as_not_empty.
      cbn [root cwd]. now rewrite Hr. }
    assert (Hrun : exists res t,
               _download_file_async net url filename w = (res, mkWorld r3 (cwd w) t)
               /\ (body_error response = None ->
                   res = Ok tt
                   /\ t = ((trace w ++ [HttpGet 77 url]) ++ evs)
                           ++ [Print 104 ("[green] Completed.. saved as: [blue]"
                                          ++ saved_as filename subtype)%string])).
    { unfold _download_file_async, try_except.
      unfold bind at 1. unfold emit at 1.
      unfold bind at 1. unfold lift. rewrite Hnet, Hct, type_subtype_not_empty.
      rewrite (last_split_subtype _ _ Hsub). fold (saved_as filename subtype).
      unfold bind at 1. unfold Os.open_wb. cbn [root cwd trace]. rewrite Hopen.
      unfold bind at 1. rewrite Hw.
      destruct (body_error response) as [e|] eqn:Eb.
      - unfold bind at 1. unfold raise.
        match goal with
        | |- context [select_clause ?cl e] => destruct (select_clause cl e) as [i|]
        end.
        + destruct i as [|[|i]]; cbn [nth_error]; unfold emit; cbn [root cwd trace];
            eexists _, _; (split; [reflexivity|discriminate]).
        + eexists _, _. split; [reflexivity|discriminate].
      - unfold bind, ret, emit. cbn [root cwd trace].
        eexists _, _. split; [reflexivity|]. intros _. split; reflexivity. }
    destruct Hrun as (res & t & Hrun & Hdone). rewrite Hrun. cbn [fst snd].
    split; [apply Hread|].
    intros Hb. destruct (Hdone Hb) as (-> & ->). split; [reflexivity|].
    exists evs. cbn [trace]. now rewrite <- !app_assoc.
Qed.

Lemma content_type_gives_the_extension_witness :
  let res := _download_file_async (fun _ => Ok jpeg_response) p1_jpg "/home/u/dl/2d31"
               home_with_folder in
  read_file (snd res) (saved_as "/home/u/dl/2d31" "jpeg") = Some (body_of (chunks jpeg_response))
  /\ (body_error jpeg_response = None ->
      fst res = Ok tt
      /\ exists evs,
           trace (snd res)
           = trace home_with_folder ++ HttpGet 77 p1_jpg :: evs
               ++ [Print 104 ("[green] Completed.. saved as: [blue]"
                              ++ saved_as "/home/u/dl/2d31" "jpeg")%string]).
Proof.
  apply (proj2 content_type_gives_the_extension (fun _ => Ok jpeg_response) p1_jpg
           "/home/u/dl/2d31" home_with_folder jpeg_response "image" "jpeg"
           (Dir true [("home", Dir true [("u", Dir true
              [("dl", Dir true [("2d31.jpeg", File "")])])])]));
    reflexivity.
Defined.

(** ** The size summary *)

Lemma assoc_unknown_key (name : string) (t i v th : Z) :
  ~ In name all_keys -> Os.assoc name (sizes t i v th) = None.
Proof.
  intros H. unfold sizes. simpl.
  destruct (String.eqb_spec name "total") as [->|_]; [exfalso; apply H; simpl; auto|].
  destruct (String.eqb_spec name "images") as [->|_]; [exfalso; apply H; simpl; auto|].
  destruct (String.eqb_spec name "videos") as [->|_]; [exfalso; apply H; simpl; auto|].
  destruct (String.eqb_spec name "thumbnails") as [->|_]; [exfalso; apply H; simpl; auto|].
  reflexivity.
Qed.

(** The files of a directory named after a key are added to that key and
    to the total. *)
Lemma add_files_known_key (name : string) (files : list (string * node)) :
  In name all_keys ->
  forall t i v th,
    exists t' i' v' th',
      add_files name files (sizes t i v th) = Ok (sizes t' i' v' th')
      /\ (In name media_keys -> (t' - (i' + v' + th') = t - (i + v + th))%Z).
Proof.
  intros Hin. induction files as [|[x f] files IH]; intros t i v th.
  - exists t, i, v, th. split; [reflexivity|reflexivity].
  - destruct Hin as [<-|[<-|[<-|[<-|[]]]]]; cbn [add_files].
    + destruct (IH (t + Os.st_size f + Os.st_size f)%Z i v th) as (t' & i' & v' & th' & E & _).
      exists t', i', v', th'. split; [exact E|].
      intros [H|[H|[H|[]]]]; discriminate.
    + destruct (IH (t + Os.st_size f)%Z (i + Os.st_size f)%Z v th)
        as (t' & i' & v' & th' & E & Hs).
      exists t', i', v', th'. split; [exact E|].
      intros H. specialize (Hs H). lia.
    + destruct (IH (t + Os.st_size f)%Z i (v + Os.st_size f)%Z th)
        as (t' & i' & v' & th' & E & Hs).
      exists t', i', v', th'. split; [exact E|].
      intros H. specialize (Hs H). lia.
    + destruct (IH (t + Os.st_size f)%Z i v (th + Os.st_size f)%Z)
        as (t' & i' & v' & th' & E & Hs).
      exists t', i', v', th'. split; [exact E|].
      intros H. specialize (Hs H). lia.
Qed.

Lemma add_files_unknown_key (name : string) (files : list (string * node)) (t i v th : Z) :
  ~ In name all_keys -> files <> [] ->
  add_files name files (sizes t i v th) = Raise (mkExn KeyError ("'" ++ name ++ "'")%string).
Proof.
  intros Hn Hf. destruct files as [|[x f] files]; [congruence|].
  cbn [add_files]. unfold dict_add. now rewrite (assoc_unknown_key _ _ _ _ _ Hn).
Qed.

Lemma add_files_raises (name : string) (files : list (string * node)) :
  forall d e, add_files name files d = Raise e -> exn_class e = KeyError.
Proof.
  induction files as [|[x f] files IH]; intros d e H; [discriminate|].
  cbn [add_files] in H. unfold dict_add in H.
  destruct (Os.assoc name d); [|inversion H; reflexivity].
  destruct (Os.assoc "total" _); [|inversion H; reflexivity].
  eapply IH, H.
Qed.

Lemma scan_raises (globs : list (string * node)) :
  forall d e, scan globs d = Raise e ->
    exn_class e = KeyError \/ exn_class e = NotADirectoryError.
Proof.
  induction globs as [|[name g] globs IH]; intros d e H; [discriminate|].
  cbn [scan] in H. destruct g as [data|wr files]; [inversion H; auto|].
  destruct (add_files name files d) as [d'|e'] eqn:Ea.
  - eapply IH, H.
  - inversion H; subst. left. eapply add_files_raises, Ea.
Qed.

Lemma scan_known_keys (globs : list (string * node)) :
  Forall (fun g => is_dir (snd g) = true
                   /\ (In (fst g) all_keys \/ is_empty_dir (snd g) = true)) globs ->
  forall t i v th,
    exists t' i' v' th',
      scan globs (sizes t i v th) = Ok (sizes t' i' v' th')
      /\ (Forall (fun g => In (fst g) media_keys) globs ->
          (t' - (i' + v' + th') = t - (i + v + th))%Z).
Proof.
  induction 1 as [|[name g] globs [Hd Hk] _ IH]; intros t i v th.
  - exists t, i, v, th. split; reflexivity.
  - simpl in Hd, Hk. destruct g as [data|wr files]; [discriminate|]. cbn [scan].
    destruct Hk as [Hk|He].
    + destruct (add_files_known_key name files Hk t i v th) as (t1 & i1 & v1 & th1 & E & Hs).
      rewrite E. destruct (IH t1 i1 v1 th1) as (t' & i' & v' & th' & E' & Hs').
      exists t', i', v', th'. split; [exact E'|].
      intros Hall. inversion Hall; subst. simpl in *.
      rewrite Hs' by assumption. now apply Hs.
    + destruct files; [|discriminate]. cbn [add_files].
      destruct (IH t i v th) as (t' & i' & v' & th' & E' & Hs').
      exists t', i', v', th'. split; [exact E'|].
      intros Hall. inversion Hall; subst. now apply Hs'.
Qed.

Lemma scan_unknown_key (globs : list (string * node)) :
  Forall (fun g => is_dir (snd g) = true) globs ->
  Exists (fun g => ~ In (fst g) all_keys /\ is_empty_dir (snd g) = false) globs ->
  forall t i v th, exists e, scan globs (sizes t i v th) = Raise e /\ exn_class e = KeyError.
Proof.
  intros Hd Hx. induction Hd as [|[name g] globs Hg Hd IH]; intros t i v th.
  - inversion Hx.
  - simpl in Hg. destruct g as [data|wr files]; [discriminate|]. cbn [scan].
    destruct (add_files name files (sizes t i v th)) as [d|e] eqn:Ea.
    + assert (Hshape : exists t1 i1 v1 th1, d = sizes t1 i1 v1 th1).
      { destruct (in_dec string_dec name all_keys) as [Hk|Hk].
        - destruct (add_files_known_key name files Hk t i v th)
            as (t1 & i1 & v1 & th1 & E & _).
          exists t1, i1, v1, th1. congruence.
        - destruct files as [|f files].
          + exists t, i, v, th. now inversion Ea.
          + rewrite add_files_unknown_key in Ea by (assumption || discriminate).
            discriminate. }
      destruct Hshape as (t1 & i1 & v1 & th1 & ->).
      apply IH. inversion Hx as [? ? [Hk He]|]; subst; [|assumption].
      simpl in Hk, He. destruct files as [|f files]; [discriminate|].
      rewrite add_files_unknown_key in Ea by (assumption || discriminate).
      discriminate.
    + exists e. split; [reflexivity|]. eapply add_files_raises, Ea.
Qed.

Lemma scan_stray_file (globs : list (string * node)) :
  Exists (fun g => is_dir (snd g) = false) globs ->
  forall d, exists e, scan globs d = Raise e.
Proof.
  induction 1 as [[name g] globs Hg|[name g] globs _ IH]; intros d; cbn [scan].
  - simpl in Hg. destruct g; [|discriminate]. eexists. reflexivity.
  - destruct g as [data|wr files]; [eexists; reflexivity|].
    destruct (add_files name files d) as [d'|e]; [apply IH|eexists; reflexivity].
Qed.

(** C10 (counterexample): a directory named [total] raises nothing, its
    file of four bytes is counted twice in the total; an empty directory of
    another name raises nothing either. *)
Lemma total_directory_and_empty_directory_raise_nothing :
  top_level home_total_dir "alice" = [("total", Dir true [("x", File "abcd")])]
  /\ calculate_total_size home_total_dir "alice" = Ok (sizes 8 0 0 0)
  /\ top_level home_empty_misc "alice" = [("misc", Dir true [])]
  /\ calculate_total_size home_empty_misc "alice" = Ok (sizes 0 0 0 0).
Proof. repeat split; vm_compute; reflexivity. Qed.

(** C10 (amended): [calculate_total_size] returns a mapping whose total
    is the sum of its images, videos and thumbnails whenever every
    top-level entry is a directory named [images], [videos] or
    [thumbnails].  It returns a mapping whenever every top-level entry is a
    directory that is named after one of the four keys, [total] among them,
    or is empty.  When every top-level entry is a directory and one of them
    is not empty and has none of the four names, the lookup raises
    [KeyError]; when a top-level entry is not a directory the scan raises
    ([NotADirectoryError] from [iterdir], or the [KeyError] of an earlier
    entry). *)
Theorem total_is_the_sum_for_a_well_formed_tree :
  forall w username,
    (Forall (fun g => is_dir (snd g) = true /\ In (fst g) media_keys) (top_level w username) ->
     exists d, calculate_total_size w username = Ok d
               /\ (dict_get d "total"
                   = dict_get d "images" + dict_get d "videos" + dict_get d "thumbnails")%Z)
    /\ (Forall (fun g => is_dir (snd g) = true
                         /\ (In (fst g) all_keys \/ is_empty_dir (snd g) = true))
          (top_level w username) ->
        exists d, calculate_total_size w username = Ok d)
    /\ (Forall (fun g => is_dir (snd g) = true) (top_level w username) ->
        Exists (fun g => ~ In (fst g) all_keys /\ is_empty_dir (snd g) = false)
          (top_level w username) ->
        exists e, calculate_total_size w username = Raise e /\ exn_class e = KeyError)
    /\ (Exists (fun g => is_dir (snd g) = false) (top_level w username) ->
        exists e, calculate_total_size w username = Raise e
                  /\ (exn_class e = KeyError \/ exn_class e = NotADirectoryError)).
Proof.
  intros w username. unfold calculate_total_size. cbv zeta.
  fold (top_level w username). fold (sizes 0 0 0 0).
  split; [|split; [|split]].
  - intros H.
    destruct (scan_known_keys (top_level w username)) with (t := 0%Z) (i := 0%Z)
      (v := 0%Z) (th := 0%Z) as (t' & i' & v' & th' & E & Hs).
    { eapply Forall_impl; [|exact H]. intros g [Hd Hk]. split; [exact Hd|].
      left. now right. }
    exists (sizes t' i' v' th'). split; [exact E|].
    assert (Hm : Forall (fun g => In (fst g) media_keys) (top_level w username)).
    { eapply Forall_impl; [|exact H]. now intros g [_ Hk]. }
    specialize (Hs Hm). unfold dict_get, sizes. simpl. lia.
  - intros H.
    destruct (scan_known_keys _ H 0%Z 0%Z 0%Z 0%Z) as (t' & i' & v' & th' & E & _).
    eexists. exact E.
  - intros Hd Hx. apply scan_unknown_key; assumption.
  - intros Hx. destruct (scan_stray_file _ Hx (sizes 0 0 0 0)) as (e & E).
    exists e. split; [exact E|]. eapply scan_raises, E.
Qed.

Lemma total_is_the_sum_for_a_well_formed_tree_witness :
  exists d, calculate_total_size home_media "alice" = Ok d
            /\ (dict_get d "total"
                = dict_get d "images" + dict_get d "videos" + dict_get d "thumbnails")%Z.
Proof.
  apply (proj1 (total_is_the_sum_for_a_well_formed_tree home_media "alice")).
  change (top_level home_media "alice")
    with [("images", Dir true [("a.jpeg", File "abcd"); ("b.jpeg", File "ab")]);
          ("videos", Dir true [("c.mp4", File "abcdefgh")])].
  repeat (constructor; [split; [reflexivity|simpl; auto]|]).
  constructor.
Defined.

(** ** Paths *)

Lemma plain_name_inv (s : string) :
  plain_name s = true -> no_sep s = true /\ s <> "" /\ s <> "." /\ s <> "..".
Proof.
  unfold plain_name. intros H.
  apply andb_prop in H. destruct H as [H H3].
  apply andb_prop in H. destruct H as [H H2].
  apply andb_prop in H. destruct H as [H0 H1].
  apply negb_true_iff in H1, H2, H3.
  repeat split; try assumption; intros ->; discriminate.
Qed.

Lemma split_cons_sep (c rest : string) :
  no_sep c = true -> PosixPath.split (c ++ String "/" rest) = c :: PosixPath.split rest.
Proof.
  induction c as [|x c IH]; intros H; [reflexivity|].
  simpl in H. apply andb_prop in H. destruct H as [Hx Hc].
  apply negb_true_iff in Hx. cbn [String.append PosixPath.split].
  now rewrite Hx, (IH Hc).
Qed.

Lemma split_pieces (s : string) : Forall (fun c => no_sep c = true) (PosixPath.split s).
Proof.
  induction s as [|x s IH]; cbn [PosixPath.split]; [repeat constructor|].
  destruct (PosixPath.is_sep x) eqn:Ex; [constructor; [reflexivity|exact IH]|].
  destruct (PosixPath.split s) as [|h t]; [repeat constructor; simpl; now rewrite Ex|].
  inversion IH; subst. constructor; [|assumption].
  simpl. now rewrite Ex.
Qed.

Lemma concat_cons2 (x y : string) (l : list string) :
  String.concat "/" (x :: y :: l) = (x ++ String "/" (String.concat "/" (y :: l)))%string.
Proof. reflexivity. Qed.

Lemma split_concat (cs : list string) :
  Forall (fun c => plain_name c = true) cs -> cs <> [] ->
  PosixPath.split (String.concat "/" cs) = cs.
Proof.
  induction 1 as [|x cs Hx Hcs IH]; intros Hne; [congruence|].
  apply plain_name_inv in Hx. destruct Hx as (Hs & _).
  destruct cs as [|y cs].
  - simpl. now apply split_no_sep.
  - rewrite concat_cons2, split_cons_sep by assumption.
    f_equal. apply IH. discriminate.
Qed.

Lemma norm_step_plain (acc : list string) (c : string) :
  plain_name c = true -> PosixPath.norm_step acc c = c :: acc.
Proof.
  unfold plain_name, PosixPath.norm_step. intros H.
  apply andb_prop in H. destruct H as [H H3].
  apply andb_prop in H. destruct H as [H H2].
  apply andb_prop in H. destruct H as [_ H1].
  apply negb_true_iff in H1, H2, H3. now rewrite H1, H2, H3.
Qed.

Lemma fold_norm_plain (cs : list string) :
  Forall (fun c => plain_name c = true) cs ->
  forall acc, fold_left PosixPath.norm_step cs acc = rev cs ++ acc.
Proof.
  induction 1 as [|x cs Hx _ IH]; intros acc; [reflexivity|].
  cbn [fold_left rev]. rewrite norm_step_plain by assumption.
  rewrite IH, <- app_assoc. reflexivity.
Qed.

Lemma fold_norm_keeps_plain (cs : list string) :
  Forall (fun c => no_sep c = true) cs ->
  forall acc, Forall (fun c => plain_name c = true) acc ->
              Forall (fun c => plain_name c = true) (fold_left PosixPath.norm_step cs acc).
Proof.
  induction 1 as [|x cs Hx _ IH]; intros acc Hacc; [exact Hacc|].
  cbn [fold_left]. apply IH. unfold PosixPath.norm_step.
  destruct (x =? "")%string eqn:E0; [exact Hacc|].
  destruct (x =? ".")%string eqn:E1; [exact Hacc|]. cbn [orb].
  destruct (x =? "..")%string eqn:E2.
  - destruct acc; [constructor|]. now inversion Hacc.
  - constructor; [|exact Hacc]. unfold plain_name. now rewrite Hx, E0, E1, E2.
Qed.

(** The components of a path are plain names. *)
Lemma components_plain (here p : string) :
  Forall (fun c => plain_name c = true) (PosixPath.components here p).
Proof.
  unfold PosixPath.components. apply Forall_rev.
  apply fold_norm_keeps_plain; [apply split_pieces|constructor].
Qed.

(** Reading back a rendered path gives its components. *)
Lemma components_render (here : string) (cs : list string) :
  Forall (fun c => plain_name c = true) cs ->
  PosixPath.components here (PosixPath.render cs) = cs.
Proof.
  intros H. unfold PosixPath.components, PosixPath.render.
  change (PosixPath.join2 here ("/" ++ String.concat "/" cs))
    with (String "/" (String.concat "/" cs)).
  change (PosixPath.split (String "/" (String.concat "/" cs)))
    with ("" :: PosixPath.split (String.concat "/" cs)).
  cbn [fold_left]. change (PosixPath.norm_step [] "") with (@nil string).
  destruct cs as [|c cs]; [reflexivity|].
  rewrite split_concat by (assumption || discriminate).
  rewrite fold_norm_plain by assumption.
  now rewrite app_nil_r, rev_involutive.
Qed.

Lemma endswith_sep_app (a b : string) :
  b <> "" -> PosixPath.endswith_sep (a ++ b) = PosixPath.endswith_sep b.
Proof.
  intros Hb. induction a as [|x a IH]; [reflexivity|].
  cbn [String.append]. 
  destruct (a ++ b)%string as [|y r] eqn:E.
  - destruct a; [simpl in E; congruence|discriminate].
  - cbn [PosixPath.endswith_sep]. exact IH.
Qed.

Lemma endswith_sep_no_sep (s : string) :
  no_sep s = true -> PosixPath.endswith_sep s = false.
Proof.
  induction s as [|x s IH]; [reflexivity|].
  intros H. simpl in H. apply andb_prop in H. destruct H as [Hx Hs].
  apply negb_true_iff in Hx. destruct s as [|y r]; [exact Hx|].
  cbn [PosixPath.endswith_sep]. now apply IH.
Qed.

Lemma concat_plain_end (cs : list string) :
  Forall (fun c => plain_name c = true) cs -> cs <> [] ->
  String.concat "/" cs <> "" /\ PosixPath.endswith_sep (String.concat "/" cs) = false.
Proof.
  induction 1 as [|x cs Hx _ IH]; intros Hne; [congruence|].
  apply plain_name_inv in Hx. destruct Hx as (Hs & Hn & _).
  destruct cs as [|y cs].
  - simpl. split; [exact Hn|now apply endswith_sep_no_sep].
  - rewrite concat_cons2. destruct IH as (IHn & IHe); [discriminate|]. split.
    + destruct x; [congruence|discriminate].
    + change (x ++ String "/" (String.concat "/" (y :: cs)))%string
        with (x ++ ("/" ++ String.concat "/" (y :: cs)))%string.
      rewrite endswith_sep_app by discriminate.
      change ("/" ++ String.concat "/" (y :: cs))%string
        with (String "/" (String.concat "/" (y :: cs))).
      destruct (String.concat "/" (y :: cs)) eqn:E; [congruence|exact IHe].
Qed.

Lemma concat_snoc (cs : list string) (u : string) :
  cs <> [] ->
  String.concat "/" (cs ++ [u]) = (String.concat "/" cs ++ String "/" u)%string.
Proof.
  induction cs as [|x cs IH]; intros Hne; [congruence|].
  destruct cs as [|y cs]; [reflexivity|].
  change ((x :: y :: cs) ++ [u]) with (x :: y :: (cs ++ [u])).
  rewrite !concat_cons2.
  change (y :: cs ++ [u]) with ((y :: cs) ++ [u]).
  rewrite IH by discriminate. rewrite append_assoc_str. reflexivity.
Qed.

(** Joining a plain name to a rendered path renders one component more. *)
Lemma join2_render (cs : list string) (u : string) :
  Forall (fun c => plain_name c = true) cs -> plain_name u = true ->
  PosixPath.join2 (PosixPath.render cs) u = PosixPath.render (cs ++ [u]).
Proof.
  intros Hcs Hu. apply plain_name_inv in Hu. destruct Hu as (Hs & Hn & _).
  unfold PosixPath.join2.
  assert (Hstart : PosixPath.startswith_sep u = false).
  { destruct u as [|x u]; [congruence|]. simpl in Hs.
    apply andb_prop in Hs. destruct Hs as [Hx _]. now apply negb_true_iff in Hx. }
  rewrite Hstart. unfold PosixPath.render.
  change ("/" ++ String.concat "/" cs =? "")%string with false. cbn [orb].
  destruct cs as [|c cs]; [reflexivity|].
  destruct (concat_plain_end (c :: cs) Hcs) as (Hne & He); [discriminate|].
  change ("/" ++ String.concat "/" (c :: cs))%string
    with (String "/" (String.concat "/" (c :: cs))).
  assert (Hend : PosixPath.endswith_sep (String "/" (String.concat "/" (c :: cs))) = false).
  { destruct (String.concat "/" (c :: cs)) eqn:E; [congruence|exact He]. }
  rewrite Hend. rewrite concat_snoc by discriminate.
  reflexivity.
Qed.

Lemma join_render (cs us : list string) :
  Forall (fun c => plain_name c = true) cs ->
  Forall (fun c => plain_name c = true) us ->
  PosixPath.join (PosixPath.render cs) us = PosixPath.render (cs ++ us).
Proof.
  intros Hcs Hus. revert cs Hcs.
  induction Hus as [|u us Hu _ IH]; intros cs Hcs.
  - now rewrite app_nil_r.
  - unfold PosixPath.join. cbn [fold_left]. fold (PosixPath.join (PosixPath.join2 (PosixPath.render cs) u) us).
    rewrite join2_render by assumption.
    rewrite IH by (apply Forall_app; split; [assumption|now constructor]).
    now rewrite <- app_assoc.
Qed.

(** In a working directory that is itself the rendering of plain names, a
    plain name is one more component. *)
Lemma components_relative (cs : list string) (u : string) :
  Forall (fun c => plain_name c = true) cs -> plain_name u = true ->
  PosixPath.components (PosixPath.render cs) u = cs ++ [u].
Proof.
  intros Hcs Hu. unfold PosixPath.components at 1.
  rewrite join2_render by assumption.
  apply (components_render ""). apply Forall_app. split; [assumption|now constructor].
Qed.

(** ** The name of a download *)

Lemma hex_digit_is_hex (v : Z) : (0 <= v < 16)%Z -> is_hex (MD5.hex_digit v) = true.
Proof.
  intros H.
  assert (Hv : In v [0; 1; 2; 3; 4; 5; 6; 7; 8; 9; 10; 11; 12; 13; 14; 15]%Z).
  { simpl. lia. }
  simpl in Hv.
  repeat (destruct Hv as [<-|Hv]; [reflexivity|]). contradiction.
Qed.

Lemma le_bytes_small (n : nat) :
  forall x, Forall (fun b => 0 <= b < 256)%Z (MD5.le_bytes n x).
Proof.
  induction n as [|n IH]; intros x; cbn [MD5.le_bytes]; constructor; [|apply IH].
  change 255%Z with (Z.ones 8). rewrite Z.land_ones by lia.
  apply Z.mod_pos_bound. reflexivity.
Qed.

Lemma le_bytes_length (n : nat) : forall x, List.length (MD5.le_bytes n x) = n.
Proof. induction n as [|n IH]; intros x; simpl; [reflexivity|now rewrite IH]. Qed.

Lemma hex_of_bytes (bs : list Z) :
  Forall (fun b => 0 <= b < 256)%Z bs ->
  all_hex (MD5.hex bs) = true /\ String.length (MD5.hex bs) = 2 * List.length bs.
Proof.
  induction 1 as [|b bs Hb _ [IHh IHl]]; [split; reflexivity|].
  cbn [MD5.hex all_hex String.length List.length]. split.
  - rewrite IHh, !hex_digit_is_hex; [reflexivity| |].
    + change 15%Z with (Z.ones 4). rewrite Z.land_ones by lia.
      apply Z.mod_pos_bound. reflexivity.
    + rewrite Z.shiftr_div_pow2 by lia. change (2 ^ 4)%Z with 16%Z.
      split; [apply Z.div_pos; lia|apply Z.div_lt_upper_bound; lia].
  - rewrite IHl. lia.
Qed.

Lemma is_hex_plain (c : ascii) :
  is_hex c = true -> PosixPath.is_sep c = false /\ c <> "."%char.
Proof.
  unfold is_hex. cbn [list_ascii_of_string existsb]. intros H.
  repeat (apply orb_prop in H;
          destruct H as [H|H];
          [apply Ascii.eqb_eq in H; subst c; split; [reflexivity|discriminate]|]).
  discriminate.
Qed.

Lemma all_hex_no_sep (s : string) : all_hex s = true -> no_sep s = true.
Proof.
  induction s as [|c s IH]; [reflexivity|].
  cbn [all_hex no_sep]. intros H. apply andb_prop in H. destruct H as [Hc Hs].
  apply is_hex_plain in Hc. destruct Hc as [Hc _]. now rewrite Hc, IH.
Qed.

Lemma all_hex_plain (s : string) : all_hex s = true -> s <> "" -> plain_name s = true.
Proof.
  intros H Hne. unfold plain_name. rewrite (all_hex_no_sep _ H).
  destruct s as [|c s]; [congruence|].
  cbn [all_hex] in H. apply andb_prop in H. destruct H as [Hc _].
  apply is_hex_plain in Hc. destruct Hc as [_ Hc].
  assert (Hd : (c =? ".")%char = false) by now apply Ascii.eqb_neq.
  cbn [String.eqb]. rewrite Hd. reflexivity.
Qed.

(** The digest in hexadecimal: thirty-two digits, whatever the string. *)
Lemma hexdigest_shape (s : string) :
  String.length (MD5.hexdigest s) = 32 /\ all_hex (MD5.hexdigest s) = true
  /\ plain_name (MD5.hexdigest s) = true.
Proof.
  unfold MD5.hexdigest, MD5.digest. cbv zeta.
  set (st := MD5.blocks _ _ _).
  assert (Hb : Forall (fun b => 0 <= b < 256)%Z
                 (MD5.le_bytes 4 (MD5.sa st) ++ MD5.le_bytes 4 (MD5.sb st)
                  ++ MD5.le_bytes 4 (MD5.sc st) ++ MD5.le_bytes 4 (MD5.sd st))).
  { repeat (apply Forall_app; split); apply le_bytes_small. }
  destruct (hex_of_bytes _ Hb) as [Hh Hl].
  rewrite !length_app, !le_bytes_length in Hl.
  split; [exact Hl|]. split; [exact Hh|].
  apply all_hex_plain; [exact Hh|].
  intros E. rewrite E in Hl. discriminate.
Qed.

(** The folder of line 53, for plain names. *)
Lemma folder_render (w : world) (username media_type output : string) :
  plain_name username = true -> plain_name media_type = true ->
  output_folder_of w username media_type output
  = PosixPath.render (PosixPath.components (cwd w) output ++ [username; media_type]).
Proof.
  intros Hu Hm. unfold output_folder_of, PosixPath.realpath.
  apply join_render; [apply components_plain|repeat constructor; assumption].
Qed.

Lemma category_is_plain (c : string) : In c media_keys -> plain_name c = true.
Proof. intros [<-|[<-|[<-|[]]]]; reflexivity. Qed.

(** The folder of a call of [_main], in a working directory of plain names. *)
Lemma main_folder_components (w : world) (cs : list string) (username c : string) :
  cwd w = PosixPath.render cs ->
  Forall (fun x => plain_name x = true) cs ->
  plain_name username = true -> In c media_keys ->
  PosixPath.components (cwd w) (output_folder_of w username c c) = cs ++ [c; username; c].
Proof.
  intros Hcwd Hcs Hu Hc. pose proof (category_is_plain c Hc) as Hp.
  rewrite (folder_render w username c c Hu Hp).
  rewrite Hcwd, (components_relative cs c) by assumption.
  rewrite <- app_assoc. apply components_render.
  apply Forall_app. split; [exact Hcs|repeat constructor; assumption].
Qed.

(** The tree the summary scans, in a working directory of plain names. *)
Lemma scanned_components (w : world) (cs : list string) (username : string) :
  cwd w = PosixPath.render cs ->
  Forall (fun x => plain_name x = true) cs ->
  plain_name username = true ->
  PosixPath.realpath (cwd w) username = PosixPath.render (cs ++ [username])
  /\ PosixPath.components (cwd w) (PosixPath.realpath (cwd w) username) = cs ++ [username].
Proof.
  intros Hcwd Hcs Hu. unfold PosixPath.realpath.
  rewrite Hcwd, (components_relative cs username) by assumption.
  split; [reflexivity|]. apply components_render.
  apply Forall_app. split; [exact Hcs|repeat constructor; assumption].
Qed.

(** X1: for a user name and a category that are plain names, the folder
    of lines 53 is the real path of [output], then the user name, then the
    category, and the path of line 57 is that folder and one component
    more: the MD5 of the URL, thirty-two hexadecimal digits whatever the
    URL holds.  The components the file system walks are those. *)
Theorem download_path_layout (w : world) (url username media_type output : string) :
  plain_name username = true -> plain_name media_type = true ->
  let base := PosixPath.components (cwd w) output in
  output_folder_of w username media_type output
  = PosixPath.render (base ++ [username; media_type])
  /\ filename_of w url username media_type output
     = PosixPath.render (base ++ [username; media_type; MD5.hexdigest url])
  /\ PosixPath.components (cwd w) (filename_of w url username media_type output)
     = base ++ [username; media_type; MD5.hexdigest url]
  /\ String.length (MD5.hexdigest url) = 32
  /\ all_hex (MD5.hexdigest url) = true.
Proof.
  intros Hu Hm. cbv zeta.
  destruct (hexdigest_shape url) as (Hl & Hh & Hp).
  pose proof (components_plain (cwd w) output) as Hb.
  pose proof (folder_render w username media_type output Hu Hm) as Hfolder.
  assert (Hfile : filename_of w url username media_type output
                  = PosixPath.render (PosixPath.components (cwd w) output
                                      ++ [username; media_type; MD5.hexdigest url])).
  { unfold filename_of. rewrite Hfolder.
    rewrite join_render.
    - now rewrite <- app_assoc.
    - apply Forall_app. split; [exact Hb|repeat constructor; assumption].
    - repeat constructor; assumption. }
  repeat split; try assumption.
  rewrite Hfile. apply components_render.
  apply Forall_app. split; [exact Hb|repeat constructor; assumption].
Qed.

Lemma download_path_layout_witness :
  let base := PosixPath.components (cwd home) "images" in
  output_folder_of home "alice" "images" "images"
  = PosixPath.render (base ++ ["alice"; "images"])
  /\ filename_of home p1_jpg "alice" "images" "images"
     = PosixPath.render (base ++ ["alice"; "images"; MD5.hexdigest p1_jpg])
  /\ PosixPath.components (cwd home) (filename_of home p1_jpg "alice" "images" "images")
     = base ++ ["alice"; "images"; MD5.hexdigest p1_jpg]
  /\ String.length (MD5.hexdigest p1_jpg) = 32
  /\ all_hex (MD5.hexdigest p1_jpg) = true.
Proof.
  apply (download_path_layout home p1_jpg "alice" "images" "images"); reflexivity.
Defined.

(** X2: in a working directory [/c1/../cn] of plain names, for a plain
    user name, the three calls of [_main] (lines 195-225) give the path
    [/c1/../cn/<category>/<username>/<category>/<md5>], the category
    before the user name, and the summary (line 120) scans
    [/c1/../cn/<username>]. *)
Theorem main_paths_and_scanned_tree (w : world) (cs : list string)
  (url username category : string) :
  cwd w = PosixPath.render cs ->
  Forall (fun c => plain_name c = true) cs ->
  plain_name username = true ->
  In category media_keys ->
  filename_of w url username category category
  = PosixPath.render (cs ++ [category; username; category; MD5.hexdigest url])
  /\ PosixPath.components (cwd w) (output_folder_of w username category category)
     = cs ++ [category; username; category]
  /\ PosixPath.realpath (cwd w) username = PosixPath.render (cs ++ [username])
  /\ PosixPath.components (cwd w) (PosixPath.realpath (cwd w) username) = cs ++ [username].
Proof.
  intros Hcwd Hcs Hu Hc. pose proof (category_is_plain category Hc) as Hp.
  destruct (hexdigest_shape url) as (_ & _ & Hh).
  split; [|split; [now apply main_folder_components|now apply scanned_components]].
  unfold filename_of. rewrite (folder_render w username category category Hu Hp).
  rewrite Hcwd, (components_relative cs category) by assumption.
  rewrite join_render.
  - now rewrite <- !app_assoc.
  - rewrite <- app_assoc. apply Forall_app.
    split; [exact Hcs|repeat constructor; assumption].
  - repeat constructor; assumption.
Qed.

Lemma main_paths_and_scanned_tree_witness :
  filename_of home p1_jpg "alice" "images" "images"
  = PosixPath.render (["home"; "u"] ++ ["images"; "alice"; "images"; MD5.hexdigest p1_jpg])
  /\ PosixPath.components (cwd home) (output_folder_of home "alice" "images" "images")
     = ["home"; "u"] ++ ["images"; "alice"; "images"]
  /\ PosixPath.realpath (cwd home) "alice" = PosixPath.render (["home"; "u"] ++ ["alice"])
  /\ PosixPath.components (cwd home) (PosixPath.realpath (cwd home) "alice")
     = ["home"; "u"] ++ ["alice"].
Proof.
  apply (main_paths_and_scanned_tree home ["home"; "u"] p1_jpg "alice" "images").
  - reflexivity.
  - repeat constructor.
  - reflexivity.
  - simpl. auto.
Defined.

(** ** Relations the program respects *)

Section Respects.
Variable R : world -> world -> Prop.
Hypothesis R_refl : forall w, R w w.
Hypothesis R_trans : forall w1 w2 w3, R w1 w2 -> R w2 w3 -> R w1 w3.

Lemma respects_ret {A} (a : A) : respects R (ret a).
Proof. intros w. apply R_refl. Qed.

Lemma respects_raise {A} (e : exn) : respects R (@raise A e).
Proof. intros w. apply R_refl. Qed.

Lemma respects_lift {A} (r : result A) : respects R (lift r).
Proof. intros w. apply R_refl. Qed.

Lemma respects_getcwd : respects R getcwd.
Proof. intros w. apply R_refl. Qed.

Lemma respects_exists (p : string) : respects R (Os.exists_ p).
Proof. intros w. apply R_refl. Qed.

Lemma respects_bind {A B} (m : M A) (f : A -> M B) :
  respects R m -> (forall a, respects R (f a)) -> respects R (bind m f).
Proof.
  intros Hm Hf w. unfold bind. specialize (Hm w).
  destruct (m w) as [[a|e] w']; simpl in *; [|exact Hm].
  eapply R_trans; [exact Hm|apply Hf].
Qed.

Lemma respects_try {A} (m : M A) (clauses : list (list cls * (exn -> M A))) :
  respects R m ->
  (forall e i cs h, select_clause (map fst clauses) e = Some i ->
                    nth_error clauses i = Some (cs, h) -> respects R (h e)) ->
  respects R (try_except m clauses).
Proof.
  intros Hm Hh w. unfold try_except. specialize (Hm w).
  destruct (m w) as [[a|e] w']; simpl in *; [exact Hm|].
  destruct (select_clause (map fst clauses) e) as [i|] eqn:Es; [|exact Hm].
  destruct (nth_error clauses i) as [[cs h]|] eqn:En; [|exact Hm].
  eapply R_trans; [exact Hm|]. eapply Hh; eassumption.
Qed.

Lemma respects_for_each {A} (f : nat -> A -> M unit) (l : list A) :
  (forall i x, respects R (f i x)) -> forall start, respects R (for_each f start l).
Proof.
  intros Hf. induction l as [|x l IH]; intros start; simpl.
  - apply respects_ret.
  - apply respects_bind; [apply Hf|]. intros _. apply IH.
Qed.

Variable F : event -> Prop.
Hypothesis R_emit : forall ev w, F ev -> R w (snd (emit ev w)).

Lemma respects_emit (ev : event) : F ev -> respects R (emit ev).
Proof. intros H w. now apply R_emit. Qed.

Lemma respects_call {A} (line : nat) (method arg : string) (r : result A) :
  F (Scrape line method arg) -> respects R (call line method arg r).
Proof.
  intros H. unfold call. apply respects_bind; [now apply respects_emit|].
  intros _. apply respects_lift.
Qed.

(** [_download_media], for a relation every [os.makedirs] respects. *)
Hypothesis R_makedirs : forall p, respects R (Os.makedirs p).
Hypothesis F_download : forall ev, In (line_of ev) download_lines -> F ev.

Lemma download_media_respects url username media_type output :
  respects R (_download_media url username media_type output).
Proof.
  unfold _download_media. destruct url as [url|]; [|apply respects_raise].
  cbv zeta. apply respects_bind; [apply respects_getcwd|]. intros here.
  apply respects_bind; [apply respects_exists|]. intros present.
  apply respects_bind.
  - destruct present; simpl; [apply respects_ret|].
    apply respects_try.
    + apply respects_bind; [apply R_makedirs|]. intros _. apply respects_ret.
    + intros e i cs h _ Hn.
      destruct i as [|[|i]]; simpl in Hn; inversion Hn; subst.
      apply respects_bind; [|intros _; apply respects_ret].
      apply respects_emit, F_download. simpl. auto.
  - intros [|]; [|apply respects_ret].
    apply respects_bind; [apply respects_exists|].
    intros [|]; apply respects_emit, F_download; simpl; auto.
Qed.

(** The loop, for a relation the calls of [_download_media] made for the
    selected categories respect. *)
Variable username : string.
Variable selected : list string.
Hypothesis R_download :
  forall url c, In c media_keys -> In_b c selected = true ->
                respects R (_download_media url username c c).
Hypothesis F_body : forall ev, In (line_of ev) body_lines -> F ev.
Hypothesis F_handlers : forall ev, In (line_of ev) handler_lines -> F ev.
Hypothesis F_loop : forall ev, In (line_of ev) loop_lines -> F ev.
Hypothesis F_main : forall ev, In (line_of ev) main_lines -> F ev.

Ltac body_event := apply respects_emit, F_body; simpl; auto 20.

Lemma item_body_respects module media :
  respects R (item_body module username selected media).
Proof.
  unfold item_body.
  apply respects_bind; [apply respects_call, F_body; simpl; auto 20|].
  intros [content|]; [|body_event].
  cbv zeta.
  apply respects_bind; [body_event|]. intros _.
  apply respects_bind.
  - destruct (In_b "images" selected) eqn:Ei; [|apply respects_ret].
    destruct (m_images (c_media content)); [body_event|].
    apply respects_bind; [body_event|]. intros _.
    apply respects_for_each. intros i x.
    apply respects_bind; [body_event|]. intros _.
    apply R_download; [simpl; auto|exact Ei].
  - intros _. apply respects_bind; [|intros _; body_event].
    destruct (In_b "videos" selected || In_b "thumbnails" selected); [|apply respects_ret].
    destruct (m_videos (c_media content)); [body_event|].
    apply respects_bind; [body_event|]. intros _.
    apply respects_for_each. intros i x.
    apply respects_bind; [|intros _].
    + destruct (In_b "thumbnails" selected) eqn:Et; [|apply respects_ret].
      apply respects_bind; [body_event|]. intros _.
      apply R_download; [simpl; auto|exact Et].
    + destruct (In_b "videos" selected) eqn:Ev; [|apply respects_ret].
      apply respects_bind; [body_event|]. intros _.
      apply R_download; [simpl; auto|exact Ev].
Qed.

(** The [try] statement of the loop, lines 183-239. *)
Lemma guarded_body_respects module media :
  respects R (try_except (item_body module username selected media) (item_handlers media)).
Proof.
  apply respects_try; [apply item_body_respects|].
  intros e i cs h Hs Hn.
  destruct i as [|[|i]]; simpl in Hn.
  - inversion Hn; subst.
    apply respects_bind; [|intros _]; apply respects_emit, F_handlers; simpl; auto.
  - now apply second_clause_dead in Hs.
  - destruct i; discriminate.
Qed.

Lemma item_respects module total index media :
  respects R (item module username selected total index media).
Proof.
  unfold item, announce.
  apply respects_bind; [apply respects_emit, F_loop; simpl; auto|]. intros _.
  apply guarded_body_respects.
Qed.

Lemma summary_respects : respects R (calculate_result_and_show_table username).
Proof.
  intros w. unfold calculate_result_and_show_table.
  destruct (calculate_total_size w username); [|apply R_refl].
  apply R_emit, F_main. simpl. auto.
Qed.

Lemma download_phase_respects module page :
  respects R (download_phase module username selected page).
Proof.
  unfold download_phase.
  apply respects_bind; [apply respects_call, F_main; simpl; auto 20|].
  intros [|m ms]; [apply respects_raise|].
  apply respects_bind; [apply respects_emit, F_main; simpl; auto 20|]. intros _.
  apply respects_bind; [apply respects_emit, F_main; simpl; auto 20|]. intros _.
  apply respects_bind; [|intros _; apply summary_respects].
  apply respects_for_each. intros i x. apply item_respects.
Qed.
End Respects.

(** [_main] and the script, the user name and the selection being theirs. *)
Lemma main_respects (R : world -> world -> Prop) (F : event -> Prop) module kwargs :
  (forall w, R w w) ->
  (forall w1 w2 w3, R w1 w2 -> R w2 w3 -> R w1 w3) ->
  (forall ev w, F ev -> R w (snd (emit ev w))) ->
  (forall url c, In c media_keys -> In_b c (selection kwargs) = true ->
     respects R (_download_media url (clear_username module (arg_username kwargs)) c c)) ->
  (forall ev, In (line_of ev) (main_lines ++ loop_lines ++ body_lines) -> F ev) ->
  respects R (_main module kwargs).
Proof.
  intros Hr Ht He Hd HF.
  assert (Fm : forall ev, In (line_of ev) main_lines -> F ev).
  { intros ev H. apply HF, in_or_app. now left. }
  assert (Fl : forall ev, In (line_of ev) loop_lines -> F ev).
  { intros ev H. apply HF, in_or_app. right. apply in_or_app. now left. }
  assert (Fb : forall ev, In (line_of ev) body_lines -> F ev).
  { intros ev H. apply HF, in_or_app. right. apply in_or_app. now right. }
  assert (Fh : forall ev, In (line_of ev) handler_lines -> F ev).
  { intros ev H. apply Fl. now right. }
  unfold _main. cbv zeta.
  apply respects_bind; [assumption| |intros _].
  - destruct (arg_verbose kwargs); [|now apply respects_ret].
    apply (respects_emit R F He), Fm. simpl. auto.
  - apply respects_bind; [assumption| |].
    + apply (respects_call R Hr Ht F He), Fm. simpl. auto 20.
    + intros [[page result]|].
      * apply respects_bind; [assumption| |intros _].
        -- apply (respects_emit R F He), Fm. simpl. auto 20.
        -- apply (download_phase_respects R Hr Ht F He); assumption.
      * apply (respects_emit R F He), Fm. simpl. auto 20.
Qed.

(** ** What [os.makedirs] does to the tree *)

Lemma lookup_nil_dir (wr : bool) (c : string) (p : list string) :
  Os.lookup (Dir wr []) (c :: p) = None.
Proof. reflexivity. Qed.

Lemma mkdirs_grows (comps : list string) :
  forall n n', Os.mkdirs n comps = Ok n' -> grows n n'.
Proof.
  induction comps as [|c rest IH]; intros n n' H; simpl in H.
  - destruct n; inversion H; subst. intros p x Hx. now exists x.
  - destruct n as [|wr es]; [discriminate|].
    destruct (Os.assoc c es) as [sub|] eqn:Ec.
    + destruct (Os.mkdirs sub rest) as [sub'|] eqn:Em; inversion H; subst; clear H.
      specialize (IH _ _ Em).
      intros [|c0 p] x Hx; simpl in Hx.
      * inversion Hx; subst. eexists. split; reflexivity.
      * simpl. destruct (String.eqb_spec c0 c) as [->|Hne].
        -- rewrite assoc_replace_same by congruence. rewrite Ec in Hx. now apply IH.
        -- rewrite assoc_replace_other by assumption.
           destruct (Os.assoc c0 es); [|discriminate]. now exists x.
    + destruct wr; [|discriminate].
      destruct (Os.mkdirs (Dir true []) rest) as [sub'|] eqn:Em; inversion H; subst; clear H.
      intros [|c0 p] x Hx; simpl in Hx.
      * inversion Hx; subst. eexists. split; reflexivity.
      * simpl. rewrite assoc_app.
        destruct (Os.assoc c0 es) as [y|] eqn:E0; [|discriminate]. now exists x.
Qed.

(** After [os.makedirs] the folder is there, a directory. *)
Lemma mkdirs_makes_dir (comps : list string) :
  forall n n', Os.mkdirs n comps = Ok n' ->
    exists wr es, Os.lookup n' comps = Some (Dir wr es).
Proof.
  induction comps as [|c rest IH]; intros n n' H; simpl in H.
  - destruct n as [|wr es]; inversion H; subst. now exists wr, es.
  - destruct n as [|wr es]; [discriminate|].
    destruct (Os.assoc c es) as [sub|] eqn:Ec.
    + destruct (Os.mkdirs sub rest) as [sub'|] eqn:Em; inversion H; subst; clear H.
      simpl. rewrite assoc_replace_same by congruence. eapply IH, Em.
    + destruct wr; [|discriminate].
      destruct (Os.mkdirs (Dir true []) rest) as [sub'|] eqn:Em; inversion H; subst; clear H.
      simpl. rewrite assoc_app, Ec. simpl. rewrite String.eqb_refl. eapply IH, Em.
Qed.

(** [os.makedirs] below [p/c] leaves [p/c'] as it is. *)
Lemma mkdirs_sibling (p : list string) (c c' : string) (rest q : list string) :
  c' <> c ->
  forall n n', Os.mkdirs n (p ++ c :: rest) = Ok n' ->
    Os.lookup n' (p ++ c' :: q) = Os.lookup n (p ++ c' :: q).
Proof.
  intros Hne. induction p as [|x p IH]; intros n n' H; cbn [app] in *; simpl in H.
  - destruct n as [|wr es]; [discriminate|].
    destruct (Os.assoc c es) as [sub|] eqn:Ec.
    + destruct (Os.mkdirs sub rest) as [sub'|]; inversion H; subst; clear H.
      simpl. now rewrite assoc_replace_other.
    + destruct wr; [|discriminate].
      destruct (Os.mkdirs (Dir true []) rest) as [sub'|]; inversion H; subst; clear H.
      simpl. rewrite assoc_app.
      destruct (Os.assoc c' es); [reflexivity|]. simpl.
      destruct (String.eqb_spec c' c); [contradiction|reflexivity].
  - destruct n as [|wr es]; [discriminate|].
    destruct (Os.assoc x es) as [sub|] eqn:Ex.
    + destruct (Os.mkdirs sub (p ++ c :: rest)) as [sub'|] eqn:Em; inversion H; subst; clear H.
      simpl. rewrite assoc_replace_same by congruence. rewrite Ex. eapply IH, Em.
    + destruct wr; [|discriminate].
      destruct (Os.mkdirs (Dir true []) (p ++ c :: rest)) as [sub'|] eqn:Em;
        inversion H; subst; clear H.
      simpl. rewrite assoc_app, Ex. simpl. rewrite String.eqb_refl.
      rewrite (IH _ _ Em). now destruct p.
Qed.

Lemma join2_not_empty (path b : string) : path <> "" -> PosixPath.join2 path b <> "".
Proof.
  intros Hp. unfold PosixPath.join2.
  destruct b as [|x b]; cbn [PosixPath.startswith_sep].
  - destruct ((path =? "")%string || PosixPath.endswith_sep path);
      destruct path; try congruence; discriminate.
  - destruct (PosixPath.is_sep x); [discriminate|].
    destruct ((path =? "")%string || PosixPath.endswith_sep path);
      destruct path; try congruence; discriminate.
Qed.

Lemma join_not_empty (l : list string) :
  forall path, path <> "" -> PosixPath.join path l <> "".
Proof.
  induction l as [|b l IH]; intros path Hp; [exact Hp|].
  unfold PosixPath.join. cbn [fold_left]. apply IH. now apply join2_not_empty.
Qed.

Lemma output_folder_not_empty (w : world) (username media_type output : string) :
  (output_folder_of w username media_type output =? "")%string = false.
Proof.
  apply String.eqb_neq. unfold output_folder_of.
  apply join_not_empty. discriminate.
Qed.

(** ** [_download_media] once more *)

(** A call on a URL, case by case. *)
Lemma download_media_unfolded (u username media_type output : string)
  (r : node) (here : string) (t : list event) :
  let folder := output_folder_of (mkWorld r here []) username media_type output in
  let filename := filename_of (mkWorld r here []) u username media_type output in
  _download_media (Some u) username media_type output (mkWorld r here t)
  = match Os.lookup r (PosixPath.components here folder) with
    | Some _ => (Ok tt, mkWorld r here (t ++ [report r here filename]))
    | None =>
        match Os.mkdirs r (PosixPath.components here folder) with
        | Ok r' => (Ok tt, mkWorld r' here (t ++ [report r' here filename]))
        | Raise e =>
            if isinstance e [PermissionError]
            then (Ok tt,
                  mkWorld r here
                    (t ++ [Log 63 WARNING
                             ("Directory output: " ++ folder ++ " is not writeable!")%string]))
            else (Raise e, mkWorld r here t)
        end
    end.
Proof.
  cbv zeta.
  pose proof (output_folder_not_empty (mkWorld r here []) username media_type output) as Hne.
  unfold filename_of, report. unfold output_folder_of in *. cbn [cwd] in *.
  unfold _download_media, bind, getcwd, Os.exists_, try_except, Os.makedirs, Os.stat.
  cbv zeta. cbn [cwd root trace].
  set (folder := PosixPath.join _ [username; media_type]) in *.
  set (filename := PosixPath.join folder _).
  rewrite Hne.
  destruct (Os.lookup r (PosixPath.components here folder)) as [n|] eqn:Ef; cbn [negb].
  - unfold ret at 1. cbn [root cwd trace].
    destruct (filename =? "")%string;
      [|destruct (Os.lookup r (PosixPath.components here filename))];
      reflexivity.
  - cbn [root cwd trace].
    destruct (Os.mkdirs r (PosixPath.components here folder)) as [r'|e] eqn:Em.
    + unfold ret at 1. cbn [root cwd trace].
      destruct (filename =? "")%string;
        [|destruct (Os.lookup r' (PosixPath.components here filename))];
        reflexivity.
    + cbn [map fst select_clause].
      destruct (isinstance e [PermissionError]); reflexivity.
Qed.

(** What a call does depends on the disk and the working directory, not
    on the trace; and on the disk it leaves, the same call does the same
    and leaves the disk as it is. *)
Lemma download_media_run (url : option string) (username media_type output : string)
  (r : node) (here : string) :
  exists res r' evs,
    (forall t, _download_media url username media_type output (mkWorld r here t)
               = (res, mkWorld r' here (t ++ evs)))
    /\ (forall t, _download_media url username media_type output (mkWorld r' here t)
                  = (res, mkWorld r' here (t ++ evs)))
    /\ (r' = r
        \/ Os.mkdirs r (PosixPath.components here
                          (output_folder_of (mkWorld r here []) username media_type output))
           = Ok r').
Proof.
  destruct url as [u|].
  2:{ exists (Raise (mkExn AssertionError "Stopped, no URL to download.")), r, [].
      repeat split; auto; intros t; simpl; unfold raise; now rewrite app_nil_r. }
  pose proof (download_media_unfolded u username media_type output r here) as H1.
  cbv zeta in H1.
  change (output_folder_of (mkWorld r here []) username media_type output)
    with (PosixPath.join (PosixPath.realpath here output) [username; media_type]) in *.
  change (filename_of (mkWorld r here []) u username media_type output)
    with (PosixPath.join (PosixPath.join (PosixPath.realpath here output)
                             [username; media_type]) [MD5.hexdigest u]) in *.
  set (folder := PosixPath.join _ [username; media_type]) in *.
  set (filename := PosixPath.join folder _) in *.
  destruct (Os.lookup r (PosixPath.components here folder)) as [n|] eqn:Ef.
  - exists (Ok tt), r, [report r here filename].
    split; [exact H1|]. split; [exact H1|now left].
  - destruct (Os.mkdirs r (PosixPath.components here folder)) as [r'|e] eqn:Em.
    + exists (Ok tt), r', [report r' here filename].
      split; [exact H1|]. split; [|now right].
      intros t. pose proof (download_media_unfolded u username media_type output r' here t) as H2.
      cbv zeta in H2.
      change (output_folder_of (mkWorld r' here []) username media_type output)
        with folder in H2.
      change (filename_of (mkWorld r' here []) u username media_type output)
        with filename in H2.
      destruct (mkdirs_makes_dir _ _ _ Em) as (wr & es & Hd).
      now rewrite Hd in H2.
    + destruct (isinstance e [PermissionError]).
      * eexists (Ok tt), r, [_]. split; [exact H1|]. split; [exact H1|now left].
      * exists (Raise e), r, []. split; [|split; [|now left]];
          intros t; rewrite H1; now rewrite app_nil_r.
Qed.


(** ** What a run does to the disk *)

Lemma grows_refl (r : node) : grows r r.
Proof. intros p n H. now exists n. Qed.

Lemma grows_trans (r1 r2 r3 : node) : grows r1 r2 -> grows r2 r3 -> grows r1 r3.
Proof.
  intros H12 H23 p n H. destruct (H12 p n H) as (n2 & H2 & Hd2).
  destruct (H23 p n2 H2) as (n3 & H3 & Hd3). exists n3. split; [exact H3|congruence].
Qed.

(** X4: a run of [_main] or of the script loses nothing: every path
    that led to something before the run leads to something after it, a
    directory to a directory and a file to a file; the working directory
    is the same. *)
Theorem run_never_removes (module : Picuki) (a : args) (w : world) :
  (cwd (snd (_main module a w)) = cwd w /\ grows (root w) (root (snd (_main module a w))))
  /\ (cwd (snd (cli module a w)) = cwd w /\ grows (root w) (root (snd (cli module a w)))).
Proof.
  set (R := fun w w' : world => cwd w' = cwd w /\ grows (root w) (root w')).
  assert (Hr : forall w, R w w) by (intros w0; split; [reflexivity|apply grows_refl]).
  assert (Ht : forall w1 w2 w3, R w1 w2 -> R w2 w3 -> R w1 w3).
  { intros w1 w2 w3 [Hc1 Hg1] [Hc2 Hg2]. split; [congruence|].
    eapply grows_trans; eassumption. }
  assert (He : forall ev w, True -> R w (snd (emit ev w))).
  { intros ev w0 _. split; [reflexivity|apply grows_refl]. }
  assert (Hm : forall p, respects R (Os.makedirs p)).
  { intros p w0. unfold Os.makedirs.
    destruct (Os.mkdirs (root w0) (PosixPath.components (cwd w0) p)) as [r|e] eqn:E;
      [|apply Hr].
    split; [reflexivity|]. apply (mkdirs_grows _ _ _ E). }
  assert (Hmain : respects R (_main module a)).
  { apply (main_respects R (fun _ => True)); auto.
    intros url c _ _. apply (download_media_respects R Hr Ht (fun _ => True)); auto. }
  split; [apply Hmain|].
  unfold cli. destruct (truthy (arg_username a) && _).
  - apply (respects_try R Ht); [exact Hmain|].
    intros e i cs h _ Hn.
    destruct i as [|[|i]]; simpl in Hn; inversion Hn; subst.
    now apply (respects_emit R (fun _ => True)).
  - now apply He.
Qed.

Lemma leaves_alone_refl cs name (w : world) : leaves_alone cs name w w.
Proof. intros _. split; reflexivity. Qed.

Lemma leaves_alone_trans cs name (w1 w2 w3 : world) :
  leaves_alone cs name w1 w2 -> leaves_alone cs name w2 w3 -> leaves_alone cs name w1 w3.
Proof.
  intros H12 H23 Hc. destruct (H12 Hc) as [Hc2 Hl2].
  destruct H23 as [Hc3 Hl3]; [congruence|]. split; congruence.
Qed.

(** A call of [_main]'s for the category [c] leaves [/c1/../cn/name]
    alone when [name] is not [c]. *)
Lemma download_leaves_alone (cs : list string) (name username c : string)
  (url : option string) :
  Forall (fun x => plain_name x = true) cs ->
  plain_name username = true -> In c media_keys -> name <> c ->
  respects (leaves_alone cs name) (_download_media url username c c).
Proof.
  intros Hcs Hu Hc Hne [r here t] Hcwd. cbn [cwd root] in *.
  destruct (download_media_run url username c c r here)
    as (res & r' & evs & H1 & _ & [->|Hm]); rewrite H1; cbn [snd cwd root].
  - split; reflexivity.
  - split; [reflexivity|].
    pose proof (main_folder_components (mkWorld r here []) cs username c Hcwd Hcs Hu Hc)
      as Hf.
    cbn [cwd] in Hf. rewrite Hf in Hm.
    apply (mkdirs_sibling cs c name [username; c] [] Hne _ _ Hm).
Qed.

Lemma main_leaves_alone (cs : list string) (name : string) module kwargs :
  Forall (fun x => plain_name x = true) cs ->
  plain_name (clear_username module (arg_username kwargs)) = true ->
  (forall c, In c media_keys -> In_b c (selection kwargs) = true -> name <> c) ->
  respects (leaves_alone cs name) (_main module kwargs).
Proof.
  intros Hcs Hu Hne.
  apply (main_respects _ (fun _ => True)).
  - apply leaves_alone_refl.
  - apply leaves_alone_trans.
  - intros ev w _ _. split; reflexivity.
  - intros url c Hc Hsel. apply download_leaves_alone; auto.
  - trivial.
Qed.

(** X5: in a working directory [/c1/../cn] and for a plain user name, a
    run of [_main] leaves [/c1/../cn/<category>] exactly as it was for
    every category that is not selected: nothing is created there. *)
Theorem unselected_category_is_left_alone (module : Picuki) (kwargs : args) (w : world)
  (cs : list string) (c : string) :
  cwd w = PosixPath.render cs ->
  Forall (fun x => plain_name x = true) cs ->
  plain_name (clear_username module (arg_username kwargs)) = true ->
  In c media_keys ->
  In_b c (selection kwargs) = false ->
  Os.lookup (root (snd (_main module kwargs w))) (cs ++ [c]) = Os.lookup (root w) (cs ++ [c]).
Proof.
  intros Hcwd Hcs Hu Hc Hsel.
  apply (main_leaves_alone cs c module kwargs Hcs Hu); [|exact Hcwd].
  intros c' _ Hsel' ->. congruence.
Qed.

Lemma unselected_category_is_left_alone_witness :
  Os.lookup (root (snd (_main site only_images home))) (["home"; "u"] ++ ["videos"])
  = Os.lookup (root home) (["home"; "u"] ++ ["videos"]).
Proof.
  apply (unselected_category_is_left_alone site only_images home ["home"; "u"] "videos").
  - reflexivity.
  - repeat constructor.
  - reflexivity.
  - simpl. auto.
  - reflexivity.
Defined.

(** X6: in a working directory [/c1/../cn], for a plain user name that
    is not the name of a category, no run of [_main] changes what
    [calculate_total_size] gives for the user: the summary at the end of
    the run is that of the disk before the run. *)
Theorem run_does_not_change_the_summary (module : Picuki) (kwargs : args) (w : world)
  (cs : list string) :
  let username := clear_username module (arg_username kwargs) in
  cwd w = PosixPath.render cs ->
  Forall (fun x => plain_name x = true) cs ->
  plain_name username = true ->
  ~ In username media_keys ->
  calculate_total_size (snd (_main module kwargs w)) username
  = calculate_total_size w username.
Proof.
  intros username Hcwd Hcs Hu Hnot.
  destruct (main_leaves_alone cs username module kwargs Hcs Hu) with (w := w)
    as [Hc Hl]; [|exact Hcwd|].
  { intros c Hc _ ->. contradiction. }
  destruct (scanned_components w cs username Hcwd Hcs Hu) as (Hreal & Hcomp).
  unfold calculate_total_size, glob_star, Os.stat. cbv zeta.
  fold username. rewrite Hc, Hreal.
  rewrite Hreal in Hcomp. rewrite Hcomp. now rewrite Hl.
Qed.

Lemma run_does_not_change_the_summary_witness :
  calculate_total_size (snd (_main site everything home_media)) "alice"
  = calculate_total_size home_media "alice".
Proof.
  apply (run_does_not_change_the_summary site everything home_media ["home"; "u"]).
  - reflexivity.
  - repeat constructor.
  - reflexivity.
  - simpl. intros [H|[H|[H|[]]]]; discriminate.
Defined.

(** ** The loop over the media *)

Lemma adds_refl (F : event -> Prop) (w : world) : adds F w w.
Proof. exists []. split; [now rewrite app_nil_r|constructor]. Qed.

Lemma adds_trans (F : event -> Prop) (w1 w2 w3 : world) :
  adds F w1 w2 -> adds F w2 w3 -> adds F w1 w3.
Proof.
  intros (e1 & H1 & F1) (e2 & H2 & F2). exists (e1 ++ e2).
  split; [now rewrite H2, H1, app_assoc|]. apply Forall_app. now split.
Qed.

Lemma adds_emit (F : event -> Prop) (ev : event) (w : world) :
  F ev -> adds F w (snd (emit ev w)).
Proof. intros H. exists [ev]. split; [reflexivity|now constructor]. Qed.

Lemma adds_makedirs (F : event -> Prop) (p : string) : respects (adds F) (Os.makedirs p).
Proof.
  intros w. unfold Os.makedirs.
  destruct (Os.mkdirs (root w) (PosixPath.components (cwd w) p)); [|apply adds_refl].
  exists []. split; [cbn; now rewrite app_nil_r|constructor].
Qed.

(** The [try] statement of the loop reports from its own lines only. *)
Lemma guarded_body_lines module username selected media :
  respects (adds (fun ev => In (line_of ev) (handler_lines ++ body_lines ++ download_lines)))
    (try_except (item_body module username selected media) (item_handlers media)).
Proof.
  set (F := fun ev => In (line_of ev) (handler_lines ++ body_lines ++ download_lines)).
  assert (Fd : forall ev, In (line_of ev) download_lines -> F ev).
  { intros ev H. unfold F. apply in_or_app. right. apply in_or_app. now right. }
  apply (guarded_body_respects (adds F) (adds_refl F) (adds_trans F) F (adds_emit F)).
  - intros url c _ _.
    apply (download_media_respects (adds F) (adds_refl F) (adds_trans F) F (adds_emit F));
      [apply adds_makedirs|exact Fd].
  - intros ev H. unfold F. apply in_or_app. right. apply in_or_app. now left.
  - intros ev H. unfold F. apply in_or_app. now left.
Qed.

Lemma filter_nothing (evs : list event) (lines : list nat) :
  ~ In 182 lines -> Forall (fun ev => In (line_of ev) lines) evs ->
  filter is_announcement evs = [].
Proof.
  intros Hn. induction 1 as [|ev evs Hev _ IH]; [reflexivity|].
  cbn [filter]. unfold is_announcement at 1.
  destruct (Nat.eqb_spec (line_of ev) 182) as [E|_]; [|exact IH].
  rewrite E in Hev. contradiction.
Qed.

(** X7: the loop looks at the media in order, each once: the messages
    of line 182 a run of the loop adds are those of the first [k] items,
    numbered from [start], and of all the items when the loop returns. *)
Theorem loop_announces_each_item_once module username selected total (ids : list string) :
  forall start w,
    let res := for_each (item module username selected total) start ids w in
    exists evs k,
      trace (snd res) = trace w ++ evs
      /\ filter is_announcement evs
         = map (announcement total) (firstn k (numbered start ids))
      /\ (fst res = Ok tt ->
          filter is_announcement evs = map (announcement total) (numbered start ids)).
Proof.
  induction ids as [|media ids IH]; intros start w; cbv zeta.
  - exists [], 0. cbn. rewrite app_nil_r. repeat split.
  - set (w1 := mkWorld (root w) (cwd w) (trace w ++ [announcement total (start, media)])).
    assert (Hstep :
      for_each (item module username selected total) start (media :: ids) w
      = let (r, w2) := try_except (item_body module username selected media)
                         (item_handlers media) w1 in
        match r with
        | Ok _ => for_each (item module username selected total) (S start) ids w2
        | Raise e => (Raise e, w2)
        end) by reflexivity.
    rewrite Hstep. clear Hstep.
    destruct (guarded_body_lines module username selected media w1) as (eb & Hb & Fb).
    assert (Hnone : filter is_announcement eb = []).
    { eapply filter_nothing; [|exact Fb]. simpl. intuition discriminate. }
    destruct (try_except (item_body module username selected media) (item_handlers media) w1)
      as [[[]|e] w2]; cbn [snd] in Hb.
    + specialize (IH (S start) w2). cbv zeta in IH.
      destruct IH as (er & k & Hr & Hk & Hok).
      exists (announcement total (start, media) :: eb ++ er), (S k).
      split; [|split].
      * rewrite Hr, Hb. unfold w1. cbn [trace]. now rewrite <- !app_assoc.
      * cbn [filter is_announcement line_of announcement Nat.eqb].
        rewrite filter_app, Hnone, Hk. reflexivity.
      * intros H. cbn [filter is_announcement line_of announcement Nat.eqb].
        rewrite filter_app, Hnone, (Hok H). reflexivity.
    + exists (announcement total (start, media) :: eb), 1.
      split; [|split].
      * cbn [snd]. rewrite Hb. unfold w1. cbn [trace]. now rewrite <- !app_assoc.
      * cbn [filter is_announcement line_of announcement Nat.eqb]. now rewrite Hnone.
      * discriminate.
Qed.

(** An exception that leaves a [try] statement whose handlers all return
    is one no clause names. *)
Lemma try_except_reraises {A} (m : M A) (clauses : list (list cls * (exn -> M A)))
  (w : world) (e : exn) :
  (forall i cs h e0 w0, nth_error clauses i = Some (cs, h) -> exists a w1, h e0 w0 = (Ok a, w1)) ->
  fst (try_except m clauses w) = Raise e ->
  select_clause (map fst clauses) e = None /\ fst (m w) = Raise e.
Proof.
  intros Hh. unfold try_except.
  destruct (m w) as [[a|e1] w1]; cbn [fst]; [discriminate|].
  destruct (select_clause (map fst clauses) e1) as [i|] eqn:Es.
  - destruct (nth_error clauses i) as [[cs h]|] eqn:En.
    + destruct (Hh i cs h e1 w1 En) as (a & w2 & Hok). rewrite Hok. discriminate.
    + cbn [fst]. intros H. inversion H; subst.
      exfalso. clear -Es En. revert i Es En.
      induction clauses as [|[cs h] cl IH]; intros i Es En; [discriminate|].
      cbn [map fst select_clause] in Es.
      destruct (isinstance e cs); [inversion Es; subst; discriminate|].
      destruct (select_clause (map fst cl) e) as [j|] eqn:Ej; [|discriminate].
      inversion Es; subst. cbn [nth_error] in En. now apply (IH j).
  - cbn [fst]. intros H. inversion H; subst. now split.
Qed.

Lemma item_raises module username selected total index media w e :
  fst (item module username selected total index media w) = Raise e ->
  isinstance e first_except = false.
Proof.
  unfold item. unfold bind at 1. unfold announce, emit. intros H.
  apply try_except_reraises in H.
  - destruct H as [Hs _]. cbn [item_handlers map fst select_clause] in Hs.
    fold first_except in Hs. now destruct (isinstance e first_except).
  - intros i cs h e0 w0 Hn.
    destruct i as [|[|[|i]]]; cbn in Hn; inversion Hn; subst;
      eexists _, _; reflexivity.
Qed.

(** X8: the loop never ends with [ReadTimeout], [CancelledError] or
    [SSLWantReadError], nor with an instance of them; the script never ends
    with [CancelledError] or [SSLWantReadError]. *)
Theorem caught_classes_never_escape :
  (forall module username selected total ids start w e,
      fst (for_each (item module username selected total) start ids w) = Raise e ->
      isinstance e first_except = false)
  /\ (forall module a w e,
        fst (cli module a w) = Raise e ->
        isinstance e [CancelledError; SSLWantReadError] = false).
Proof.
  split.
  - intros module username selected total ids.
    induction ids as [|media ids IH]; intros start w e; cbn [for_each].
    + discriminate.
    + unfold bind at 1.
      destruct (item module username selected total start media w) as [[[]|e1] w1] eqn:Ei.
      * apply IH.
      * cbn [fst]. intros H. inversion H; subst.
        apply (item_raises module username selected total start media w).
        now rewrite Ei.
  - intros module a w e. unfold cli.
    destruct (truthy (arg_username a) && _); [|discriminate].
    intros H. apply try_except_reraises in H.
    + destruct H as [Hs _]. cbn [cli_handlers map fst select_clause] in Hs.
      now destruct (isinstance e [CancelledError; SSLWantReadError]).
    + intros i cs h e0 w0 Hn.
      destruct i as [|[|i]]; cbn in Hn; inversion Hn; subst.
      eexists _, _; reflexivity.
Qed.

Lemma caught_classes_never_escape_witness :
  isinstance (mkExn ConnectionResetError "Connection reset by peer")
    [CancelledError; SSLWantReadError] = false.
Proof.
  apply (proj2 caught_classes_never_escape site_reset only_images home).
  reflexivity.
Defined.

(** ** Items and early ends *)

(** X9: an item whose record holds no image and no video is shown,
    reported as having nothing to download for what is selected, and
    followed by the pause of line 229; the disk is left exactly as it is:
    no directory is made, no download task is issued. *)
Theorem empty_record_touches_nothing module username selected media (c : content)
  (w : world) :
  get_media_content module media = Ok (Some c) ->
  m_images (c_media c) = [] ->
  m_videos (c_media c) = [] ->
  item_body module username selected media w
  = (Ok tt,
     mkWorld (root w) (cwd w)
       (trace w ++ [Scrape 184 "get_media_content" media;
                    ShowTable 187 "information" (c_info c)]
        ++ nothing_to_download selected ++ [Sleep 229 1])).
Proof.
  intros Hc Hi Hv. unfold item_body, call, nothing_to_download.
  unfold bind at 1. unfold bind at 1. unfold emit at 1. unfold lift. rewrite Hc.
  cbv zeta. rewrite Hi, Hv.
  destruct (In_b "images" selected);
    destruct (In_b "videos" selected || In_b "thumbnails" selected);
    unfold bind, emit, ret; cbn [root cwd trace app];
    rewrite <- !app_assoc; reflexivity.
Qed.

Lemma empty_record_touches_nothing_witness :
  item_body (site_of caption_only) "alice" ["images"; "videos"; "thumbnails"] "p1" home
  = (Ok tt,
     mkWorld (root home) (cwd home)
       (trace home ++ [Scrape 184 "get_media_content" "p1";
                       ShowTable 187 "information" (c_info caption_only)]
        ++ nothing_to_download ["images"; "videos"; "thumbnails"] ++ [Sleep 229 1])).
Proof.
  apply (empty_record_touches_nothing (site_of caption_only) "alice"
           ["images"; "videos"; "thumbnails"] "p1" caption_only home); reflexivity.
Defined.

(** X10: when thumbnails are selected and the first video of an item
    has no thumbnail URL (and no image comes before it), the assertion of
    line 51 fails, no clause of the loop names [AssertionError], and the
    loop ends there with it: the remaining items are not looked at. *)
Theorem missing_thumbnail_ends_the_loop module username selected total start media
  (rest : list string) (c : content) (v : video) (vs : list video) (w : world) :
  get_media_content module media = Ok (Some c) ->
  In_b "images" selected = false \/ m_images (c_media c) = [] ->
  In_b "thumbnails" selected = true ->
  m_videos (c_media c) = v :: vs ->
  v_thumbnail v = None ->
  let res := for_each (item module username selected total) start (media :: rest) w in
  fst res = Raise (mkExn AssertionError "Stopped, no URL to download.")
  /\ exists evs,
       trace (snd res)
       = trace w ++ announcement total (start, media) :: evs
           ++ [Log 210 INFO ("Downloading thumbnails (1 of "
                             ++ str_nat (List.length (v :: vs)) ++ ")")%string]
       /\ filter is_announcement evs = [].
Proof.
  intros Hc Hi Ht Hv Hn. cbv zeta.
  set (w1 := mkWorld (root w) (cwd w) (trace w ++ [announcement total (start, media)])).
  assert (Hstep :
    for_each (item module username selected total) start (media :: rest) w
    = let (r, w2) := try_except (item_body module username selected media)
                       (item_handlers media) w1 in
      match r with
      | Ok _ => for_each (item module username selected total) (S start) rest w2
      | Raise e => (Raise e, w2)
      end) by reflexivity.
  rewrite Hstep. clear Hstep.
  assert (Hbody : exists evs,
             item_body module username selected media w1
             = (Raise (mkExn AssertionError "Stopped, no URL to download."),
                mkWorld (root w1) (cwd w1)
                  (trace w1 ++ evs
                   ++ [Log 210 INFO ("Downloading thumbnails (1 of "
                                     ++ str_nat (List.length (v :: vs)) ++ ")")%string]))
             /\ filter is_announcement evs = []).
  { unfold item_body, call.
    unfold bind at 1. unfold bind at 1. unfold emit at 1. unfold lift. rewrite Hc.
    cbv zeta. rewrite Hv, Ht, orb_true_r.
    destruct Hi as [Hi|Hi]; rewrite Hi; [|destruct (In_b "images" selected)];
      cbn [for_each]; rewrite Hn;
      unfold bind, emit, lift, ret, raise, _download_media; cbn [root cwd trace];
      [eexists [_; _; _]|eexists [_; _; _; _]|eexists [_; _; _]];
      (split; [rewrite <- !app_assoc; reflexivity|reflexivity]). }
  destruct Hbody as (evs & Hb & Hf).
  unfold try_except. rewrite Hb.
  change (select_clause (map fst (item_handlers media))
            (mkExn AssertionError "Stopped, no URL to download.")) with (@None nat).
  cbn [fst snd]. split; [reflexivity|].
  exists evs. split; [|exact Hf].
  unfold w1. cbn [root cwd trace]. now rewrite <- !app_assoc.
Qed.

Lemma missing_thumbnail_ends_the_loop_witness :
  let res := for_each (item (site_of no_thumbnail) "alice" ["thumbnails"] 2) 1
               ["p1"; "p2"] home in
  fst res = Raise (mkExn AssertionError "Stopped, no URL to download.")
  /\ exists evs,
       trace (snd res)
       = trace home ++ announcement 2 (1, "p1") :: evs
           ++ [Log 210 INFO ("Downloading thumbnails (1 of "
                             ++ str_nat (List.length [mkVideo (Some v1_mp4) None])
                             ++ ")")%string]
       /\ filter is_announcement evs = [].
Proof.
  apply (missing_thumbnail_ends_the_loop (site_of no_thumbnail) "alice" ["thumbnails"] 2 1
           "p1" ["p2"] no_thumbnail (mkVideo (Some v1_mp4) None) [] home);
    try reflexivity.
  now left.
Defined.

(** X11: when the profile is not found, [_main] asks for nothing more:
    after the request for the profile it logs the warning of line 166 and
    returns, the disk as it was; the media are not enumerated.  The script,
    its gate open, does the same. *)
Theorem unknown_profile_ends_the_run (module : Picuki) (kwargs : args) (w : world) :
  let username := clear_username module (arg_username kwargs) in
  get_profile module username = Ok None ->
  _main module kwargs w
  = (Ok tt,
     mkWorld (root w) (cwd w)
       (trace w ++ level_events kwargs
        ++ [Scrape 163 "get_profile" username;
            Log 166 WARNING
              ("Cannot find user: @" ++ username ++ ", check the username")%string]))
  /\ (gate kwargs = true -> cli module kwargs w = _main module kwargs w).
Proof.
  intros username Hp.
  assert (Hmain : _main module kwargs w
                  = (Ok tt,
                     mkWorld (root w) (cwd w)
                       (trace w ++ level_events kwargs
                        ++ [Scrape 163 "get_profile" username;
                            Log 166 WARNING
                              ("Cannot find user: @" ++ username
                               ++ ", check the username")%string]))).
  { unfold _main, call, level_events. cbv zeta. fold username. rewrite Hp.
    destruct (arg_verbose kwargs); unfold bind, emit, lift, ret; cbn [root cwd trace app];
      rewrite <- ?app_assoc; reflexivity. }
  split; [exact Hmain|].
  intros Hg. unfold cli. fold (gate kwargs). rewrite Hg.
  unfold try_except. now rewrite Hmain.
Qed.

Lemma unknown_profile_ends_the_run_witness :
  _main site (mkArgs (Some "ghost") true false false false false) home
  = (Ok tt,
     mkWorld (root home) (cwd home)
       (trace home ++ level_events (mkArgs (Some "ghost") true false false false false)
        ++ [Scrape 163 "get_profile" "ghost";
            Log 166 WARNING ("Cannot find user: @" ++ "ghost" ++ ", check the username")%string]))
  /\ (gate (mkArgs (Some "ghost") true false false false false) = true ->
      cli site (mkArgs (Some "ghost") true false false false false) home
      = _main site (mkArgs (Some "ghost") true false false false false) home).
Proof.
  apply (unknown_profile_ends_the_run site
           (mkArgs (Some "ghost") true false false false false) home).
  reflexivity.
Defined.

(** X12: when the profile is found and has no post, line 175 asks the
    pair unpacked at line 169 for its attribute [get]: [_main] raises
    [AttributeError] right after the enumeration, the warning of line 175
    is not logged and no summary is shown; no clause of the script names
    the exception, so the script ends with it. *)
Theorem profile_without_posts_raises (module : Picuki) (kwargs : args) (w : world)
  (page : string) (result : table) :
  let username := clear_username module (arg_username kwargs) in
  get_profile module username = Ok (Some (page, result)) ->
  get_media_id module page = Ok [] ->
  _main module kwargs w
  = (Raise (mkExn AttributeError "'tuple' object has no attribute 'get'"),
     mkWorld (root w) (cwd w)
       (trace w ++ level_events kwargs
        ++ [Scrape 163 "get_profile" username;
            ShowTable 170 "information" result;
            Scrape 172 "get_media_id" page]))
  /\ (gate kwargs = true -> cli module kwargs w = _main module kwargs w).
Proof.
  intros username Hp Hm.
  assert (Hmain : _main module kwargs w
                  = (Raise (mkExn AttributeError "'tuple' object has no attribute 'get'"),
                     mkWorld (root w) (cwd w)
                       (trace w ++ level_events kwargs
                        ++ [Scrape 163 "get_profile" username;
                            ShowTable 170 "information" result;
                            Scrape 172 "get_media_id" page]))).
  { unfold _main, download_phase, call, level_events. cbv zeta. fold username.
    rewrite Hp.
    destruct (arg_verbose kwargs); unfold bind, emit, lift, ret, raise;
      cbn [root cwd trace app]; rewrite Hm; rewrite <- ?app_assoc; reflexivity. }
  split; [exact Hmain|].
  intros Hg. unfold cli. fold (gate kwargs). rewrite Hg.
  unfold try_except. now rewrite Hmain.
Qed.

Lemma profile_without_posts_raises_witness :
  _main site_no_post only_images home
  = (Raise (mkExn AttributeError "'tuple' object has no attribute 'get'"),
     mkWorld (root home) (cwd home)
       (trace home ++ level_events only_images
        ++ [Scrape 163 "get_profile" "alice";
            ShowTable 170 "information" [("username", CStr "alice")];
            Scrape 172 "get_media_id" "page0"]))
  /\ (gate only_images = true ->
      cli site_no_post only_images home = _main site_no_post only_images home).
Proof.
  apply (profile_without_posts_raises site_no_post only_images home "page0"
           [("username", CStr "alice")]); reflexivity.
Defined.

(** ** [_download_file_async] *)

Lemma download_file_split (net : network) (url filename : string) (w : world) :
  _download_file_async net url filename w
  = try_except (after_request net url filename) timeout_handlers
      (mkWorld (root w) (cwd w) (trace w ++ [HttpGet 77 url])).
Proof. reflexivity. Qed.

Section DownloadFile.
Variable R : world -> world -> Prop.
Hypothesis R_refl : forall w, R w w.
Hypothesis R_trans : forall w1 w2 w3, R w1 w2 -> R w2 w3 -> R w1 w3.
Variable F : event -> Prop.
Hypothesis R_emit : forall ev w, F ev -> R w (snd (emit ev w)).
Hypothesis F_lines :
  forall ev, In (line_of ev) [101; 104; 107] -> is_http ev = false -> F ev.
Variable net : network.
Variables url filename : string.
Hypothesis R_open :
  forall p, target_of net url filename = Some p -> respects R (Os.open_wb p).
Hypothesis R_write :
  forall p c, target_of net url filename = Some p -> respects R (Os.write p c).

Lemma write_chunks_respects (p : string) (cs : list string) :
  target_of net url filename = Some p -> respects R (write_chunks p cs).
Proof.
  intros Hp. induction cs as [|c cs IH]; cbn [write_chunks].
  - now apply respects_ret.
  - apply respects_bind; [assumption|now apply R_write|]. intros _.
    apply respects_bind; [assumption| |intros _; exact IH].
    apply (respects_emit R F R_emit), F_lines; [simpl; auto|reflexivity].
Qed.

Lemma after_request_respects : respects R (after_request net url filename).
Proof.
  unfold after_request.
  assert (Ht := eq_refl (target_of net url filename)).
  unfold target_of at 2 in Ht.
  destruct (net url) as [response|e]; unfold lift.
  - unfold bind at 1. intros w. cbn [fst snd].
    destruct (content_type response) as [extension|]; [|apply R_refl].
    destruct (extension =? "")%string; [apply R_refl|].
    cbv zeta. revert w.
    apply respects_bind; [assumption|now apply R_open|]. intros _.
    apply respects_bind; [assumption|now apply write_chunks_respects|]. intros _.
    apply respects_bind; [assumption| |intros _].
    + destruct (body_error response); [now apply respects_raise|now apply respects_ret].
    + apply (respects_emit R F R_emit), F_lines; [simpl; auto|reflexivity].
  - intros w. apply R_refl.
Qed.

Lemma guarded_request_respects :
  respects R (try_except (after_request net url filename) timeout_handlers).
Proof.
  apply respects_try; [assumption|apply after_request_respects|].
  intros e i cs h _ Hn.
  destruct i as [|[|i]]; simpl in Hn; inversion Hn; subst.
  apply (respects_emit R F R_emit), F_lines; [simpl; auto|reflexivity].
Qed.
End DownloadFile.

Lemma adds_store (F : event -> Prop) (p : string) :
  respects (adds F) (Os.open_wb p) /\ forall c, respects (adds F) (Os.write p c).
Proof.
  split; [|intros c]; intros w; unfold Os.open_wb, Os.write;
    match goal with
    | |- context [Os.store ?r ?cs ?f] => destruct (Os.store r cs f)
    end; try apply adds_refl;
    exists []; (split; [cbn; now rewrite app_nil_r|constructor]).
Qed.

(** X13: a call of [_download_file_async] makes one request and no
    more, whatever the answer: the first event it adds is the request for
    the URL, and no other event it adds is a request. *)
Theorem download_makes_one_request (net : network) (url filename : string) (w : world) :
  exists evs,
    trace (snd (_download_file_async net url filename w))
    = trace w ++ HttpGet 77 url :: evs
    /\ Forall (fun ev => is_http ev = false) evs.
Proof.
  rewrite download_file_split.
  set (F := fun ev => is_http ev = false).
  destruct (guarded_request_respects (adds F) (adds_refl F) (adds_trans F) F (adds_emit F))
    with (net := net) (url := url) (filename := filename)
         (w := mkWorld (root w) (cwd w) (trace w ++ [HttpGet 77 url]))
    as (evs & Ht & HF).
  - intros ev _ H. exact H.
  - intros p _. apply adds_store.
  - intros p c _. apply adds_store.
  - exists evs. split; [|exact HF].
    rewrite Ht. cbn [trace]. now rewrite <- app_assoc.
Qed.

(** Writing at [comps] changes no other regular file. *)
Lemma store_frame (comps : list string) (change : option string -> string) :
  forall n n', Os.store n comps change = Ok n' ->
    forall p d, p <> comps ->
      (Os.lookup n' p = Some (File d) <-> Os.lookup n p = Some (File d)).
Proof.
  induction comps as [|c rest IH]; intros n n' H p d Hp.
  - destruct n; discriminate.
  - destruct n as [|wr es]; [discriminate|].
    destruct rest as [|c' rest'].
    + simpl in H. destruct p as [|c0 q]; [destruct (Os.assoc c es) as [[|]|];
        try destruct wr; inversion H; subst; simpl; split; discriminate|].
      destruct (Os.assoc c es) as [[d0|wr' es']|] eqn:Ec.
      * inversion H; subst; clear H. simpl.
        destruct (String.eqb_spec c0 c) as [->|Hne].
        -- rewrite assoc_replace_same by congruence. rewrite Ec.
           destruct q; [congruence|]. simpl. split; discriminate.
        -- now rewrite assoc_replace_other.
      * discriminate.
      * destruct wr; inversion H; subst; clear H. simpl. rewrite assoc_app.
        destruct (Os.assoc c0 es) as [y|] eqn:E0; [reflexivity|]. simpl.
        destruct (String.eqb_spec c0 c) as [->|Hne]; [|reflexivity].
        destruct q; [congruence|]. simpl. split; discriminate.
    + rewrite store_cons in H.
      destruct (Os.assoc c es) as [sub|] eqn:Ec; [|discriminate].
      destruct (Os.store sub (c' :: rest') change) as [sub'|] eqn:Es; inversion H; subst.
      destruct p as [|c0 q]; [simpl; split; discriminate|]. simpl.
      destruct (String.eqb_spec c0 c) as [->|Hne].
      * rewrite assoc_replace_same by congruence. rewrite Ec.
        apply (IH _ _ Es). congruence.
      * now rewrite assoc_replace_other.
Qed.

Lemma changes_only_store (here p : string) (change : option string -> string) (w : world) :
  changes_only here (Some (PosixPath.components here p)) w
    (snd (match Os.store (root w) (PosixPath.components (cwd w) p) change with
          | Ok r => (Ok tt, mkWorld r (cwd w) (trace w))
          | Raise e => (Raise e, w)
          end)).
Proof.
  intros Hc.
  destruct (Os.store (root w) (PosixPath.components (cwd w) p) change) as [r|e] eqn:Es;
    cbn [snd cwd root]; (split; [exact Hc|]); [|reflexivity].
  intros q d Hq. rewrite Hc in Es. apply (store_frame _ _ _ _ Es). congruence.
Qed.

(** X14: a call of [_download_file_async] changes at most one regular
    file, the one of line 82 ([filename], a dot, the last piece of the
    content type): every other path holds the same file, with the same
    content, as before the call, and the working directory is kept. *)
Theorem download_changes_one_file (net : network) (url filename : string) (w : world)
  (p : list string) (d : string) :
  let w' := snd (_download_file_async net url filename w) in
  Some p <> option_map (PosixPath.components (cwd w)) (target_of net url filename) ->
  cwd w' = cwd w
  /\ (Os.lookup (root w') p = Some (File d) <-> Os.lookup (root w) p = Some (File d)).
Proof.
  cbv zeta. intros Hp. rewrite download_file_split.
  set (T := option_map (PosixPath.components (cwd w)) (target_of net url filename)) in *.
  set (R := changes_only (cwd w) T).
  assert (Hr : forall w0, R w0 w0) by (intros w0 Hc; split; [exact Hc|reflexivity]).
  assert (Ht : forall w1 w2 w3, R w1 w2 -> R w2 w3 -> R w1 w3).
  { intros w1 w2 w3 H12 H23 Hc. destruct (H12 Hc) as [Hc2 H2].
    destruct (H23 Hc2) as [Hc3 H3]. split; [exact Hc3|].
    intros q x Hq. rewrite (H3 q x Hq). now apply H2. }
  assert (He : forall ev w0, True -> R w0 (snd (emit ev w0))).
  { intros ev w0 _ Hc. split; [exact Hc|reflexivity]. }
  destruct (guarded_request_respects R Hr Ht (fun _ => True) He)
    with (net := net) (url := url) (filename := filename)
         (w := mkWorld (root w) (cwd w) (trace w ++ [HttpGet 77 url]))
    as [Hc Hf]; try reflexivity.
  - intros t Htarget w0. unfold R, T. rewrite Htarget. apply changes_only_store.
  - intros t c Htarget w0. unfold R, T. rewrite Htarget. apply changes_only_store.
  - split; [exact Hc|]. now apply Hf.
Qed.

Lemma download_changes_one_file_witness :
  let w' := snd (_download_file_async (fun _ => Ok jpeg_response) p1_jpg "/home/u/dl/2d31"
                   home_with_image) in
  cwd w' = cwd home_with_image
  /\ (Os.lookup (root w')
        ["home"; "u"; "images"; "alice"; "images"; "2d31c4d947459b15bb41cb69944e2073.jpeg"]
      = Some (File "JFIF!")
      <-> Os.lookup (root home_with_image)
            ["home"; "u"; "images"; "alice"; "images"; "2d31c4d947459b15bb41cb69944e2073.jpeg"]
          = Some (File "JFIF!")).
Proof.
  apply (download_changes_one_file (fun _ => Ok jpeg_response) p1_jpg "/home/u/dl/2d31"
           home_with_image).
  vm_compute. discriminate.
Defined.

(** X15: [_download_file_async] never ends with a timeout: an exception
    that leaves it is no instance of [asyncio.TimeoutError]. *)
Theorem download_never_raises_a_timeout (net : network) (url filename : string)
  (w : world) (e : exn) :
  fst (_download_file_async net url filename w) = Raise e ->
  isinstance e [TimeoutError] = false.
Proof.
  rewrite download_file_split. intros H.
  apply try_except_reraises in H.
  - destruct H as [Hs _]. cbn [timeout_handlers map fst select_clause] in Hs.
    now destruct (isinstance e [TimeoutError]).
  - intros i cs h e0 w0 Hn.
    destruct i as [|[|i]]; cbn in Hn; inversion Hn; subst.
    eexists _, _; reflexivity.
Qed.

Lemma download_never_raises_a_timeout_witness :
  isinstance (mkExn ValueError ("Cannot get mimetype of content: " ++ p1_jpg)%string)
    [TimeoutError] = false.
Proof.
  apply (download_never_raises_a_timeout (fun _ => Ok no_type_response) p1_jpg
           "/home/u/dl/2d31" home_with_folder).
  reflexivity.
Defined.

(** The loop of lines 99-101 reports each chunk it appends. *)
Lemma write_chunks_reports (filename : string) (cs : list string) :
  forall w d,
    PosixPath.components (cwd w) filename <> [] ->
    Os.lookup (root w) (PosixPath.components (cwd w) filename) = Some (File d) ->
    exists r,
      write_chunks filename cs w = (Ok tt, mkWorld r (cwd w) (trace w ++ progress_of cs))
      /\ Os.lookup r (PosixPath.components (cwd w) filename)
         = Some (File (d ++ body_of cs)).
Proof.
  induction cs as [|c cs IH]; intros w d Hne Hl.
  - exists (root w). simpl. rewrite app_nil_r, append_empty_r.
    split; [now destruct w|exact Hl].
  - destruct (store_existing _ (fun old => match old with
                                           | Some d0 => (d0 ++ c)%string
                                           | None => c
                                           end) _ _ Hne Hl) as (r1 & Es & El).
    destruct (IH (mkWorld r1 (cwd w) (trace w ++ [Progress 101 (String.length c)]))
                (d ++ c)%string Hne El) as (r & Hw & Hr).
    cbn [root cwd trace] in Hw, Hr.
    exists r. split.
    + cbn [write_chunks]. unfold bind, Os.write, emit. rewrite Es.
      cbn [root cwd trace]. rewrite Hw.
      cbn [progress_of map]. now rewrite <- app_assoc.
    + rewrite Hr. cbn [body_of fold_right]. now rewrite append_assoc_str.
Qed.

(** A download whose file can be opened, case by case of how the stream ends. *)
Lemma download_run (net : network) (url filename : string) (w : world)
  (response : response) (type subtype : string) (r : node) :
  net url = Ok response ->
  content_type response = Some (type ++ "/" ++ subtype)%string ->
  no_sep subtype = true ->
  Os.store (root w) (PosixPath.components (cwd w) (saved_as filename subtype))
    (fun _ => "") = Ok r ->
  exists r3,
    Os.lookup r3 (PosixPath.components (cwd w) (saved_as filename subtype))
    = Some (File (body_of (chunks response)))
    /\ _download_file_async net url filename w
       = match body_error response with
         | None =>
             (Ok tt,
              mkWorld r3 (cwd w)
                (trace w ++ [HttpGet 77 url] ++ progress_of (chunks response)
                 ++ [Print 104 ("[green] Completed.. saved as: [blue]"
                                ++ saved_as filename subtype)%string]))
         | Some e =>
             if isinstance e [TimeoutError]
             then (Ok tt,
                   mkWorld r3 (cwd w)
                     (trace w ++ [HttpGet 77 url] ++ progress_of (chunks response)
                      ++ [Print 107 "[red]Download timed out."]))
             else (Raise e,
                   mkWorld r3 (cwd w)
                     (trace w ++ [HttpGet 77 url] ++ progress_of (chunks response)))
         end.
Proof.
  intros Hnet Hct Hsub Hopen.
  destruct (store_opened _ _ _ _ Hopen) as (Hne & _).
  pose proof (store_truncates _ _ _ Hopen) as Hl.
  destruct (write_chunks_reports (saved_as filename subtype) (chunks response)
              (mkWorld r (cwd w) (trace w ++ [HttpGet 77 url])) ""
              Hne Hl) as (r3 & Hw & Hr).
  cbn [root cwd trace String.append] in Hw, Hr.
  exists r3. split; [exact Hr|].
  unfold _download_file_async, try_except.
  unfold bind at 1. unfold emit at 1.
  unfold bind at 1. unfold lift. rewrite Hnet, Hct, type_subtype_not_empty.
  rewrite (last_split_subtype _ _ Hsub). fold (saved_as filename subtype).
  unfold bind at 1. unfold Os.open_wb. cbn [root cwd trace]. rewrite Hopen.
  unfold bind at 1. rewrite Hw.
  destruct (body_error response) as [e|].
  - unfold bind at 1. unfold raise. cbn [map fst select_clause].
    destruct (isinstance e [TimeoutError]); cbn [option_map nth_error].
    + unfold emit. cbn [root cwd trace]. now rewrite <- !app_assoc.
    + now rewrite <- !app_assoc.
  - unfold bind, ret, emit. cbn [root cwd trace]. now rewrite <- !app_assoc.
Qed.

(** X16: when the stream of a download ends with an exception, what was
    received stays on the disk, in [filename.subtype]; a timeout is
    reported by the message of line 107 and the call returns, any other
    exception leaves the call; in neither case is the message of line 104
    printed. *)
Theorem broken_stream_leaves_the_partial_file (net : network) (url filename : string)
  (w : world) (response : response) (type subtype : string) (r : node) (e : exn) :
  net url = Ok response ->
  content_type response = Some (type ++ "/" ++ subtype)%string ->
  no_sep subtype = true ->
  Os.store (root w) (PosixPath.components (cwd w) (saved_as filename subtype))
    (fun _ => "") = Ok r ->
  body_error response = Some e ->
  let res := _download_file_async net url filename w in
  read_file (snd res) (saved_as filename subtype) = Some (body_of (chunks response))
  /\ fst res = (if isinstance e [TimeoutError] then Ok tt else Raise e)
  /\ trace (snd res)
     = trace w ++ [HttpGet 77 url] ++ progress_of (chunks response)
       ++ (if isinstance e [TimeoutError]
           then [Print 107 "[red]Download timed out."] else []).
Proof.
  intros Hnet Hct Hsub Hopen He. cbv zeta.
  destruct (download_run net url filename w response type subtype r Hnet Hct Hsub Hopen)
    as (r3 & Hl & Hrun).
  rewrite Hrun, He.
  destruct (isinstance e [TimeoutError]); cbn [fst snd trace];
    (split; [|split; [reflexivity|]]).
  - unfold read_file, Os.stat. rewrite saved_as_not_empty. cbn [root cwd]. now rewrite Hl.
  - reflexivity.
  - unfold read_file, Os.stat. rewrite saved_as_not_empty. cbn [root cwd]. now rewrite Hl.
  - now rewrite app_nil_r.
Qed.

Lemma broken_stream_leaves_the_partial_file_witness :
  let response := mkResponse (Some "image/jpeg") 5 ["JF"] (Some (mkExn TimeoutError "")) in
  let res := _download_file_async (fun _ => Ok response) p1_jpg "/home/u/dl/2d31"
               home_with_folder in
  read_file (snd res) (saved_as "/home/u/dl/2d31" "jpeg") = Some (body_of (chunks response))
  /\ fst res = (if isinstance (mkExn TimeoutError "") [TimeoutError]
                then Ok tt else Raise (mkExn TimeoutError ""))
  /\ trace (snd res)
     = trace home_with_folder ++ [HttpGet 77 p1_jpg] ++ progress_of (chunks response)
       ++ (if isinstance (mkExn TimeoutError "") [TimeoutError]
           then [Print 107 "[red]Download timed out."] else []).
Proof.
  apply (broken_stream_leaves_the_partial_file
           (fun _ => Ok (mkResponse (Some "image/jpeg") 5 ["JF"] (Some (mkExn TimeoutError ""))))
           p1_jpg "/home/u/dl/2d31" home_with_folder
           (mkResponse (Some "image/jpeg") 5 ["JF"] (Some (mkExn TimeoutError "")))
           "image" "jpeg"
           (Dir true [("home", Dir true [("u", Dir true
              [("dl", Dir true [("2d31.jpeg", File "")])])])])
           (mkExn TimeoutError ""));
    reflexivity.
Defined.

Lemma string_length_app (a b : string) :
  String.length (a ++ b) = String.length a + String.length b.
Proof. induction a as [|x a IH]; [reflexivity|]. simpl. now rewrite IH. Qed.

Lemma progress_total (cs : list string) :
  list_sum (map advance_of (progress_of cs)) = String.length (body_of cs).
Proof.
  induction cs as [|c cs IH]; [reflexivity|].
  change (progress_of (c :: cs)) with (Progress 101 (String.length c) :: progress_of cs).
  change (body_of (c :: cs)) with (c ++ body_of cs)%string.
  cbn [map advance_of]. unfold list_sum in *. cbn [fold_right].
  now rewrite IH, string_length_app.
Qed.

(** X17: a download that completes adds, in this order, the request,
    one progress event per chunk and the message of line 104; the bytes
    the progress events advance by add up to the size of the stored file. *)
Theorem completed_download_accounts_for_every_byte (net : network) (url filename : string)
  (w : world) (response : response) (type subtype : string) (r : node) :
  net url = Ok response ->
  content_type response = Some (type ++ "/" ++ subtype)%string ->
  no_sep subtype = true ->
  Os.store (root w) (PosixPath.components (cwd w) (saved_as filename subtype))
    (fun _ => "") = Ok r ->
  body_error response = None ->
  let res := _download_file_async net url filename w in
  fst res = Ok tt
  /\ trace (snd res)
     = trace w ++ [HttpGet 77 url] ++ progress_of (chunks response)
       ++ [Print 104 ("[green] Completed.. saved as: [blue]"
                      ++ saved_as filename subtype)%string]
  /\ exists stored,
       Os.stat (snd res) (saved_as filename subtype) = Some stored
       /\ Os.st_size stored
          = Z.of_nat (list_sum (map advance_of (progress_of (chunks response)))).
Proof.
  intros Hnet Hct Hsub Hopen He. cbv zeta.
  destruct (download_run net url filename w response type subtype r Hnet Hct Hsub Hopen)
    as (r3 & Hl & Hrun).
  rewrite Hrun, He. cbn [fst snd trace]. repeat split.
  exists (File (body_of (chunks response))). split.
  - unfold Os.stat. rewrite saved_as_not_empty. cbn [root cwd]. exact Hl.
  - cbn [Os.st_size]. now rewrite progress_total.
Qed.

Lemma completed_download_accounts_for_every_byte_witness :
  let res := _download_file_async (fun _ => Ok jpeg_response) p1_jpg "/home/u/dl/2d31"
               home_with_folder in
  fst res = Ok tt
  /\ trace (snd res)
     = trace home_with_folder ++ [HttpGet 77 p1_jpg] ++ progress_of (chunks jpeg_response)
       ++ [Print 104 ("[green] Completed.. saved as: [blue]"
                      ++ saved_as "/home/u/dl/2d31" "jpeg")%string]
  /\ exists stored,
       Os.stat (snd res) (saved_as "/home/u/dl/2d31" "jpeg") = Some stored
       /\ Os.st_size stored
          = Z.of_nat (list_sum (map advance_of (progress_of (chunks jpeg_response)))).
Proof.
  apply (completed_download_accounts_for_every_byte (fun _ => Ok jpeg_response) p1_jpg
           "/home/u/dl/2d31" home_with_folder jpeg_response "image" "jpeg"
           (Dir true [("home", Dir true [("u", Dir true
              [("dl", Dir true [("2d31.jpeg", File "")])])])]));
    reflexivity.
Defined.

(** ** The summary, exactly *)

Lemma sizes_eq (t i v th t' i' v' th' : Z) :
  t = t' -> i = i' -> v = v' -> th = th' ->
  @Ok dict (sizes t i v th) = Ok (sizes t' i' v' th').
Proof. now intros -> -> -> ->. Qed.

Lemma dir_bytes_cons (x : string * node) (files : list (string * node)) :
  dir_bytes (x :: files) = (Os.st_size (snd x) + dir_bytes files)%Z.
Proof. reflexivity. Qed.

Ltac add_files_case :=
  let files := fresh "files" in
  let IH := fresh "IH" in
  intros files; unfold sizes; induction files as [|[? ?] files IH]; intros ? ? ? ?;
  [ cbn [add_files]; change (dir_bytes []) with 0%Z; apply sizes_eq; lia
  | cbn [add_files]; unfold dict_add;
    cbn [Os.assoc Os.replace String.eqb Ascii.eqb Bool.eqb];
    rewrite IH; rewrite !dir_bytes_cons; cbn [snd]; apply sizes_eq; lia ].

Lemma add_files_exact (name : string) :
  In name all_keys ->
  forall files t i v th,
    add_files name files (sizes t i v th)
    = Ok (sizes (t + dir_bytes files + (if (name =? "total")%string then dir_bytes files else 0))
            (i + (if (name =? "images")%string then dir_bytes files else 0))
            (v + (if (name =? "videos")%string then dir_bytes files else 0))
            (th + (if (name =? "thumbnails")%string then dir_bytes files else 0)))%Z.
Proof.
  intros Hin.
  destruct Hin as [<-|[<-|[<-|[<-|[]]]]]; cbn [String.eqb Ascii.eqb Bool.eqb];
    add_files_case.
Qed.

Lemma bytes_under_key (key name : string) (wr : bool) (files : list (string * node))
  (tops : list (string * node)) :
  bytes_under key ((name, Dir wr files) :: tops)
  = ((if (name =? key)%string then dir_bytes files else 0) + bytes_under key tops)%Z.
Proof. reflexivity. Qed.

Lemma scan_exact (tops : list (string * node)) :
  Forall (fun g => is_dir (snd g) = true
                   /\ (In (fst g) all_keys \/ is_empty_dir (snd g) = true)) tops ->
  forall t i v th,
    scan tops (sizes t i v th)
    = Ok (sizes (t + bytes_under "images" tops + bytes_under "videos" tops
                 + bytes_under "thumbnails" tops + 2 * bytes_under "total" tops)
            (i + bytes_under "images" tops)
            (v + bytes_under "videos" tops)
            (th + bytes_under "thumbnails" tops))%Z.
Proof.
  induction 1 as [|[name g] tops [Hd Hk] _ IH]; intros t i v th.
  - cbn [scan bytes_under]. unfold sizes. apply sizes_eq; lia.
  - simpl in Hd, Hk. destruct g as [data|wr files]; [discriminate|]. cbn [scan].
    rewrite !bytes_under_key.
    destruct Hk as [Hk|He].
    + rewrite (add_files_exact name Hk), IH.
      destruct Hk as [<-|[<-|[<-|[<-|[]]]]]; cbn [String.eqb Ascii.eqb Bool.eqb];
        unfold sizes; apply sizes_eq; lia.
    + destruct files; [|discriminate]. cbn [add_files]. rewrite IH.
      change (dir_bytes []) with 0%Z.
      destruct (name =? "images")%string, (name =? "videos")%string,
        (name =? "thumbnails")%string, (name =? "total")%string;
        unfold sizes; apply sizes_eq; lia.
Qed.

(** X18: when every top-level entry of the user's directory is a
    directory that is named after one of the four keys or is empty (and so
    when the user has no directory at all), [calculate_total_size] gives,
    for each category, the sizes of the entries of the directories of that
    name added up, a sub-directory counting for its own size and not for
    what it holds; and for the total the three categories together, plus
    twice what a directory named [total] holds. *)
Theorem summary_adds_up_the_entries (w : world) (username : string) :
  let tops := top_level w username in
  Forall (fun g => is_dir (snd g) = true
                   /\ (In (fst g) all_keys \/ is_empty_dir (snd g) = true)) tops ->
  calculate_total_size w username
  = Ok (sizes (bytes_under "images" tops + bytes_under "videos" tops
               + bytes_under "thumbnails" tops + 2 * bytes_under "total" tops)
          (bytes_under "images" tops)
          (bytes_under "videos" tops)
          (bytes_under "thumbnails" tops))%Z.
Proof.
  intros tops H. unfold calculate_total_size. cbv zeta.
  fold (top_level w username). fold tops. fold (sizes 0 0 0 0).
  rewrite (scan_exact tops H). unfold sizes. apply sizes_eq; lia.
Qed.

Lemma summary_adds_up_the_entries_witness :
  let tops := top_level home_media "alice" in
  calculate_total_size home_media "alice"
  = Ok (sizes (bytes_under "images" tops + bytes_under "videos" tops
               + bytes_under "thumbnails" tops + 2 * bytes_under "total" tops)
          (bytes_under "images" tops)
          (bytes_under "videos" tops)
          (bytes_under "thumbnails" tops))%Z.
Proof.
  apply (summary_adds_up_the_entries home_media "alice").
  change (top_level home_media "alice")
    with [("images", Dir true [("a.jpeg", File "abcd"); ("b.jpeg", File "ab")]);
          ("videos", Dir true [("c.mp4", File "abcdefgh")])].
  repeat (constructor; [split; [reflexivity|left; simpl; auto]|]).
  constructor.
Defined.

(** X19: a category is selected when [--all] is set or its own flag
    is: [--all] overrides the three flags, and without it exactly the
    flagged categories are selected, in the order images, videos,
    thumbnails. *)
Theorem selection_follows_the_flags (a : args) :
  (forall c, In c media_keys -> In_b c (selection a) = arg_all a || kwargs_get a c)
  /\ (forall c, In c (selection a) -> In c media_keys)
  /\ selection a
     = filter (fun c => arg_all a || kwargs_get a c) media_keys.
Proof.
  assert (H : selection a = filter (fun c => arg_all a || kwargs_get a c) media_keys).
  { unfold selection, media_keys, kwargs_get. cbn [filter String.eqb Ascii.eqb Bool.eqb].
    destruct (arg_all a); cbn [negb orb]; reflexivity. }
  split; [|split; [|exact H]].
  - intros c Hc. rewrite H. unfold In_b.
    destruct (arg_all a || kwargs_get a c) eqn:E.
    + apply existsb_exists. exists c. split; [|apply String.eqb_refl].
      apply filter_In. now split.
    + destruct (existsb (String.eqb c) _) eqn:Ex; [|reflexivity].
      apply existsb_exists in Ex. destruct Ex as (x & Hx & Hcx).
      apply String.eqb_eq in Hcx. subst x.
      apply filter_In in Hx. destruct Hx as [_ Hx]. congruence.
  - intros c Hc. rewrite H in Hc. now apply filter_In in Hc.
Qed.



(** ** The pattern of [get_valid_filename] *)

Lemma greedy_star_ext {R} (a : atom) (k k' : string -> option R) :
  (forall s, k s = k' s) -> forall s, greedy_star a k s = greedy_star a k' s.
Proof.
  intros H s. induction s as [|c s IH]; cbn [greedy_star]; [apply H|].
  now rewrite IH, H.
Qed.

Lemma lazy_star_ext {R} (a : atom) (k k' : string -> option R) :
  (forall s, k s = k' s) -> forall s, lazy_star a k s = lazy_star a k' s.
Proof.
  intros H s. induction s as [|c s IH]; cbn [lazy_star]; rewrite H; [reflexivity|].
  now rewrite IH.
Qed.

Lemma exec_app {R} (ps1 ps2 : list piece) (k : list string -> string -> option R) :
  forall marks s,
    exec (ps1 ++ ps2) k marks s = exec ps1 (fun m s' => exec ps2 k m s') marks s.
Proof.
  induction ps1 as [|p ps1 IH]; intros marks s; [reflexivity|].
  cbn [app exec]. destruct p as [a|a|a|a|].
  - destruct s as [|c s]; [reflexivity|]. now rewrite IH.
  - destruct s as [|c s]; [apply IH|]. now rewrite !IH.
  - destruct s as [|c s]; [reflexivity|].
    destruct (accepts a c); [|reflexivity]. apply greedy_star_ext. intros s0. apply IH.
  - apply lazy_star_ext. intros s0. apply IH.
  - apply IH.
Qed.

Lemma greedy_star_sound {R} (a : atom) (k : string -> option R) (r : R) :
  forall s, greedy_star a k s = Some r ->
    exists m rest, s = (m ++ rest)%string /\ all_accept a m = true /\ k rest = Some r.
Proof.
  induction s as [|c s IH]; cbn [greedy_star]; intros H.
  - exists "", "". auto.
  - destruct (accepts a c) eqn:Ea.
    + destruct (greedy_star a k s) as [r'|] eqn:Eg.
      * inversion H; subst. destruct (IH eq_refl) as (m & rest & -> & Hm & Hk).
        exists (String c m), rest. cbn [String.append all_accept]. rewrite Ea, Hm. auto.
      * exists "", (String c s). auto.
    + exists "", (String c s). auto.
Qed.

Lemma lazy_star_sound {R} (a : atom) (k : string -> option R) (r : R) :
  forall s, lazy_star a k s = Some r ->
    exists m rest, s = (m ++ rest)%string /\ all_accept a m = true /\ k rest = Some r.
Proof.
  induction s as [|c s IH]; cbn [lazy_star]; intros H.
  - destruct (k "") eqn:Ek; [|discriminate]. exists "", "". split; [reflexivity|].
    split; [reflexivity|congruence].
  - destruct (k (String c s)) eqn:Ek.
    + exists "", (String c s). split; [reflexivity|]. split; [reflexivity|congruence].
    + destruct (accepts a c) eqn:Ea; [|discriminate].
      destruct (IH H) as (m & rest & -> & Hm & Hk).
      exists (String c m), rest. cbn [String.append all_accept]. rewrite Ea, Hm. auto.
Qed.

(** What the matcher takes, the pieces can take. *)
Lemma exec_sound {R} (ps : list piece) (k : list string -> string -> option R) (r : R) :
  forallb (fun p => negb (is_mark p)) ps = true ->
  forall marks s, exec ps k marks s = Some r ->
    exists consumed rest,
      s = (consumed ++ rest)%string /\ Takes ps consumed /\ k marks rest = Some r.
Proof.
  induction ps as [|p ps IH]; intros Hfree marks s H.
  - exists "", s. repeat split; [constructor|exact H].
  - cbn [forallb] in Hfree. apply andb_prop in Hfree. destruct Hfree as [Hp Hfree].
    specialize (IH Hfree). cbn [exec] in H. destruct p as [a|a|a|a|]; [| | | |discriminate].
    + destruct s as [|c s]; [discriminate|].
      destruct (accepts a c) eqn:Ea; [|discriminate].
      destruct (IH _ _ H) as (m & rest & -> & Hm & Hk).
      exists (String c m), rest. repeat split; [now constructor|exact Hk].
    + destruct s as [|c s].
      * destruct (IH _ _ H) as (m & rest & E & Hm & Hk).
        exists m, rest. repeat split; [exact E|now constructor|exact Hk].
      * destruct (accepts a c) eqn:Ea.
        -- destruct (exec ps k marks s) as [r'|] eqn:Ee.
           ++ inversion H; subst. destruct (IH _ _ Ee) as (m & rest & -> & Hm & Hk).
              exists (String c m), rest. repeat split; [now apply Takes_opt|exact Hk].
           ++ destruct (IH _ _ H) as (m & rest & E & Hm & Hk).
              exists m, rest. repeat split; [exact E|now constructor|exact Hk].
        -- destruct (IH _ _ H) as (m & rest & E & Hm & Hk).
           exists m, rest. repeat split; [exact E|now constructor|exact Hk].
    + destruct s as [|c s]; [discriminate|].
      destruct (accepts a c) eqn:Ea; [|discriminate].
      destruct (greedy_star_sound _ _ _ _ H) as (m & rest & -> & Hm & Hk).
      destruct (IH _ _ Hk) as (m' & rest' & -> & Hm' & Hk').
      exists (String c (m ++ m')), rest'. cbn [String.append].
      rewrite append_assoc_str. repeat split; [now constructor|exact Hk'].
    + destruct (lazy_star_sound _ _ _ _ H) as (m & rest & -> & Hm & Hk).
      destruct (IH _ _ Hk) as (m' & rest' & -> & Hm' & Hk').
      exists (m ++ m')%string, rest'.
      rewrite append_assoc_str. repeat split; [now constructor|exact Hk'].
Qed.

Lemma greedy_star_finds {R} (a : atom) (k : string -> option R) (s : string) :
  k s <> None -> greedy_star a k s <> None.
Proof.
  intros H. destruct s as [|c s]; cbn [greedy_star]; [exact H|].
  destruct (accepts a c); [|exact H].
  destruct (greedy_star a k s); [discriminate|exact H].
Qed.

Lemma greedy_star_complete {R} (a : atom) (k : string -> option R) (rest : string) :
  k rest <> None ->
  forall m, all_accept a m = true -> greedy_star a k (m ++ rest) <> None.
Proof.
  intros Hk m. induction m as [|c m IH]; intros Hm.
  - now apply greedy_star_finds.
  - cbn [all_accept] in Hm. apply andb_prop in Hm. destruct Hm as [Hc Hm].
    cbn [String.append greedy_star]. rewrite Hc.
    specialize (IH Hm). destruct (greedy_star a k (m ++ rest)); [discriminate|contradiction].
Qed.

Lemma lazy_star_complete {R} (a : atom) (k : string -> option R) (rest : string) :
  k rest <> None ->
  forall m, all_accept a m = true -> lazy_star a k (m ++ rest) <> None.
Proof.
  intros Hk m. induction m as [|c m IH]; intros Hm.
  - cbn [String.append]. destruct rest; cbn [lazy_star];
      match goal with |- context [k ?x] => destruct (k x) end;
      try discriminate; contradiction.
  - cbn [all_accept] in Hm. apply andb_prop in Hm. destruct Hm as [Hc Hm].
    cbn [String.append lazy_star]. rewrite Hc.
    destruct (k (String c (m ++ rest))); [discriminate|now apply IH].
Qed.

(** What the pieces can take, the matcher finds a way to take. *)
Lemma exec_complete {R} (k : list string -> string -> option R) (marks : list string)
  (rest : string) (ps : list piece) (consumed : string) :
  Takes ps consumed ->
  forallb (fun p => negb (is_mark p)) ps = true ->
  k marks rest <> None ->
  exec ps k marks (consumed ++ rest) <> None.
Proof.
  intros HT. induction HT as [|a c ps s Ha _ IH|a ps s _ IH|a c ps s Ha _ IH
                              |a c m ps s Ha Hm _ IH|a m ps s Hm _ IH|ps s _ IH];
    intros Hfree Hk; cbn [forallb] in Hfree;
    try (apply andb_prop in Hfree; destruct Hfree as [Hp Hfree]).
  - exact Hk.
  - cbn [String.append exec]. rewrite Ha. now apply IH.
  - cbn [exec]. specialize (IH Hfree Hk).
    destruct (s ++ rest)%string as [|c s0] eqn:E; [exact IH|].
    destruct (accepts a c); [|exact IH].
    destruct (exec ps k marks s0); [discriminate|exact IH].
  - cbn [String.append exec]. rewrite Ha. specialize (IH Hfree Hk).
    destruct (exec ps k marks (s ++ rest)); [discriminate|contradiction].
  - cbn [String.append exec]. rewrite Ha. rewrite append_assoc_str.
    apply greedy_star_complete; [now apply IH|exact Hm].
  - cbn [exec]. rewrite append_assoc_str.
    apply lazy_star_complete; [now apply IH|exact Hm].
  - discriminate.
Qed.

Lemma substring_prefix (a b : string) :
  substring 0 (String.length a) (a ++ b) = a.
Proof.
  induction a as [|c a IH]; cbn [String.length String.append substring].
  - now destruct b.
  - now rewrite IH.
Qed.

Lemma between_marks (name rest : string) :
  between [rest; (name ++ rest)%string] = Some name.
Proof.
  unfold between. rewrite string_length_app.
  replace (String.length name + String.length rest - String.length rest)
    with (String.length name) by lia.
  now rewrite substring_prefix.
Qed.

Ltac takes_inv :=
  repeat match goal with
         | H : Takes (_ :: _) _ |- _ => inversion H; subst; clear H
         | H : Takes [] _ |- _ => inversion H; subst; clear H
         | H : accepts (AChar _) _ = true |- _ =>
             cbn [accepts] in H; apply Ascii.eqb_eq in H; subst
         end.

(** A match of the pattern is a URL of the form, and the group is the name. *)
Lemma search_sound (url name : string) :
  search_filename url = Some name -> url_form url name.
Proof.
  unfold search_filename, url_pattern. intros H.
  rewrite exec_app in H.
  apply exec_sound in H; [|reflexivity].
  destruct H as (c1 & r1 & -> & H1 & H).
  cbn [app exec] in H.
  change (name_group ++ Mark :: after_name) with (name_group ++ [Mark] ++ after_name) in H.
  rewrite exec_app in H.
  apply exec_sound in H; [|reflexivity].
  destruct H as (c2 & r2 & -> & H2 & H).
  cbn [app exec] in H.
  apply exec_sound in H; [|reflexivity].
  destruct H as (c3 & r3 & -> & H3 & H).
  rewrite between_marks in H. inversion H; subst c2; clear H.
  cbv [before_name name_group after_name literal list_ascii_of_string map app] in H1, H2, H3.
  inversion H2 as [|a c ps t Hc Ht| | | | |]; subst; clear H2.
  inversion Ht as [| | | | |a m ps s Hm Hs|]; subst; clear Ht.
  inversion Hs; subst; clear Hs. rewrite append_empty_r in *.
  assert (Hq : c <> dquote).
  { intros ->. discriminate. }
  takes_inv;
    match goal with
    | Hh : accepts (ANot "<") ?h = true, Hm' : all_accept (ANot "<") ?m' = true
      |- url_form (String "h" (String "t" (String "t" (String "p" (String ":" _)))) ++ _) _ =>
        exists "", (String h m'), r3, c, m
    | Hh : accepts (ANot "<") ?h = true, Hm' : all_accept (ANot "<") ?m' = true
      |- url_form (String "h" (String "t" (String "t" (String "p" (String "s" _)))) ++ _) _ =>
        exists "s", (String h m'), r3, c, m
    end;
    (repeat split; auto; try discriminate;
     [ cbn [all_accept];
       match goal with
       | Hh : accepts (ANot "<") _ = true, Hm' : all_accept (ANot "<") _ = true |- _ =>
           now rewrite Hh, Hm'
       end
     | cbn [String.append]; now rewrite !append_assoc_str ]).
Qed.

Ltac take_one := apply Takes_one; [reflexivity|].

(** A URL of the form is matched, by some name. *)
Lemma search_complete (url name : string) :
  url_form url name -> search_filename url <> None.
Proof.
  intros (s & host & post & c & t & Hs & Hh & Hl & -> & Hq & Ht & ->).
  destruct host as [|h m]; [congruence|].
  cbn [all_accept] in Hl. apply andb_prop in Hl. destruct Hl as [Hh1 Hm].
  assert (Hc : accepts (ANot dquote) c = true).
  { cbn [accepts]. apply negb_true_iff. now apply Ascii.eqb_neq. }
  unfold search_filename, url_pattern.
  assert (Hname : forall marks,
             exec (name_group ++ [Mark] ++ after_name) (fun ms _ => between ms)
               ((String c t ++ "||" ++ post)%string :: marks)
               (String c t ++ "||" ++ post) <> None
             -> exec ([Mark] ++ name_group ++ [Mark] ++ after_name)
                  (fun ms _ => between ms) marks (String c t ++ "||" ++ post) <> None).
  { intros marks H. exact H. }
  assert (Hgroup : exec ([Mark] ++ name_group ++ [Mark] ++ after_name)
                     (fun ms _ => @between ms) [] (String c t ++ "||" ++ post) <> None).
  { apply Hname. rewrite exec_app.
    replace (String c t) with (String c (t ++ "")) by now rewrite append_empty_r.
    apply exec_complete; [|reflexivity|].
    - apply Takes_one; [exact Hc|]. apply Takes_lazy; [exact Ht|constructor].
    - cbn [app exec].
      apply (exec_complete (fun ms _ => between ms) _ post after_name "||");
        [|reflexivity|].
      + unfold after_name, literal. cbn [list_ascii_of_string map].
        take_one. take_one. constructor.
      + unfold between. discriminate. }
  rewrite exec_app.
  destruct Hs as [-> | ->].
  - replace ("http" ++ "" ++ "://" ++ String h m ++ "/q/" ++ String c t ++ "||" ++ post)%string
      with (("http://" ++ String h (m ++ "/q/")) ++ (String c t ++ "||" ++ post))%string
      by (cbn [String.append]; now rewrite !append_assoc_str).
    apply exec_complete; [|reflexivity|exact Hgroup].
    unfold before_name, literal. cbn [list_ascii_of_string map app String.append].
    take_one. take_one. take_one. take_one. apply Takes_opt_skip.
    take_one. take_one. take_one.
    apply Takes_plus; [exact Hh1|exact Hm|].
    take_one. take_one. take_one. constructor.
  - replace ("http" ++ "s" ++ "://" ++ String h m ++ "/q/" ++ String c t ++ "||" ++ post)%string
      with (("https://" ++ String h (m ++ "/q/")) ++ (String c t ++ "||" ++ post))%string
      by (cbn [String.append]; now rewrite !append_assoc_str).
    apply exec_complete; [|reflexivity|exact Hgroup].
    unfold before_name, literal. cbn [list_ascii_of_string map app String.append].
    take_one. take_one. take_one. take_one. apply Takes_opt; [reflexivity|].
    take_one. take_one. take_one.
    apply Takes_plus; [exact Hh1|exact Hm|].
    take_one. take_one. take_one. constructor.
Qed.

(** X21: [get_valid_filename] finds a name exactly in the URLs that are
    [http] or [https], [://], a host part of one character or more without
    [<], [/q/], a name and two bars, the name starting with a character
    that is not a double quote and holding no newline after it; the group
    of the match is such a name.  For every other URL it logs the warning
    of line 42 and raises [ValueError]. *)
Theorem valid_filename_needs_the_url_form :
  (forall url name, search_filename url = Some name -> url_form url name)
  /\ (forall url name, url_form url name -> exists name', search_filename url = Some name')
  /\ (forall shuffle url w,
        (forall name, ~ url_form url name) ->
        get_valid_filename shuffle url w
        = (Raise (mkExn ValueError "invalid url"),
           mkWorld (root w) (cwd w)
             (trace w ++ [Log 42 WARNING
                            ("Cannot find spesific name from url: " ++ url)%string]))).
Proof.
  split; [exact search_sound|]. split.
  - intros url name H. apply search_complete in H.
    destruct (search_filename url) as [n|]; [now exists n|contradiction].
  - intros shuffle url w H. unfold get_valid_filename.
    destruct (search_filename url) as [n|] eqn:E; [|reflexivity].
    apply search_sound in E. now apply H in E.
Qed.

Lemma valid_filename_needs_the_url_form_witness :
  get_valid_filename (@rev ascii) "ftp://a/q/x||" home
  = (Raise (mkExn ValueError "invalid url"),
     mkWorld (root home) (cwd home)
       (trace home ++ [Log 42 WARNING
                         ("Cannot find spesific name from url: " ++ "ftp://a/q/x||")%string])).
Proof.
  apply (proj2 (proj2 valid_filename_needs_the_url_form) (@rev ascii) "ftp://a/q/x||" home).
  intros name H. apply search_complete in H. apply H. reflexivity.
Defined.

Lemma list_ascii_length (s : string) :
  List.length (list_ascii_of_string s) = String.length s.
Proof. induction s as [|c s IH]; simpl; [reflexivity|now rewrite IH]. Qed.

Lemma substring_length_le (n : nat) : forall s, String.length (substring 0 n s) <= n.
Proof.
  induction n as [|n IH]; intros s.
  - destruct s; simpl; lia.
  - destruct s as [|c s]; simpl; [lia|]. specialize (IH s). lia.
Qed.

(** X22: when [get_valid_filename] returns, it has logged nothing and
    changed nothing, and what it returns is the first twenty-five
    characters of the name found in the URL (all of them when the name is
    shorter), in the order the shuffle puts them: between one and
    twenty-five characters, the same characters as many times each. *)
Theorem valid_filename_is_a_shuffled_prefix (shuffle : list ascii -> list ascii)
  (url : string) (w w' : world) (basename : string) :
  (forall l, Permutation l (shuffle l)) ->
  get_valid_filename shuffle url w = (Ok basename, w') ->
  w' = w
  /\ 1 <= String.length basename <= 25
  /\ exists name,
       url_form url name
       /\ Permutation (list_ascii_of_string (substring 0 25 name))
            (list_ascii_of_string basename).
Proof.
  intros Hperm. unfold get_valid_filename.
  destruct (search_filename url) as [name|] eqn:E; [|discriminate].
  cbv zeta. unfold ret. intros H. inversion H; subst; clear H.
  pose proof (search_sound _ _ E) as Hform.
  split; [reflexivity|].
  rewrite list_ascii_of_string_of_list_ascii.
  assert (Hlen : String.length
                   (string_of_list_ascii (shuffle (list_ascii_of_string (substring 0 25 name))))
                 = String.length (substring 0 25 name)).
  { rewrite <- list_ascii_length, list_ascii_of_string_of_list_ascii.
    rewrite <- (Permutation_length (Hperm _)). apply list_ascii_length. }
  split.
  - rewrite Hlen. split; [|apply substring_length_le].
    destruct Hform as (s & host & post & c & t & _ & _ & _ & -> & _).
    cbn [substring String.length]. lia.
  - exists name. split; [exact Hform|apply Hperm].
Qed.

Lemma valid_filename_is_a_shuffled_prefix_witness :
  home = home
  /\ 1 <= String.length "fedcba" <= 25
  /\ exists name,
       url_form "https://cdn.site/hosted/q/abcdef||123" name
       /\ Permutation (list_ascii_of_string (substring 0 25 name))
            (list_ascii_of_string "fedcba").
Proof.
  apply (valid_filename_is_a_shuffled_prefix (@rev ascii)
           "https://cdn.site/hosted/q/abcdef||123" home home "fedcba").
  - apply Permutation_rev.
  - reflexivity.
Defined.

(** ** The existence check, in general *)

Lemma lookup_app (p q : list string) :
  forall n, Os.lookup n (p ++ q)
            = match Os.lookup n p with
              | Some x => Os.lookup x q
              | None => None
              end.
Proof.
  induction p as [|c p IH]; intros n; [reflexivity|].
  cbn [app Os.lookup]. destruct n as [|wr es]; [reflexivity|].
  destruct (Os.assoc c es); [apply IH|reflexivity].
Qed.

(** A folder [os.makedirs] had to make is empty. *)
Lemma mkdirs_fresh (comps : list string) :
  forall n n', Os.lookup n comps = None -> Os.mkdirs n comps = Ok n' ->
    Os.lookup n' comps = Some (Dir true []).
Proof.
  induction comps as [|c rest IH]; intros n n' Hl Hm; [discriminate|].
  simpl in Hm. destruct n as [|wr es]; [discriminate|]. simpl in Hl.
  destruct (Os.assoc c es) as [sub|] eqn:Ec.
  - destruct (Os.mkdirs sub rest) as [sub'|] eqn:Em; inversion Hm; subst; clear Hm.
    simpl. rewrite assoc_replace_same by congruence. now apply (IH sub).
  - destruct wr; [|discriminate].
    destruct (Os.mkdirs (Dir true []) rest) as [sub'|] eqn:Em; inversion Hm; subst; clear Hm.
    simpl. rewrite assoc_app, Ec. simpl. rewrite String.eqb_refl.
    destruct rest as [|c' rest'].
    + simpl in Em. now inversion Em.
    + now apply (IH (Dir true [])).
Qed.

(** X23: for plain names, [_download_media] takes the skipping branch
    of line 70 exactly when the path [<folder>/<md5 of the URL>] itself is
    on the disk before the call, and then it changes nothing; when that
    path is absent it never prints the message of line 70, whatever else
    the folder holds: a file whose name only begins with the hash does not
    count. *)
Theorem skip_needs_the_exact_name (w : world) (u username media_type output : string) :
  plain_name username = true -> plain_name media_type = true ->
  let target := PosixPath.components (cwd w) output
                ++ [username; media_type; MD5.hexdigest u] in
  let filename := filename_of w u username media_type output in
  let res := _download_media (Some u) username media_type output w in
  (Os.lookup (root w) target <> None ->
   res = (Ok tt,
          mkWorld (root w) (cwd w)
            (trace w ++ [Print 70 ("[green] Skipping.. [blue]" ++ filename
                                   ++ " [green] file exists!")%string])))
  /\ (Os.lookup (root w) target = None ->
      exists evs, trace (snd res) = trace w ++ evs
                  /\ Forall (fun ev => line_of ev <> 70) evs).
Proof.
  intros Hu Hm. cbv zeta. destruct w as [r here t].
  destruct (hexdigest_shape u) as (_ & _ & Hh).
  pose proof (components_plain here output) as Hb.
  pose proof (folder_render (mkWorld r here []) username media_type output Hu Hm) as Hfolder.
  cbn [cwd] in Hfolder.
  assert (Hfc : PosixPath.components here
                  (output_folder_of (mkWorld r here []) username media_type output)
                = PosixPath.components here output ++ [username; media_type]).
  { rewrite Hfolder. apply components_render.
    apply Forall_app. split; [exact Hb|repeat constructor; assumption]. }
  assert (Hfile : filename_of (mkWorld r here []) u username media_type output
                  = PosixPath.render (PosixPath.components here output
                                      ++ [username; media_type; MD5.hexdigest u])).
  { unfold filename_of. rewrite Hfolder. rewrite join_render.
    - now rewrite <- app_assoc.
    - apply Forall_app. split; [exact Hb|repeat constructor; assumption].
    - repeat constructor; assumption. }
  assert (Hstat : forall r0,
             Os.stat (mkWorld r0 here [])
               (filename_of (mkWorld r here []) u username media_type output)
             = Os.lookup r0 (PosixPath.components here output
                             ++ [username; media_type; MD5.hexdigest u])).
  { intros r0. rewrite Hfile. unfold Os.stat. cbn [root cwd].
    change (PosixPath.render ?x =? "")%string with false. cbv iota.
    rewrite components_render; [reflexivity|].
    apply Forall_app. split; [exact Hb|repeat constructor; assumption]. }
  assert (Hsplit : PosixPath.components here output ++ [username; media_type; MD5.hexdigest u]
                   = (PosixPath.components here output ++ [username; media_type])
                     ++ [MD5.hexdigest u]) by now rewrite <- app_assoc.
  rewrite download_media_unfolded. cbv zeta. cbn [root cwd trace].
  change (filename_of (mkWorld r here t) u username media_type output)
    with (filename_of (mkWorld r here []) u username media_type output).
  rewrite Hfc. unfold report. split.
  - intros Hl. rewrite Hsplit, lookup_app in Hl.
    destruct (Os.lookup r (PosixPath.components here output ++ [username; media_type]))
      as [f|] eqn:Ef; [|congruence].
    rewrite Hstat, Hsplit, lookup_app, Ef.
    destruct (Os.lookup f [MD5.hexdigest u]); [reflexivity|congruence].
  - intros Hl.
    destruct (Os.lookup r (PosixPath.components here output ++ [username; media_type]))
      as [f|] eqn:Ef.
    + rewrite Hstat, Hl. eexists [_]. cbn [snd trace]. split; [reflexivity|].
      repeat constructor. simpl. lia.
    + destruct (Os.mkdirs r _) as [r'|e] eqn:Em.
      * rewrite Hstat, Hsplit, lookup_app, (mkdirs_fresh _ _ _ Ef Em).
        eexists [_]. cbn [snd trace Os.lookup Os.assoc]. split; [reflexivity|].
        repeat constructor. simpl. lia.
      * destruct (isinstance e [PermissionError]); cbn [snd trace].
        -- eexists [_]. split; [reflexivity|]. repeat constructor. simpl. lia.
        -- exists []. split; [now rewrite app_nil_r|constructor].
Qed.

Lemma skip_needs_the_exact_name_witness :
  let target := PosixPath.components (cwd home_with_image) "images"
                ++ ["alice"; "images"; MD5.hexdigest p1_jpg] in
  let res := _download_media (Some p1_jpg) "alice" "images" "images" home_with_image in
  Os.lookup (root home_with_image) target = None
  /\ exists evs, trace (snd res) = trace home_with_image ++ evs
                 /\ Forall (fun ev => line_of ev <> 70) evs.
Proof.
  split; [reflexivity|].
  apply (proj2 (skip_needs_the_exact_name home_with_image p1_jpg "alice" "images" "images"
                  eq_refl eq_refl)).
  reflexivity.
Defined.

(** ** The order of the scan *)

Lemma dir_bytes_perm (files files' : list (string * node)) :
  Permutation files files' -> dir_bytes files = dir_bytes files'.
Proof.
  induction 1 as [|x l l' _ IH|x y l|l l' l'' _ IH1 _ IH2].
  - reflexivity.
  - rewrite !dir_bytes_cons. now rewrite IH.
  - rewrite !dir_bytes_cons. lia.
  - congruence.
Qed.

Lemma bytes_under_perm (key : string) (tops tops' : list (string * node)) :
  Permutation tops tops' -> bytes_under key tops = bytes_under key tops'.
Proof.
  induction 1 as [|[n g] l l' _ IH|[n g] [n' g'] l|l l' l'' _ IH1 _ IH2].
  - reflexivity.
  - cbn [bytes_under]. now rewrite IH.
  - cbn [bytes_under]. lia.
  - congruence.
Qed.

(** X24: on a tree whose top-level entries are directories named after
    the four keys or empty, what the loops of [calculate_total_size] give
    does not depend on the order in which the top-level directories are
    scanned, nor on the order of the entries inside a directory. *)
Theorem summary_does_not_depend_on_the_scan_order
  (tops tops' : list (string * node)) (name : string) (wr wr' : bool)
  (files files' : list (string * node)) :
  Forall (fun g => is_dir (snd g) = true
                   /\ (In (fst g) all_keys \/ is_empty_dir (snd g) = true)) tops ->
  (Permutation tops tops' -> scan tops' (sizes 0 0 0 0) = scan tops (sizes 0 0 0 0))
  /\ (In name all_keys -> Permutation files files' ->
      scan ((name, Dir wr' files') :: tops) (sizes 0 0 0 0)
      = scan ((name, Dir wr files) :: tops) (sizes 0 0 0 0)).
Proof.
  intros H. split.
  - intros Hp.
    assert (H' : Forall (fun g => is_dir (snd g) = true
                                  /\ (In (fst g) all_keys \/ is_empty_dir (snd g) = true))
                   tops').
    { rewrite Forall_forall in *. intros g Hg. apply H.
      eapply Permutation_in; [apply Permutation_sym, Hp|exact Hg]. }
    rewrite (scan_exact tops H), (scan_exact tops' H').
    now rewrite !(bytes_under_perm _ _ _ Hp).
  - intros Hn Hp.
    rewrite !scan_exact by (constructor; [split; [reflexivity|now left]|exact H]).
    rewrite !bytes_under_key. now rewrite (dir_bytes_perm _ _ Hp).
Qed.

Lemma summary_does_not_depend_on_the_scan_order_witness :
  scan [("videos", Dir true [("c.mp4", File "abcdefgh")]);
        ("images", Dir true [("a.jpeg", File "abcd"); ("b.jpeg", File "ab")])]
    (sizes 0 0 0 0)
  = scan [("images", Dir true [("a.jpeg", File "abcd"); ("b.jpeg", File "ab")]);
          ("videos", Dir true [("c.mp4", File "abcdefgh")])]
      (sizes 0 0 0 0).
Proof.
  apply (proj1 (summary_does_not_depend_on_the_scan_order
                  [("images", Dir true [("a.jpeg", File "abcd"); ("b.jpeg", File "ab")]);
                   ("videos", Dir true [("c.mp4", File "abcdefgh")])]
                  [("videos", Dir true [("c.mp4", File "abcdefgh")]);
                   ("images", Dir true [("a.jpeg", File "abcd"); ("b.jpeg", File "ab")])]
                  "images" true true [] []
                  ltac:(repeat (constructor; [split; [reflexivity|left; simpl; auto]|]);
                        constructor))).
  apply perm_swap.
Defined.
